(** * yfinance_scraper: fetch orchestration, cache freshness and incremental merge

    A shallow embedding of the orchestration core of the package
    ([utils.py], [storage.py], [fetcher.py], [updater.py]) together with the
    properties stated about it.

    Conventions.
    - Python [int] is [Z]; list positions and loop counters are [nat] where
      the source obtains them from [range]/[enumerate] over a list.
    - A Python [dict] keyed by strings is a [gmap string _].
    - An exception is a value of [Exception]; a function that can let one
      escape returns a [Result].
    - Side effects (sleeping, logging, calls to the remote provider, the
      parquet store) are threaded through an explicit [World]. *)

From Stdlib Require Import ZArith List Lia Bool Permutation Sorted Ascii.
From stdpp Require Import base option list gmap strings.

Local Open Scope Z_scope.

(** ** Exceptions and results *)

Record Exception := mkExc {
  exc_class : string;   (* the Python exception class *)
  exc_msg   : string    (* [str(e)] *)
}.

Inductive Result (A : Type) : Type :=
| Ok (a : A)
| Raise (e : Exception).
Arguments Ok {A} a.
Arguments Raise {A} e.

(** A function that lets exceptions escape, written in sequence. *)
#[global] Instance Result_ret : MRet Result := fun A a => Ok a.
#[global] Instance Result_bind : MBind Result := fun A B k r =>
  match r with
  | Ok a => k a
  | Raise e => Raise e
  end.

Definition ValueError_range_step : Exception :=
  mkExc "ValueError" "range() arg 3 must not be zero".

(** ** Python built-ins used by the source *)

Module Py.

(** [len(range(lo, hi, step))] for a non-zero step, as CPython computes it. *)
Definition range_len (lo hi step : Z) : Z :=
  if (0 <? step) && (lo <? hi) then 1 + (hi - 1 - lo) / step
  else if (step <? 0) && (hi <? lo) then 1 + (lo - 1 - hi) / (- step)
  else 0.

(** [range(lo, hi, step)]: a zero step raises [ValueError]. *)
Definition range (lo hi step : Z) : Result (list Z) :=
  if step =? 0 then Raise ValueError_range_step
  else Ok (map (fun k : nat => lo + Z.of_nat k * step)
               (seq 0 (Z.to_nat (range_len lo hi step)))).

(** Normalisation of one slice bound against a sequence of length [n]. *)
Definition clamp (n i : Z) : Z :=
  if i <? 0 then Z.max 0 (i + n) else Z.min i n.

(** [items[lo:hi]] *)
Definition slice {A} (items : list A) (lo hi : Z) : list A :=
  let n := Z.of_nat (length items) in
  let a := clamp n lo in
  let b := clamp n hi in
  firstn (Z.to_nat (b - a)) (skipn (Z.to_nat a) items).

End Py.

(** ** utils.py: chunk_list *)

(** [return [items[i:i + chunk_size] for i in range(0, len(items), chunk_size)]] *)
Definition chunk_list {A} (items : list A) (chunk_size : Z) : Result (list (list A)) :=
  match Py.range 0 (Z.of_nat (length items)) chunk_size with
  | Raise e => Raise e
  | Ok starts => Ok (map (fun i => Py.slice items i (i + chunk_size)) starts)
  end.

(** ** pandas: the part of [DataFrame] the source relies on *)

(** An axis label: a timestamp or integer position ([Num], timestamps in
    microseconds since the epoch), a name, or a two-level label
    [(ticker, field)] of the grouped frame returned by a bulk download. *)
Inductive Label :=
| Num (z : Z)
| Name (s : string)
| Pair (a b : string).

#[global] Instance Label_eq_dec : EqDecision Label.
Proof. solve_decision. Defined.

#[global] Instance Label_countable : Countable Label.
Proof.
  refine (inj_countable'
    (fun l => match l with
              | Num z => inl z
              | Name s => inr (inl s)
              | Pair a b => inr (inr (a, b))
              end)
    (fun x => match x with
              | inl z => Num z
              | inr (inl s) => Name s
              | inr (inr (a, b)) => Pair a b
              end) _).
  intros []; reflexivity.
Defined.

(** The order [sort_index] sorts by.  Within one kind of label it is the
    natural order.  pandas refuses to order an axis that mixes kinds; no
    frame of this package does, and the model places numbers before names
    before pairs there. *)
Definition label_leb (x y : Label) : bool :=
  match x, y with
  | Num a, Num b => a <=? b
  | Num _, _ => true
  | Name _, Num _ => false
  | Name a, Name b => String.leb a b
  | Name _, Pair _ _ => true
  | Pair a b, Pair c d => if String.eqb a c then String.leb b d else String.leb a c
  | Pair _ _, _ => false
  end.

(** The class of an axis object, as far as [isinstance] and attribute
    access in the source can tell. *)
Inductive AxisType := DatetimeIndex | MultiIndex | Index.

#[global] Instance AxisType_eq_dec : EqDecision AxisType.
Proof. solve_decision. Defined.

(** One row: column label to cell.  A missing key is a NaN cell. *)
Abbreviation Row := (gmap Label Z).

(** [index_tz] tells whether the timestamps of a [DatetimeIndex] carry a
    time zone (dtype [datetime64[ns, tz]]) or are naive; it means nothing
    for another index. *)
Record DataFrame := mkDF {
  index_type   : AxisType;
  columns_type : AxisType;
  columns      : list Label;
  rows         : list (Label * Row);
  index_tz     : bool
}.

Module Pd.

(** [df.index] *)
Definition index (df : DataFrame) : list Label := map fst (rows df).

(** [df.empty]: some axis has length zero. *)
Definition empty (df : DataFrame) : bool :=
  (Nat.eqb (length (rows df)) 0) || (Nat.eqb (length (columns df)) 0).

(** [col in df.columns] *)
Definition has_column (df : DataFrame) (col : Label) : bool :=
  bool_decide (col ∈ columns df).

(** [df[col].any()]: some cell of the column is neither NaN nor zero. *)
Definition any (df : DataFrame) (col : Label) : bool :=
  existsb (fun r : Label * Row =>
             match snd r !! col with Some v => negb (v =? 0) | None => false end)
          (rows df).

(** [df[df[col] > 0][[col]]] *)
Definition positive_part (df : DataFrame) (col : Label) : DataFrame :=
  mkDF (index_type df) Index [col]
    (map (fun r : Label * Row =>
            (fst r, match snd r !! col with Some v => {[ col := v ]} | None => ∅ end))
         (List.filter (fun r : Label * Row =>
                         match snd r !! col with Some v => 0 <? v | None => false end)
                      (rows df)))
    (index_tz df).

(** The class of the axis holding the labels of two concatenated axes. *)
Definition join_type (a b : AxisType) : AxisType :=
  if decide (a = b) then a else Index.

(** [pd.concat([a, b])]: rows of [a] then rows of [b]; the columns are the
    union in order of first appearance, cells absent from a row are NaN.
    The two tables are a stored one and a fetched one of the same kind,
    their timestamps both naive or both aware: pandas joins a naive and
    an aware index into an index of objects that [sort_index] then
    refuses to order, as it does an axis that mixes kinds of labels. *)
Definition concat (a b : DataFrame) : DataFrame :=
  mkDF (join_type (index_type a) (index_type b))
       (join_type (columns_type a) (columns_type b))
       (columns a ++ List.filter (fun c => negb (bool_decide (c ∈ columns a))) (columns b))
       (rows a ++ rows b)
       (index_tz a && index_tz b).

(** [idx.duplicated(keep='last')]: position [i] is marked when the same
    label occurs again at a later position. *)
Fixpoint duplicated_last (idx : list Label) : list bool :=
  match idx with
  | [] => []
  | x :: rest => bool_decide (x ∈ rest) :: duplicated_last rest
  end.

(** [df[mask]] for a boolean mask aligned with the rows. *)
Fixpoint select {A} (xs : list A) (mask : list bool) : list A :=
  match xs, mask with
  | x :: xs', m :: mask' => if m then x :: select xs' mask' else select xs' mask'
  | _, _ => []
  end.

(** [df[~df.index.duplicated(keep='last')]] *)
Definition drop_duplicated_last (df : DataFrame) : DataFrame :=
  mkDF (index_type df) (columns_type df) (columns df)
       (select (rows df) (map negb (duplicated_last (index df))))
       (index_tz df).

(** Insertion of one row into rows already ordered by label; among equal
    labels the inserted row goes first, so that [sort_rows] is stable. *)
Fixpoint insert_row (r : Label * Row) (rs : list (Label * Row)) : list (Label * Row) :=
  match rs with
  | [] => [r]
  | r' :: rs' =>
      if label_leb (fst r) (fst r') then r :: rs else r' :: insert_row r rs'
  end.

Fixpoint sort_rows (rs : list (Label * Row)) : list (Label * Row) :=
  match rs with
  | [] => []
  | r :: rs' => insert_row r (sort_rows rs')
  end.

(** [df.sort_index()]: ascending by index label.  pandas leaves the
    order among equal labels to the sorting algorithm; the merge sorts
    after [drop_duplicated_last], when no two labels are equal. *)
Definition sort_index (df : DataFrame) : DataFrame :=
  mkDF (index_type df) (columns_type df) (columns df) (sort_rows (rows df))
       (index_tz df).

(** [df.index.max()] of a [DatetimeIndex], as a count of microseconds;
    [None] is [NaT] (what the maximum of an empty index is). *)
Definition index_max (df : DataFrame) : option Z :=
  foldr (fun l acc =>
           match l, acc with
           | Num t, Some m => Some (Z.max t m)
           | Num t, None => Some t
           | _, _ => acc
           end) None (index df).

(** [pd.DataFrame([d])] for a dict [d], given as its items in insertion
    order: a single row labelled [0], the columns in the order of the
    keys. *)
Definition from_record (d : list (Label * Z)) : DataFrame :=
  mkDF Index Index (map fst d) [(Num 0, list_to_map d)] false.

(** [label in df.index] *)
Definition in_index (df : DataFrame) (l : Label) : bool :=
  bool_decide (l ∈ index df).

(** [df.loc[[l]].T]: the rows labelled [l] become the columns, the
    columns become the index.  The dates a statement has for columns are
    naive; a time zone of the columns axis is not part of the model. *)
Definition loc_T (df : DataFrame) (l : Label) : DataFrame :=
  let picked := List.filter (fun r : Label * Row => bool_decide (fst r = l)) (rows df) in
  mkDF (columns_type df) (index_type df) (map fst picked)
    (map (fun c => (c, match picked with
                       | r :: _ => match snd r !! c with
                                   | Some v => {[ l := v ]}
                                   | None => ∅
                                   end
                       | [] => ∅
                       end))
         (columns df))
    false.

(** [t in data.columns.levels[0]] on a frame with two-level columns. *)
Definition in_level0 (data : DataFrame) (t : string) : bool :=
  existsb (fun c => match c with Pair a _ => String.eqb a t | _ => false end)
          (columns data).

(** [data[t].copy()] on a frame with two-level columns: the columns
    grouped under [t], with the first level dropped. *)
Definition sub_frame (data : DataFrame) (t : string) : DataFrame :=
  let under c := match c with
                 | Pair a f => if String.eqb a t then Some (Name f) else None
                 | _ => None
                 end in
  mkDF (index_type data) Index (omap under (columns data))
    (map (fun r : Label * Row =>
            (fst r,
             list_to_map (omap (fun kv : Label * Z =>
                                  match under (fst kv) with
                                  | Some c => Some (c, snd kv)
                                  | None => None
                                  end)
                               (map_to_list (snd r)))))
         (rows data))
    (index_tz data).

(** [df.index.min()] of a [DatetimeIndex]; [None] is [NaT]. *)
Definition index_min (df : DataFrame) : option Z :=
  foldr (fun l acc =>
           match l, acc with
           | Num t, Some m => Some (Z.min t m)
           | Num t, None => Some t
           | _, _ => acc
           end) None (index df).

(** [df[df.index >= bound]] and [df[df.index <= bound]] on a
    [DatetimeIndex]: the rows whose timestamp passes the test [keep]; an
    entry that is no timestamp ([NaT]) compares false. *)
Definition mask_index (df : DataFrame) (keep : Z -> bool) : DataFrame :=
  mkDF (index_type df) (columns_type df) (columns df)
       (List.filter (fun r : Label * Row =>
                       match fst r with Num t => keep t | _ => false end)
                    (rows df))
       (index_tz df).

(** [df[cols]] for a list of column labels that are all columns of [df]. *)
Definition select_columns (df : DataFrame) (cols : list Label) : DataFrame :=
  mkDF (index_type df) (columns_type df) cols
       (map (fun r : Label * Row =>
               (fst r, filter (fun kv : Label * Z => kv.1 ∈ cols) (snd r)))
            (rows df))
       (index_tz df).

End Pd.

(** ** Time *)

(** A [datetime] is a count of microseconds since the epoch: [Dt] a naive
    one, as [datetime.now()] returns, [DtAware] one with a time zone (the
    count is that of its instant in UTC).  [NaT] is pandas' missing
    timestamp: every comparison with it is false and arithmetic on it
    gives [NaT].  The timestamps of a stored index and the readings of the
    clock are taken to lie within [datetime]'s range, a day off its end. *)
Inductive PyDatetime := Dt (us : Z) | DtAware (us : Z) | NaT.

Definition timedelta_days (days : Z) : Z := days * 86400000000.
Definition timedelta_seconds (s : Z) : Z := s * 1000000.

(** [datetime.min] and [datetime.max]: the first microsecond of year 1 and
    the last of year 9999. *)
Definition DATETIME_MIN : Z := -62135596800000000.
Definition DATETIME_MAX : Z := 253402300799999999.

Definition OverflowError_days : Exception :=
  mkExc "OverflowError" "days={days}; must have magnitude <= 999999999".

Definition OverflowError_date : Exception :=
  mkExc "OverflowError" "date value out of range".

Definition TypeError_naive_aware : Exception :=
  mkExc "TypeError" "can't compare offset-naive and offset-aware datetimes".

(** [timedelta(days=days)] for an [int] *)
Definition timedelta (days : Z) : Result Z :=
  if 999999999 <? Z.abs days then Raise OverflowError_days
  else Ok (timedelta_days days).

(** [a - delta] for a naive datetime [a] *)
Definition datetime_sub (a delta : Z) : Result Z :=
  let d := a - delta in
  if (d <? DATETIME_MIN) || (DATETIME_MAX <? d) then Raise OverflowError_date
  else Ok d.

(** [a >= b] and [a > b] where [b] is a naive datetime: a datetime with a
    time zone does not compare with it. *)
Definition dt_ge (a : PyDatetime) (b : Z) : Result bool :=
  match a with
  | Dt t => Ok (b <=? t)
  | DtAware _ => Raise TypeError_naive_aware
  | NaT => Ok false
  end.

Definition dt_gt (a : PyDatetime) (b : Z) : Result bool :=
  match a with
  | Dt t => Ok (b <? t)
  | DtAware _ => Raise TypeError_naive_aware
  | NaT => Ok false
  end.

(** [a + timedelta] *)
Definition dt_add (a : PyDatetime) (d : Z) : PyDatetime :=
  match a with
  | Dt t => Dt (t + d)
  | DtAware t => DtAware (t + d)
  | NaT => NaT
  end.

(** [stamp.to_pydatetime()] for the extreme timestamp of an index *)
Definition to_pydatetime (aware : bool) (stamp : option Z) : PyDatetime :=
  match stamp with
  | Some t => if aware then DtAware t else Dt t
  | None => NaT
  end.

(** ** The parquet store *)

(** What a file [<data_type>.parquet] holds: a table that [read_parquet]
    returns as it was written, or bytes it fails on. *)
Inductive File := Parquet (df : DataFrame) | Unreadable.

(** A directory maps a data type to its parquet file; the file system maps
    the path of a directory to that directory.  A path is the string
    [os.path.join] gives; two spellings of one path (a doubled or trailing
    separator, a [.] or [..] component) are not identified. *)
Abbreviation Dir := (gmap string File).
Abbreviation FS := (gmap string Dir).

(** [os.path.join(a, b)] (posix) *)
Definition path_join (a b : string) : string :=
  if String.prefix "/" b then b
  else if String.eqb a "" || String.eqb (String.substring (String.length a - 1) 1 a) "/"
       then a +:+ b
       else a +:+ "/" +:+ b.

(** [os.path.exists] of a ticker directory and of a parquet file in it *)
Definition dir_exists (fs : FS) (dir : string) : bool :=
  bool_decide (is_Some (fs !! dir)).

Definition read_file (fs : FS) (dir data_type : string) : option File :=
  d ← fs !! dir; d !! data_type.

Definition file_exists (fs : FS) (dir data_type : string) : bool :=
  bool_decide (is_Some (read_file fs dir data_type)).

(** The directories above a path, outermost first: what stands before
    each of its separators (the root aside). *)
Fixpoint ancestors_from (before rest : string) : list string :=
  match rest with
  | EmptyString => []
  | String c rest' =>
      (if Ascii.eqb c "/" && negb (String.eqb before "") then [before] else [])
      ++ ancestors_from (before +:+ String c EmptyString) rest'
  end.

Definition ancestors (path : string) : list string := ancestors_from "" path.

(** [os.mkdir(dir)] unless the directory is there *)
Definition mkdir (fs : FS) (dir : string) : FS :=
  match fs !! dir with
  | Some _ => fs
  | None => <[ dir := ∅ ]> fs
  end.

(** [os.makedirs(dir, exist_ok=True)]: the missing directories above
    [dir] are made as well. *)
Definition makedirs (fs : FS) (dir : string) : FS :=
  foldl mkdir fs (ancestors dir ++ [dir]).

Definition write_file (fs : FS) (dir data_type : string) (f : File) : FS :=
  <[ dir := <[ data_type := f ]> (default ∅ (fs !! dir)) ]> fs.

(** ** storage.py *)

Section Storage.

(** Whether [df.to_parquet(path)] goes through for this frame at this
    place (pyarrow rejects some frames, the disk may refuse).  A failed
    write leaves what was there. *)
Variable to_parquet_ok : string -> string -> DataFrame -> bool.

Definition get_ticker_dir (fs : FS) (data_dir ticker : string) : string * FS :=
  let ticker_dir := path_join data_dir ticker in
  (ticker_dir, makedirs fs ticker_dir).

(** The file path is given by its directory and the data type naming the
    file. *)
Definition save_dataframe_to_parquet
    (fs : FS) (df : DataFrame) (dir data_type : string) : bool * FS :=
  if to_parquet_ok dir data_type df
  then (true, write_file (makedirs fs dir) dir data_type (Parquet df))
  else (false, fs).

(** One turn of the loop of [save_ticker_data]. *)
Definition save_ticker_step (ticker_dir : string)
    (acc : bool * FS) (item : string * option DataFrame) : bool * FS :=
  let '(success, fs) := acc in
  let '(data_type, df) := item in
  match df with
  | None => (success, fs)
  | Some df =>
      if Pd.empty df then (success, fs)
      else
        let '(ok, fs') := save_dataframe_to_parquet fs df ticker_dir data_type in
        (if ok then success else false, fs')
  end.

Definition save_ticker_data
    (fs : FS) (ticker : string) (data : gmap string (option DataFrame))
    (data_dir : string) : bool * FS :=
  let '(ticker_dir, fs1) := get_ticker_dir fs data_dir ticker in
  foldl (save_ticker_step ticker_dir) (true, fs1) (map_to_list data).

End Storage.

Definition load_dataframe_from_parquet (fs : FS) (dir data_type : string)
  : option DataFrame :=
  match read_file fs dir data_type with
  | Some (Parquet df) => Some df
  | Some Unreadable => None
  | None => None
  end.

Definition load_ticker_data
    (fs : FS) (ticker data_dir : string) (data_types : option (list string))
  : gmap string DataFrame :=
  let ticker_dir := path_join data_dir ticker in
  match fs !! ticker_dir with
  | None => ∅
  | Some d =>
      let data_types :=
        match data_types with
        | Some l => l
        | None => map fst (map_to_list d)
        end in
      foldl (fun result data_type =>
               match load_dataframe_from_parquet fs ticker_dir data_type with
               | Some df => <[ data_type := df ]> result
               | None => result
               end) ∅ data_types
  end.

Definition get_latest_date (fs : FS) (ticker data_dir data_type : string)
  : option PyDatetime :=
  let ticker_data := load_ticker_data fs ticker data_dir (Some [data_type]) in
  match ticker_data !! data_type with
  | None => None
  | Some df =>
      match index_type df with
      | DatetimeIndex => Some (to_pydatetime (index_tz df) (Pd.index_max df))
      | _ => None
      end
  end.

(** ** utils.py: cache freshness and prioritisation *)

(** [now] is what [datetime.now()] returns inside the call.  The cutoff is
    computed, and compared with the latest date, only when there is a
    latest date: [timedelta] raises for too many days, the subtraction when
    the cutoff is no datetime, the comparison when the latest date has a
    time zone. *)
Definition is_cache_valid
    (fs : FS) (now : Z) (ticker data_dir data_type : string) (max_age_days : Z)
  : Result bool :=
  let ticker_dir := path_join data_dir ticker in
  if negb (file_exists fs ticker_dir data_type) then Ok false
  else
    match get_latest_date fs ticker data_dir data_type with
    | None => Ok false
    | Some latest_date =>
        max_age ← timedelta max_age_days;
        cutoff_date ← datetime_sub now max_age;
        dt_ge latest_date cutoff_date
    end.

(** The three lists [prioritize_tickers] appends to. *)
Record Buckets := mkBuckets {
  uncached : list string;
  cached_outdated : list string;
  cached_valid : list string
}.

(** [for x in xs: acc = step acc x] for a step that may raise *)
Fixpoint fold_result {A S} (step : S -> A -> Result S) (acc : S) (xs : list A)
  : Result S :=
  match xs with
  | [] => Ok acc
  | x :: xs' => acc' ← step acc x; fold_result step acc' xs'
  end.

Definition prioritize_step (fs : FS) (now : Z) (data_dir : string) (max_age_days : Z)
    (b : Buckets) (ticker : string) : Result Buckets :=
  if negb (dir_exists fs (path_join data_dir ticker))
  then Ok (mkBuckets (uncached b ++ [ticker]) (cached_outdated b) (cached_valid b))
  else
    valid ← is_cache_valid fs now ticker data_dir "ohlcv" max_age_days;
    if negb valid
    then Ok (mkBuckets (uncached b) (cached_outdated b ++ [ticker]) (cached_valid b))
    else Ok (mkBuckets (uncached b) (cached_outdated b) (cached_valid b ++ [ticker])).

(** The freshness check is outside any [try]: an error of it ends the
    loop and leaves [prioritize_tickers]. *)
Definition prioritize_tickers
    (fs : FS) (now : Z) (tickers : list string) (data_dir : string) (max_age_days : Z)
  : Result (list string) :=
  b ← fold_result (prioritize_step fs now data_dir max_age_days)
                  (mkBuckets [] [] []) tickers;
  Ok (uncached b ++ cached_outdated b ++ cached_valid b).

(** ** updater.py: the merge of stored and freshly fetched tables *)

(** Lines 78-82: concatenate, keep the last of equal index labels, sort. *)
Definition merge_frames (existing new : DataFrame) : DataFrame :=
  Pd.sort_index (Pd.drop_duplicated_last (Pd.concat existing new)).

(** The loop over [set(existing_data.keys() + new_data[ticker].keys())]. *)
Definition merge_data (existing_data new_data : gmap string DataFrame)
  : gmap string DataFrame :=
  merge (fun e n =>
           match e, n with
           | Some e, Some n => Some (merge_frames e n)
           | None, Some n => Some n
           | Some e, None => Some e
           | None, None => None
           end) existing_data new_data.

(** ** The world the fetcher runs in *)

Inductive Level := DEBUG | INFO | WARNING | ERROR.

(** The argument of [time.sleep]: a whole number of seconds plus
    [random.uniform(0, jitter_max)]; the drawn sample is not part of the
    model. *)
Record Duration := mkDuration { seconds : Z; jitter_max : Z }.

(** [period=...] or [start=..., end=...] *)
Inductive Span :=
| Period (period : string)
| Between (start_date end_date : PyDatetime).

(** The keyword arguments that travel together from the entry points to
    the provider ([auto_adjust=False] and [group_by='ticker'] are fixed). *)
Record Query := mkQuery {
  q_span : Span;
  q_interval : string;
  q_prepost : bool;
  q_actions : bool
}.

Inductive Statement := Financials | BalanceSheet | Cashflow | IncomeStmt.

Inductive Request :=
| History (ticker : string) (q : Query)          (* yf.Ticker(t).history(...) *)
| Download (tickers : list string) (q : Query)   (* yf.download(...) *)
| Info (ticker : string)                         (* yf.Ticker(t).info *)
| Stmt (s : Statement) (ticker : string).        (* .financials, .balance_sheet, ... *)

Inductive Event :=
| Called (r : Request)
| Slept (d : Duration)
| Logged (lvl : Level) (msg : string).

(** The remote provider: what each request returns or raises, given the
    number of events that happened before it. *)
Record Remote := mkRemote {
  history   : nat -> string -> Query -> Result DataFrame;
  download  : nat -> list string -> Query -> Result DataFrame;
  info      : nat -> string -> Result (list (Label * Z));
  statement : nat -> Statement -> string -> Result DataFrame
}.

Record Env := mkEnv {
  remote : Remote;
  clock : nat -> Z;                                  (* [datetime.now()] *)
  to_parquet_ok : string -> string -> DataFrame -> bool
}.

Record World := mkWorld {
  fs : FS;
  trace : list Event        (* oldest first *)
}.

(** Computations that read and change the world and may raise. *)
Definition M (A : Type) : Type := World -> Result A * World.

#[global] Instance M_ret : MRet M := fun A a w => (Ok a, w).
#[global] Instance M_bind : MBind M := fun A B k m w =>
  match m w with
  | (Ok a, w') => k a w'
  | (Raise e, w') => (Raise e, w')
  end.

(** [try: body except Exception as e: handler e] *)
Definition try_except {A} (body : M A) (handler : Exception -> M A) : M A :=
  fun w =>
    match body w with
    | (Ok a, w') => (Ok a, w')
    | (Raise e, w') => handler e w'
    end.

Definition emit (ev : Event) : M unit :=
  fun w => (Ok tt, mkWorld (fs w) (trace w ++ [ev])).

Definition log (lvl : Level) (msg : string) : M unit := emit (Logged lvl msg).

Definition sleep (d : Duration) : M unit := emit (Slept d).

Definition lift {A} (r : Result A) : M A := fun w => (r, w).

Definition get_fs : M FS := fun w => (Ok (fs w), w).

Definition put_fs (fs' : FS) : M unit := fun w => (Ok tt, mkWorld fs' (trace w)).

(** What a statement of a loop body tells the loop to do next. *)
Inductive Flow (A : Type) : Type :=
| Next                 (* fall through or [continue] *)
| Break
| Return (a : A).
Arguments Next {A}.
Arguments Break {A}.
Arguments Return {A} a.

(** [for x in xs: acc = step acc x] *)
Fixpoint for_each {A S} (step : S -> A -> M S) (acc : S) (xs : list A) : M S :=
  match xs with
  | [] => mret acc
  | x :: xs' => acc' ← step acc x; for_each step acc' xs'
  end.

(** [enumerate(xs)] *)
Definition enumerate {A} (xs : list A) : list (nat * A) :=
  zip (seq 0 (length xs)) xs.

(** [range(n)] for an [int] [n] *)
Definition range_n (n : Z) : list nat := seq 0 (Z.to_nat n).

(** Truth value of an [Optional[str]] *)
Definition truthy (data_dir : option string) : bool :=
  match data_dir with
  | Some d => negb (String.eqb d "")
  | None => false
  end.

(** ** fetcher.py *)

Definition RATE_LIMIT_DEFAULT_TIMEOUT : Z := 30.
Definition MAX_RETRIES : Z := 5.
Definition BATCH_SIZE : Z := 50.
Definition DAILY_LIMIT : Z := 400.
Definition REQUEST_DELAY : Z := 2.
Definition BATCH_DELAY : Z := 5.
Definition MAX_AGE_DAYS : Z := 1.

(** ["Too Many Requests" in str(e)] *)
Definition is_rate_limited (e : Exception) : bool :=
  bool_decide (is_Some (String.index 0 "Too Many Requests" (exc_msg e))).

(** [data_dir and not force_refresh and is_cache_valid(ticker, data_dir,
    max_age_days=MAX_AGE_DAYS)]: the freshness check is made only with a
    data directory and without forced refresh. *)
Definition cache_check (data_dir : option string) (force_refresh : bool)
    (store : FS) (now : Z) (ticker : string) : Result bool :=
  if truthy data_dir && negb force_refresh
  then is_cache_valid store now ticker (default "" data_dir) "ohlcv" MAX_AGE_DAYS
  else Ok false.

(** [all(check(t) for t in batch)]: the checks are made in order, up to
    the first that answers false or raises. *)
Fixpoint all_of (check : string -> Result bool) (batch : list string) : Result bool :=
  match batch with
  | [] => Ok true
  | ticker :: rest =>
      valid ← check ticker;
      if valid : bool then all_of check rest else Ok false
  end.

(** [data_dir and not force_refresh and all(is_cache_valid(t, data_dir,
    max_age_days=MAX_AGE_DAYS) for t in batch)] *)
Definition batch_cache_check (data_dir : option string) (force_refresh : bool)
    (store : FS) (now : Z) (batch : list string) : Result bool :=
  if truthy data_dir && negb force_refresh
  then all_of (fun ticker =>
                 is_cache_valid store now ticker (default "" data_dir) "ohlcv" MAX_AGE_DAYS)
              batch
  else Ok false.

Definition AttributeError_levels : Exception :=
  mkExc "AttributeError" "'Index' object has no attribute 'levels'".

(** [{"ohlcv": hist}] with the dividends and splits sub-tables added when
    the columns are there and hold a non-zero value. *)
Definition price_tables (hist : DataFrame) : gmap string DataFrame :=
  let result : gmap string DataFrame := {[ "ohlcv" := hist ]} in
  let result :=
    if Pd.has_column hist (Name "Dividends") && Pd.any hist (Name "Dividends")
    then <[ "dividends" := Pd.positive_part hist (Name "Dividends") ]> result
    else result in
  if Pd.has_column hist (Name "Stock Splits") && Pd.any hist (Name "Stock Splits")
  then <[ "splits" := Pd.positive_part hist (Name "Stock Splits") ]> result
  else result.

(** Truth value of a [dict] *)
Definition dict_truthy {V} (d : gmap string V) : bool := negb (Nat.eqb (size d) 0).
Definition dict_truthy_items {K V} (d : list (K * V)) : bool :=
  negb (Nat.eqb (length d) 0).

(** [for attempt in range(...)] around a body that may [continue],
    [break] or [return]: [Some a] when the body returned [a], [None] when
    the loop ran out or was left by [break]. *)
Fixpoint attempts_loop {A} (body : nat -> M (Flow A)) (attempts : list nat) : M (option A) :=
  match attempts with
  | [] => mret None
  | attempt :: rest =>
      f ← body attempt;
      match f with
      | Return a => mret (Some a)
      | Break => mret None
      | Next => attempts_loop body rest
      end
  end.

Section Fetcher.

Variable env : Env.

(** A call to the remote provider; it is recorded whether it returns or
    raises. *)
Definition request {A} (r : Request) (answer : nat -> Result A) : M A :=
  fun w => (answer (length (trace w)), mkWorld (fs w) (trace w ++ [Called r])).

Definition yf_history (ticker : string) (q : Query) : M DataFrame :=
  request (History ticker q) (fun n => history (remote env) n ticker q).

Definition yf_download (tickers : list string) (q : Query) : M DataFrame :=
  request (Download tickers q) (fun n => download (remote env) n tickers q).

Definition yf_info (ticker : string) : M (list (Label * Z)) :=
  request (Info ticker) (fun n => info (remote env) n ticker).

Definition yf_statement (s : Statement) (ticker : string) : M DataFrame :=
  request (Stmt s ticker) (fun n => statement (remote env) n s ticker).

(** [datetime.now()] *)
Definition now : M Z := fun w => (Ok (clock env (length (trace w))), w).

(** [save_ticker_data] on the current store *)
Definition save (ticker : string) (data : gmap string DataFrame) (data_dir : string)
  : M bool :=
  fun w =>
    let '(ok, fs') :=
      save_ticker_data (to_parquet_ok env) (fs w) ticker (Some <$> data) data_dir in
    (Ok ok, mkWorld fs' (trace w)).

Definition pause (secs : Z) : M unit := sleep (mkDuration secs 0).

(** *** The five fundamentals requests (lines 100-142 and 352-394) *)

Definition fetch_info (ticker : string) (result : gmap string DataFrame)
  : M (gmap string DataFrame) :=
  try_except
    (info ← yf_info ticker;
     let result :=
       if dict_truthy_items info then <[ "info" := Pd.from_record info ]> result
       else result in
     pause REQUEST_DELAY;;
     mret result)
    (fun e => log WARNING "Could not fetch info for {ticker}: {e}";; mret result).

Definition fetch_financials (ticker : string) (result : gmap string DataFrame)
  : M (gmap string DataFrame) :=
  try_except
    (financials ← yf_statement Financials ticker;
     let result :=
       if negb (Pd.empty financials) then <[ "financials" := financials ]> result
       else result in
     pause REQUEST_DELAY;;
     mret result)
    (fun e => log DEBUG "Could not fetch financials for {ticker}: {e}";; mret result).

Definition fetch_balance_sheet (ticker : string) (result : gmap string DataFrame)
  : M (gmap string DataFrame) :=
  try_except
    (balance_sheet ← yf_statement BalanceSheet ticker;
     let result :=
       if negb (Pd.empty balance_sheet)
       then <[ "balance_sheet" := balance_sheet ]> result
       else result in
     pause REQUEST_DELAY;;
     mret result)
    (fun e => log DEBUG "Could not fetch balance sheet for {ticker}: {e}";; mret result).

Definition fetch_cashflow (ticker : string) (result : gmap string DataFrame)
  : M (gmap string DataFrame) :=
  try_except
    (cashflow ← yf_statement Cashflow ticker;
     let result :=
       if negb (Pd.empty cashflow) then <[ "cashflow" := cashflow ]> result
       else result in
     pause REQUEST_DELAY;;
     mret result)
    (fun e => log DEBUG "Could not fetch cashflow for {ticker}: {e}";; mret result).

Definition fetch_earnings (ticker : string) (result : gmap string DataFrame)
  : M (gmap string DataFrame) :=
  try_except
    (income_stmt ← yf_statement IncomeStmt ticker;
     let result :=
       if negb (Pd.empty income_stmt) && Pd.in_index income_stmt (Name "Net Income")
       then <[ "earnings" := Pd.loc_T income_stmt (Name "Net Income") ]> result
       else result in
     pause REQUEST_DELAY;;
     mret result)
    (fun e => log DEBUG "Could not fetch earnings data for {ticker}: {e}";; mret result).

Definition fetch_fundamentals (ticker : string) (result : gmap string DataFrame)
  : M (gmap string DataFrame) :=
  result ← fetch_info ticker result;
  result ← fetch_financials ticker result;
  result ← fetch_balance_sheet ticker result;
  result ← fetch_cashflow ticker result;
  fetch_earnings ticker result.

(** *** fetch_with_retry *)

(** The wait of a rate-limited attempt:
    [RATE_LIMIT_DEFAULT_TIMEOUT * (2 ** attempt) + random.uniform(0, jitter)] *)
Definition backoff (attempt : nat) (jitter : Z) : Duration :=
  mkDuration (RATE_LIMIT_DEFAULT_TIMEOUT * 2 ^ Z.of_nat attempt) jitter.

(** One turn of the loop at lines 66-159. *)
Definition fetch_with_retry_attempt
    (ticker : string) (q : Query) (data_dir : option string) (attempt : nat)
  : M (Flow (gmap string DataFrame)) :=
  try_except
    (log INFO "Fetching data for {ticker} (attempt {attempt+1}/{max_retries})";;
     hist_data ← yf_history ticker q;
     if Pd.empty hist_data then
       log WARNING "No data returned for {ticker}";;
       pause REQUEST_DELAY;;
       mret Next
     else
       result ← fetch_fundamentals ticker (price_tables hist_data);
       (if truthy data_dir && dict_truthy result then
          save ticker result (default "" data_dir);;
          log INFO "Cached data for {ticker}"
        else mret tt);;
       mret (Return result))
    (fun e =>
       if is_rate_limited e then
         log WARNING "Rate limited for {ticker}, waiting {wait_time:.2f}s before retry";;
         sleep (backoff attempt 3);;
         mret Next
       else
         log ERROR "Error fetching data for {ticker}: {e}";;
         pause REQUEST_DELAY;;
         mret Next).

(** Lines 66-162: the loop and what follows it. *)
Definition fetch_with_retry_loop
    (ticker : string) (q : Query) (data_dir : option string) (max_retries : Z)
  : M (gmap string DataFrame) :=
  r ← attempts_loop (fetch_with_retry_attempt ticker q data_dir) (range_n max_retries);
  match r with
  | Some result => mret result
  | None =>
      log ERROR "Failed to fetch {ticker} after {max_retries} retries";;
      mret ∅
  end.

Definition fetch_with_retry
    (ticker : string) (q : Query) (data_dir : option string)
    (max_retries : Z) (force_refresh : bool)
  : M (gmap string DataFrame) :=
  t ← now;
  store ← get_fs;
  valid ← lift (cache_check data_dir force_refresh store t ticker);
  if valid : bool then
    log INFO "Using cached data for {ticker}";;
    mret (load_ticker_data store ticker (default "" data_dir) None)
  else fetch_with_retry_loop ticker q data_dir max_retries.

(** *** fetch_batch_price_data *)

(** Lines 209-221: the per-ticker tables taken out of the response. *)
Definition split_batch (tickers : list string) (data : DataFrame)
  : Result (gmap string DataFrame) :=
  match tickers with
  | [] => Ok ∅
  | [ticker] => Ok {[ ticker := data ]}
  | _ =>
      match columns_type data with
      | MultiIndex =>
          Ok (foldl (fun result ticker =>
                       if Pd.in_level0 data ticker then
                         let ticker_data := Pd.sub_frame data ticker in
                         if negb (Pd.empty ticker_data)
                         then <[ ticker := ticker_data ]> result
                         else result
                       else result) ∅ tickers)
      | _ => Raise AttributeError_levels
      end
  end.

(** One turn of the loop at lines 189-234. *)
Definition fetch_batch_attempt (tickers : list string) (q : Query) (attempt : nat)
  : M (Flow (gmap string DataFrame)) :=
  try_except
    (log INFO
       "Fetching batch price data for {len(tickers)} tickers (attempt {attempt+1}/{max_retries})";;
     data ← yf_download tickers q;
     if Pd.empty data then
       log WARNING "No data returned for batch of {len(tickers)} tickers";;
       pause BATCH_DELAY;;
       mret Next
     else
       result ← lift (split_batch tickers data);
       log INFO
         "Successfully fetched batch price data for {len(result)}/{len(tickers)} tickers";;
       mret (Return result))
    (fun e =>
       if is_rate_limited e then
         log WARNING
           "Rate limited for batch request, waiting {wait_time:.2f}s before retry";;
         sleep (backoff attempt 5);;
         mret Next
       else
         log ERROR "Error fetching batch data: {e}";;
         pause BATCH_DELAY;;
         mret Next).

Definition fetch_batch_price_data
    (tickers : list string) (q : Query) (max_retries : Z)
  : M (gmap string DataFrame) :=
  match tickers with
  | [] => mret ∅
  | _ =>
      r ← attempts_loop (fetch_batch_attempt tickers q) (range_n max_retries);
      match r with
      | Some result => mret result
      | None =>
          log ERROR "Failed to fetch batch data after {max_retries} retries";;
          mret ∅
      end
  end.

(** *** fetch_data_for_tickers *)

(** Lines 344-346: fundamentals copied from the cache. *)
Definition cached_fundamentals (cached_data ticker_result : gmap string DataFrame)
  : gmap string DataFrame :=
  filter (fun kv : string * DataFrame => kv.1 ∉ ["ohlcv"; "dividends"; "splits"])
         cached_data ∪ ticker_result.

(** [batch_results[ticker] = ticker_data] under [if ticker_data:] *)
Definition keep_if_any (ticker : string) (ticker_data : gmap string DataFrame)
    (batch_results : gmap string (gmap string DataFrame))
  : gmap string (gmap string DataFrame) :=
  if dict_truthy ticker_data then <[ ticker := ticker_data ]> batch_results
  else batch_results.

(** [price_data[ticker]] when [ticker in price_data and not price_data[ticker].empty] *)
Definition usable_prices (price_data : gmap string DataFrame) (ticker : string)
  : option DataFrame :=
  match price_data !! ticker with
  | Some df => if Pd.empty df then None else Some df
  | None => None
  end.

(** Lines 322-423: one ticker of a batch after the bulk request. *)
Definition process_ticker
    (q : Query) (data_dir : option string) (max_retries : Z) (force_refresh : bool)
    (price_data : gmap string DataFrame)
    (batch_results : gmap string (gmap string DataFrame)) (ticker : string)
  : M (gmap string (gmap string DataFrame)) :=
  try_except
    (log INFO "Fetching fundamentals for {ticker}";;
     match usable_prices price_data ticker with
     | Some prices =>
         let ticker_result := price_tables prices in
         t ← now;
         store ← get_fs;
         valid ← lift (cache_check data_dir force_refresh store t ticker);
         ticker_result ←
           (if valid : bool then
              mret (cached_fundamentals
                      (load_ticker_data store ticker (default "" data_dir) None)
                      ticker_result)
            else fetch_fundamentals ticker ticker_result);
         (if truthy data_dir then
            save ticker ticker_result (default "" data_dir);;
            log INFO "Cached data for {ticker}"
          else mret tt);;
         mret (<[ ticker := ticker_result ]> batch_results)
     | None =>
         ticker_data ← fetch_with_retry ticker q data_dir max_retries force_refresh;
         mret (keep_if_any ticker ticker_data batch_results)
     end)
    (fun e =>
       (if is_rate_limited e then
          log WARNING
            "Rate limited during fundamentals fetch for {ticker}, skipping for now"
        else log ERROR "Error processing ticker {ticker}: {e}");;
       mret batch_results).

(** Lines 428-441: every ticker of the batch fetched on its own. *)
Definition fetch_individually
    (q : Query) (data_dir : option string) (max_retries : Z) (force_refresh : bool)
    (batch_results : gmap string (gmap string DataFrame)) (ticker : string)
  : M (gmap string (gmap string DataFrame)) :=
  ticker_data ← fetch_with_retry ticker q data_dir max_retries force_refresh;
  mret (keep_if_any ticker ticker_data batch_results).

(** Lines 295-441: one batch.  The check of line 299 is outside the
    [try]; nothing raises between the bulk request and the end of the
    [try], so the handler sees [batch_results] as it was before the
    batch. *)
Definition process_batch
    (q : Query) (data_dir : option string) (max_retries : Z) (force_refresh : bool)
    (batch_results : gmap string (gmap string DataFrame)) (item : nat * list string)
  : M (gmap string (gmap string DataFrame)) :=
  let '(batch_idx, batch) := item in
  log INFO "Processing batch {batch_idx+1}/{len(price_batches)}, {len(batch)} tickers";;
  t ← now;
  store ← get_fs;
  all_valid ← lift (batch_cache_check data_dir force_refresh store t batch);
  if all_valid : bool then
    log INFO "Batch {batch_idx+1} entirely in cache, loading cached data";;
    mret (foldl (fun results ticker =>
                   keep_if_any ticker
                     (load_ticker_data store ticker (default "" data_dir) None) results)
                batch_results batch)
  else
    try_except
      (price_data ← fetch_batch_price_data batch q max_retries;
       pause BATCH_DELAY;;
       for_each (process_ticker q data_dir max_retries force_refresh price_data)
                batch_results batch)
      (fun e =>
         log ERROR "Error processing batch {batch_idx+1}: {e}";;
         for_each (fetch_individually q data_dir max_retries force_refresh)
                  batch_results batch).

(** Lines 446-451: the pause between two daily chunks. *)
Definition between_days (day n_days : nat) : M unit :=
  if Z.of_nat day <? Z.of_nat n_days - 1 then
    log INFO "Day {day+1} complete. Sleeping before starting next day.";;
    pause 60
  else mret tt.

(** Lines 288-451: one daily chunk. *)
Definition process_day
    (q : Query) (data_dir : option string) (max_retries : Z) (force_refresh : bool)
    (batch_size : Z) (n_days : nat)
    (result : gmap string (gmap string DataFrame)) (item : nat * list string)
  : M (gmap string (gmap string DataFrame)) :=
  let '(day, daily_tickers) := item in
  log INFO "Processing day {day+1}/{len(daily_chunks)}, {len(daily_tickers)} tickers";;
  price_batches ← lift (chunk_list daily_tickers batch_size);
  batch_results ←
    for_each (process_batch q data_dir max_retries force_refresh)
             ∅ (enumerate price_batches);
  let result := batch_results ∪ result in
  between_days day n_days;;
  mret result.

Definition fetch_data_for_tickers
    (tickers : list string) (q : Query) (data_dir : option string)
    (max_retries : Z) (force_refresh : bool) (batch_size daily_limit : Z)
  : M (gmap string (gmap string DataFrame)) :=
  match tickers with
  | [] => log WARNING "No tickers provided";; mret ∅
  | _ =>
      (if 1000 <? Z.of_nat (length tickers) then
         log WARNING
           "Large number of tickers ({len(tickers)}). This operation might take a long time."
       else mret tt);;
      tickers ←
        (if truthy data_dir && negb force_refresh then
           t ← now;
           store ← get_fs;
           tickers ←
             lift (prioritize_tickers store t tickers (default "" data_dir) MAX_AGE_DAYS);
           log INFO "Prioritized {len(tickers)} tickers based on cache status";;
           mret tickers
         else mret tickers);
      daily_chunks ← lift (chunk_list tickers daily_limit);
      log INFO "Split {len(tickers)} tickers into {len(daily_chunks)} daily chunks";;
      result ←
        for_each (process_day q data_dir max_retries force_refresh batch_size
                              (length daily_chunks))
                 ∅ (enumerate daily_chunks);
      log INFO "Total fetched: {len(result)}/{len(tickers)} tickers";;
      mret result
  end.

(** *** fetch_data_from_date *)

(** Lines 529-538: the table of one ticker in the bulk response; [None]
    when the response has no group for it. *)
Definition ticker_slice (batch : list string) (hist_data : DataFrame) (ticker : string)
  : Result (option DataFrame) :=
  if Nat.eqb (length batch) 1 then Ok (Some hist_data)
  else
    match columns_type hist_data with
    | MultiIndex =>
        if Pd.in_level0 hist_data ticker
        then Ok (Some (Pd.sub_frame hist_data ticker))
        else Ok None
    | _ => Raise AttributeError_levels
    end.

(** Lines 556-561: write through, then record the tables. *)
Definition keep_tables (data_dir : option string) (ticker : string)
    (ticker_result : gmap string DataFrame)
    (result : gmap string (gmap string DataFrame))
  : M (gmap string (gmap string DataFrame)) :=
  (if truthy data_dir then
     save ticker ticker_result (default "" data_dir);;
     log INFO "Cached data for {ticker}"
   else mret tt);;
  mret (<[ ticker := ticker_result ]> result).

(** Lines 527-564: one ticker of a batch that was downloaded in bulk. *)
Definition store_ticker
    (data_dir : option string) (batch : list string) (hist_data : DataFrame)
    (result : gmap string (gmap string DataFrame)) (ticker : string)
  : M (gmap string (gmap string DataFrame)) :=
  try_except
    (slice ← lift (ticker_slice batch hist_data ticker);
     match slice with
     | None => log WARNING "No data returned for {ticker}";; mret result
     | Some ticker_hist =>
         if Pd.empty ticker_hist then
           log WARNING "Empty data returned for {ticker}";; mret result
         else keep_tables data_dir ticker (price_tables ticker_hist) result
     end)
    (fun e => log ERROR "Error processing ticker {ticker}: {e}";; mret result).

(** One turn of the loop at lines 575-619.  The map of results is the
    state of the loop: [Return r] leaves the loop with the ticker added,
    [Break] leaves it with the map as it was. *)
Definition date_fallback_attempt
    (ticker : string) (q : Query) (data_dir : option string)
    (result : gmap string (gmap string DataFrame)) (attempt : nat)
  : M (Flow (gmap string (gmap string DataFrame))) :=
  try_except
    (hist_data ← yf_history ticker q;
     if Pd.empty hist_data then
       log WARNING "No data returned for {ticker}";;
       mret Break
     else
       result ← keep_tables data_dir ticker (price_tables hist_data) result;
       mret (Return result))
    (fun inner_e =>
       if is_rate_limited inner_e then
         log WARNING "Rate limited for {ticker}, waiting {wait_time:.2f}s before retry";;
         sleep (backoff attempt 3);;
         mret Next
       else
         log ERROR "Error fetching data for {ticker}: {inner_e}";;
         mret Break).

(** Lines 574-622: one ticker of a batch whose bulk request was rate
    limited. *)
Definition date_fallback
    (q : Query) (data_dir : option string) (max_retries : Z)
    (result : gmap string (gmap string DataFrame)) (ticker : string)
  : M (gmap string (gmap string DataFrame)) :=
  r ← attempts_loop (date_fallback_attempt ticker q data_dir result) (range_n max_retries);
  pause REQUEST_DELAY;;
  mret (default result r).

(** Line 569:
    [RATE_LIMIT_DEFAULT_TIMEOUT * (2 ** batch_idx % 5) + random.uniform(0, 5)];
    [**] binds tighter than [%]. *)
Definition batch_fallback_wait (batch_idx : nat) : Duration :=
  mkDuration (RATE_LIMIT_DEFAULT_TIMEOUT * ((2 ^ Z.of_nat batch_idx) mod 5)) 5.

(** Lines 507-624: one batch.  Only the bulk request can raise inside the
    [try], so the handler sees [result] as it was before the batch. *)
Definition date_batch
    (q : Query) (data_dir : option string) (max_retries : Z)
    (result : gmap string (gmap string DataFrame)) (item : nat * list string)
  : M (gmap string (gmap string DataFrame)) :=
  let '(batch_idx, batch) := item in
  log INFO "Processing batch {batch_idx+1}/{len(batches)}, {len(batch)} tickers";;
  try_except
    (hist_data ← yf_download batch q;
     pause BATCH_DELAY;;
     for_each (store_ticker data_dir batch hist_data) result batch)
    (fun e =>
       if is_rate_limited e then
         log WARNING
           "Rate limited for batch request, waiting {wait_time:.2f}s before trying individual requests";;
         sleep (batch_fallback_wait batch_idx);;
         for_each (date_fallback q data_dir max_retries) result batch
       else
         log ERROR "Error processing batch {batch_idx+1}: {e}";;
         mret result).

(** Lines 501-631: one daily chunk. *)
Definition date_day
    (q : Query) (data_dir : option string) (max_retries : Z)
    (batch_size : Z) (n_days : nat)
    (result : gmap string (gmap string DataFrame)) (item : nat * list string)
  : M (gmap string (gmap string DataFrame)) :=
  let '(day, daily_tickers) := item in
  log INFO "Processing day {day+1}/{len(daily_chunks)}, {len(daily_tickers)} tickers";;
  batches ← lift (chunk_list daily_tickers batch_size);
  result ← for_each (date_batch q data_dir max_retries) result (enumerate batches);
  between_days day n_days;;
  mret result.

Definition fetch_data_from_date
    (tickers : list string) (start_date : PyDatetime) (end_date : option PyDatetime)
    (interval : string) (prepost actions : bool) (data_dir : option string)
    (max_retries batch_size daily_limit : Z)
  : M (gmap string (gmap string DataFrame)) :=
  end_date ←
    match end_date with
    | Some d => mret d
    | None => t ← now; mret (Dt t)
    end;
  let q := mkQuery (Between start_date end_date) interval prepost actions in
  log INFO "Fetching data for {len(tickers)} tickers from {start_date} to {end_date}";;
  (if 1000 <? Z.of_nat (length tickers) then
     log WARNING
       "Large number of tickers ({len(tickers)}). This operation might take a long time."
   else mret tt);;
  daily_chunks ← lift (chunk_list tickers daily_limit);
  log INFO "Split {len(tickers)} tickers into {len(daily_chunks)} daily chunks";;
  result ←
    for_each (date_day q data_dir max_retries batch_size (length daily_chunks))
             ∅ (enumerate daily_chunks);
  log INFO "Total fetched: {len(result)}/{len(tickers)} tickers";;
  mret result.

(** ** updater.py: update_ticker_data *)

Definition update_ticker_data
    (ticker data_dir : string) (end_date : option PyDatetime) (interval : string)
  : M bool :=
  log INFO "Updating data for {ticker}";;
  store ← get_fs;
  match get_latest_date store ticker data_dir "ohlcv" with
  | None =>
      log WARNING "No existing data found for {ticker}, skipping update";;
      mret false
  | Some latest_date =>
      let start_date := dt_add latest_date (timedelta_days 1) in
      t ← now;
      ahead ← lift (dt_gt start_date t);
      if ahead : bool then
        log INFO "Data for {ticker} is already up to date";;
        mret true
      else
        end_date ←
          match end_date with
          | Some d => mret d
          | None => t ← now; mret (Dt t)
          end;
        new_data ←
          fetch_data_from_date [ticker] start_date (Some end_date) interval
            false true None MAX_RETRIES BATCH_SIZE DAILY_LIMIT;
        match new_data !! ticker with
        | None =>
            log WARNING "No new data available for {ticker}";;
            mret false
        | Some new_tables =>
            store ← get_fs;
            let existing_data := load_ticker_data store ticker data_dir None in
            let merged_data := merge_data existing_data new_tables in
            success ← save ticker merged_data data_dir;
            (if success : bool then log INFO "Successfully updated data for {ticker}"
             else log ERROR "Failed to save updated data for {ticker}");;
            mret success
        end
  end.

End Fetcher.


(** ** storage.py: the remaining functions *)

(** [ticker_data] is a [dict] walked in insertion order: two tickers may
    name the same directory, so the order of the writes is kept. *)
Definition save_data_for_tickers
    (to_parquet_ok : string -> string -> DataFrame -> bool) (fs : FS)
    (ticker_data : list (string * gmap string (option DataFrame)))
    (data_dir : string) : gmap string bool * FS :=
  foldl (fun (acc : gmap string bool * FS)
             (item : string * gmap string (option DataFrame)) =>
           let '(ok, fs') :=
             save_ticker_data to_parquet_ok (snd acc) (fst item) (snd item) data_dir in
           (<[ fst item := ok ]> (fst acc), fs'))
        (∅, fs) ticker_data.

Definition load_data_for_tickers
    (fs : FS) (tickers : list string) (data_dir : string)
    (data_types : option (list string))
  : gmap string (gmap string DataFrame) :=
  foldl (fun result ticker =>
           let ticker_data := load_ticker_data fs ticker data_dir data_types in
           if dict_truthy ticker_data then <[ ticker := ticker_data ]> result
           else result)
        ∅ tickers.

Definition get_earliest_date (fs : FS) (ticker data_dir data_type : string)
  : option PyDatetime :=
  let ticker_data := load_ticker_data fs ticker data_dir (Some [data_type]) in
  match ticker_data !! data_type with
  | None => None
  | Some df =>
      match index_type df with
      | DatetimeIndex => Some (to_pydatetime (index_tz df) (Pd.index_min df))
      | _ => None
      end
  end.

(** ** loader.py: date filtering and the price history of one ticker *)

(** The bounds are [None] or datetimes of the kind the index holds, naive
    for a naive index and with a time zone for an aware one (pandas does
    not compare the two kinds); date strings, which the source first passes
    through [pd.to_datetime], are outside the model. *)
Definition filter_dataframe_by_date
    (df : DataFrame) (start_date end_date : option Z) : DataFrame :=
  match index_type df with
  | DatetimeIndex =>
      let df :=
        match start_date with
        | Some s => Pd.mask_index df (fun t => s <=? t)
        | None => df
        end in
      match end_date with
      | Some e => Pd.mask_index df (fun t => t <=? e)
      | None => df
      end
  | _ => df
  end.

(** [fields] is a list of column names or [None]; an empty list counts as
    [None]. *)
Definition load_ticker_history
    (fs : FS) (ticker data_dir : string) (start_date end_date : option Z)
    (fields : option (list string)) : option DataFrame :=
  let ticker_data := load_ticker_data fs ticker data_dir (Some ["ohlcv"]) in
  match ticker_data !! "ohlcv" with
  | None => None
  | Some df =>
      let df :=
        if bool_decide (is_Some start_date) || bool_decide (is_Some end_date)
        then filter_dataframe_by_date df start_date end_date
        else df in
      match fields with
      | Some (f :: fs') =>
          if negb (Pd.empty df) then
            let available_fields :=
              List.filter (fun c => Pd.has_column df c) (map Name (f :: fs')) in
            match available_fields with
            | [] => None
            | _ => Some (Pd.select_columns df available_fields)
            end
          else Some df
      | _ => Some df
      end
  end.

(** ** utils.py: ticker validation *)

(** Strings are sequences of one-byte characters; for text within ASCII
    this [upper] is [str.upper] and [String.length] is [len]. *)
Definition upper_char (c : ascii) : ascii :=
  let n := nat_of_ascii c in
  if (97 <=? n)%nat && (n <=? 122)%nat then ascii_of_nat (n - 32) else c.

Fixpoint upper (s : string) : string :=
  match s with
  | EmptyString => EmptyString
  | String c rest => String (upper_char c) (upper rest)
  end.

Definition valid_chars : list ascii :=
  String.list_ascii_of_string "ABCDEFGHIJKLMNOPQRSTUVWXYZ0123456789.-^".

Definition validate_ticker_symbol (ticker : string) : bool :=
  if String.eqb ticker "" || (10 <? String.length ticker)%nat then false
  else forallb (fun c => bool_decide (c ∈ valid_chars))
               (String.list_ascii_of_string (upper ticker)).

Definition validate_tickers (tickers : list string) : list string :=
  foldl (fun valid_tickers ticker =>
           if validate_ticker_symbol ticker
           then valid_tickers ++ [upper ticker]
           else valid_tickers)
        [] tickers.

(** ** updater.py: update_data_for_tickers *)

Definition update_data_for_tickers
    (env : Env) (tickers : list string) (data_dir : string)
    (end_date : option PyDatetime) (interval : string)
  : M (gmap string bool) :=
  results ←
    for_each (fun (results : gmap string bool) ticker =>
                ok ← update_ticker_data env ticker data_dir end_date interval;
                mret (<[ ticker := ok ]> results))
             ∅ tickers;
  let success_count :=
    length (List.filter (fun kv : string * bool => snd kv) (map_to_list results)) in
  log INFO "Updated data for {success_count}/{len(tickers)} tickers";;
  (if (success_count <? length tickers)%nat then
     log WARNING "Failed to update data for tickers: {', '.join(failed_tickers)}"
   else mret tt);;
  mret results.


(** * Vocabulary of the statements *)

(** ** Lists and tables *)

(** The [k]-th window of width [n] of a list. *)
Definition window {A} (items : list A) (n k : nat) : list A :=
  firstn n (skipn (k * n) items).

(** Masking out the labels that occur again later, written as one
    recursion. *)
Fixpoint keep_last (rs : list (Label * Row)) : list (Label * Row) :=
  match rs with
  | [] => []
  | r :: rest =>
      if bool_decide (fst r ∈ map fst rest) then keep_last rest
      else r :: keep_last rest
  end.

(** Rows in the order of their labels. *)
Definition rows_le (r r' : Label * Row) : Prop :=
  label_leb (fst r) (fst r') = true.

(** A day count as microseconds. *)
Definition day_us (n : Z) : Z := n * 86400000000.

(** A one-column price table with naive timestamps: one row per
    timestamp, closing at [close]. *)
Definition prices (stamps : list Z) (close : Z) : DataFrame :=
  mkDF DatetimeIndex Index [Name "Close"]
       (map (fun t => (Num t, {[ Name "Close" := close ]})) stamps) false.

(** The same with one row per day of [days]. *)
Definition closes (days : list Z) (close : Z) : DataFrame :=
  prices (map day_us days) close.

(** ** The store *)

(** A store holding one table. *)
Definition store_with (ticker_dir data_type : string) (df : DataFrame) : FS :=
  {[ ticker_dir := {[ data_type := Parquet df ]} ]}.

(** [now - timedelta(days=max_age_days)] is a datetime: the days are within
    [timedelta]'s range and the date within [datetime]'s. *)
Definition cutoff_is_datetime (now max_age_days : Z) : Prop :=
  Z.abs max_age_days <= 999999999
  /\ DATETIME_MIN <= now - timedelta_days max_age_days <= DATETIME_MAX.

(** The cutoff of the freshness check. *)
Definition cutoff_date (now max_age_days : Z) : Result Z :=
  max_age ← timedelta max_age_days; datetime_sub now max_age.

(** The three classes of [prioritize_tickers]. *)
Definition no_directory (fs : FS) (data_dir ticker : string) : bool :=
  negb (dir_exists fs (path_join data_dir ticker)).

Definition fresh (fs : FS) (now : Z) (data_dir : string) (max_age_days : Z)
    (ticker : string) : bool :=
  match is_cache_valid fs now ticker data_dir "ohlcv" max_age_days with
  | Ok valid => valid
  | Raise _ => false
  end.

Definition stale (fs : FS) (now : Z) (data_dir : string) (max_age_days : Z)
    (ticker : string) : bool :=
  dir_exists fs (path_join data_dir ticker)
  && match is_cache_valid fs now ticker data_dir "ohlcv" max_age_days with
     | Ok valid => negb valid
     | Raise _ => false
     end.

(** The freshness check gives an answer for every symbol of [tickers] that
    has a store directory. *)
Definition freshness_answers (fs : FS) (now : Z) (data_dir : string) (max_age_days : Z)
    (tickers : list string) : Prop :=
  forall ticker,
    ticker ∈ tickers -> dir_exists fs (path_join data_dir ticker) = true ->
    exists valid, is_cache_valid fs now ticker data_dir "ohlcv" max_age_days = Ok valid.

(** A store with a fresh table for [F], stale ones for [S1] and [S2], and
    nothing for [U1], [U2], [U3]; the clock stands at day 10. *)
Definition example_store : FS :=
  {[ "data/F" := {[ "ohlcv" := Parquet (closes [8; 9; 10] 100) ]};
     "data/S1" := {[ "ohlcv" := Parquet (closes [1; 2; 3] 100) ]};
     "data/S2" := {[ "info" := Parquet (Pd.from_record [(Name "sector", 7)]) ]} ]}.

(** A table of [items] that [save_ticker_data] hands to [to_parquet]. *)
Definition saved (items : list (string * option DataFrame))
    (data_type : string) (df : DataFrame) : Prop :=
  (data_type, Some df) ∈ items /\ Pd.empty df = false.

(** No table of the store is empty. *)
Definition no_empty_table (fs : FS) : Prop :=
  forall dir data_type df,
    read_file fs dir data_type = Some (Parquet df) -> Pd.empty df = false.

(** A fetch result with an empty dividends table and no splits table,
    and a store that already holds dividends. *)
Definition partial_result : gmap string (option DataFrame) :=
  {[ "ohlcv" := Some (closes [4; 5] 200);
     "dividends" := Some (prices [] 0);
     "splits" := None ]}.

Definition stored_before : FS :=
  {[ "data/AAPL" := {[ "ohlcv" := Parquet (closes [1; 2; 3] 100);
                       "dividends" := Parquet (closes [2] 1) ]} ]}.

(** ** Runs of the fetcher *)

(** The requests and the sleeps of a trace, in order. *)
Definition calls_of (tr : list Event) : list Request :=
  omap (fun ev => match ev with Called r => Some r | _ => None end) tr.

Definition sleeps_of (tr : list Event) : list Duration :=
  omap (fun ev => match ev with Slept d => Some d | _ => None end) tr.

(** The tickers whose history was requested, in order. *)
Definition history_calls (tr : list Event) : list string :=
  omap (fun ev => match ev with Called (History t _) => Some t | _ => None end) tr.

(** [m] started in [w] ends without raising, with value [a], the store
    unchanged and the events [tr] added to the trace. *)
Definition runs {A} (m : M A) (w : World) (a : A) (tr : list Event) : Prop :=
  m w = (Ok a, mkWorld (fs w) (trace w ++ tr)).

(** [m] runs as in [runs], requesting the history of [ts] on the way. *)
Definition attempts {A} (m : M A) (w : World) (a : A) (ts : list string) : Prop :=
  exists tr, runs m w a tr /\ history_calls tr = ts.

(** [m] ends without raising, whatever the world it starts in. *)
Definition never_raises {A} (m : M A) : Prop :=
  forall w, exists a w', m w = (Ok a, w').

(** [m] leaves a store without empty tables without empty tables. *)
Definition keeps_clean {A} (m : M A) : Prop :=
  forall w, no_empty_table (fs w) -> no_empty_table (fs (snd (m w))).

(** The provider answers every history request, resp. every bulk request,
    with the rate-limit signal. *)
Definition history_rate_limited (env : Env) : Prop :=
  forall n ticker q, exists e,
    history (remote env) n ticker q = Raise e /\ is_rate_limited e = true.

Definition download_rate_limited (env : Env) : Prop :=
  forall n tickers q, exists e,
    download (remote env) n tickers q = Raise e /\ is_rate_limited e = true.

(** The cache does not answer for [ticker] on [store], whatever the time. *)
Definition cache_unused (env : Env) (data_dir : option string) (force_refresh : bool)
    (store : FS) (ticker : string) : Prop :=
  forall n, cache_check data_dir force_refresh store (clock env n) ticker = Ok false.

(** The freshness check of [ticker] on [store], when it is made at all,
    gives an answer, whatever the time. *)
Definition cache_answers (env : Env) (data_dir : option string) (force_refresh : bool)
    (store : FS) (ticker : string) : Prop :=
  forall n, exists valid,
    cache_check data_dir force_refresh store (clock env n) ticker = Ok valid.

(** What one rate-limited attempt of [fetch_with_retry] leaves in the trace. *)
Definition retry_events (ticker : string) (q : Query) (attempt : nat) : list Event :=
  [ Logged INFO "Fetching data for {ticker} (attempt {attempt+1}/{max_retries})";
    Called (History ticker q);
    Logged WARNING "Rate limited for {ticker}, waiting {wait_time:.2f}s before retry";
    Slept (backoff attempt 3) ].

(** What one rate-limited attempt of [fetch_batch_price_data] leaves in the
    trace. *)
Definition batch_events (q : Query) (tickers : list string) (attempt : nat) : list Event :=
  [ Logged INFO
      "Fetching batch price data for {len(tickers)} tickers (attempt {attempt+1}/{max_retries})";
    Called (Download tickers q);
    Logged WARNING
      "Rate limited for batch request, waiting {wait_time:.2f}s before retry";
    Slept (backoff attempt 5) ].

(** The order in which a run without fresh cache takes the tickers. *)
Definition run_order (env : Env) (data_dir : option string) (force_refresh : bool)
    (store : FS) (tickers : list string) : list string :=
  if truthy data_dir && negb force_refresh
  then List.filter (no_directory store (default "" data_dir)) tickers
       ++ List.filter (stale store (clock env 0) (default "" data_dir) MAX_AGE_DAYS) tickers
  else tickers.

(** ** Providers used in the examples *)

Definition too_many_requests : Exception :=
  mkExc "YFRateLimitError" "Too Many Requests. Rate limited. Try after a while.".

Definition connection_reset : Exception :=
  mkExc "ConnectionError" "Connection reset by peer".

(** Every request is rate limited. *)
Definition rate_limiting_remote : Remote :=
  mkRemote (fun _ _ _ => Raise too_many_requests)
           (fun _ _ _ => Raise too_many_requests)
           (fun _ _ => Raise too_many_requests)
           (fun _ _ _ => Raise too_many_requests).

(** The bulk request is rate limited, every other request fails for
    another reason. *)
Definition flaky_remote : Remote :=
  mkRemote (fun _ _ _ => Raise connection_reset)
           (fun _ _ _ => Raise too_many_requests)
           (fun _ _ => Raise connection_reset)
           (fun _ _ _ => Raise connection_reset).

(** No request gets through. *)
Definition unreachable_remote : Remote :=
  mkRemote (fun _ _ _ => Raise connection_reset)
           (fun _ _ _ => Raise connection_reset)
           (fun _ _ => Raise connection_reset)
           (fun _ _ _ => Raise connection_reset).

(** The bulk request answers with days 4 to 8, whatever range was asked. *)
Definition overlapping_remote : Remote :=
  mkRemote (fun _ _ _ => Raise connection_reset)
           (fun _ _ _ => Ok (closes [4; 5; 6; 7; 8] 200))
           (fun _ _ => Raise connection_reset)
           (fun _ _ _ => Raise connection_reset).

(** The clock stands at day 10 and the disk takes every write. *)
Definition rate_limiting_env : Env :=
  mkEnv rate_limiting_remote (fun _ => day_us 10) (fun _ _ _ => true).

Definition flaky_env : Env :=
  mkEnv flaky_remote (fun _ => day_us 10) (fun _ _ _ => true).

Definition unreachable_env : Env :=
  mkEnv unreachable_remote (fun _ => day_us 10) (fun _ _ _ => true).

Definition overlapping_env : Env :=
  mkEnv overlapping_remote (fun _ => day_us 10) (fun _ _ _ => true).

Definition empty_world : World := mkWorld ∅ [].

Definition max_daily : Query := mkQuery (Period "max") "1d" false true.


(** ** Vocabulary of the further properties *)

(** A timestamp within optional inclusive bounds. *)
Definition within (start_date end_date : option Z) (t : Z) : Prop :=
  (forall s, start_date = Some s -> s <= t) /\ (forall e, end_date = Some e -> t <= e).

(** Text made of ASCII characters only. *)
Definition ascii_only (s : string) : bool :=
  forallb (fun c => (nat_of_ascii c <? 128)%nat) (String.list_ascii_of_string s).

(** The rows of [sub] are rows of [df], in the same order. *)
Definition rows_of (sub df : DataFrame) : Prop := sublist (rows sub) (rows df).

(** [m] never changes the store. *)
Definition keeps_store {A} (m : M A) : Prop :=
  forall w, fs (snd (m w)) = fs w.

(** Whenever [m] returns, the value it returns satisfies [P]. *)
Definition returns {A} (m : M A) (P : A -> Prop) : Prop :=
  forall w a w', m w = (Ok a, w') -> P a.

(** [m] returns whatever the world it starts in, and the value it returns
    satisfies [P]. *)
Definition always_returns {A} (m : M A) (P : A -> Prop) : Prop :=
  forall w, exists a w', m w = (Ok a, w') /\ P a.

(** [m] started in [w] returns [a] without raising, without changing the
    store and without any request to the provider. *)
Definition quiet {A} (m : M A) (w : World) (a : A) : Prop :=
  exists tr, runs m w a tr /\ calls_of tr = [].

(** [m] started in [w] is quiet and what it returns satisfies [P]. *)
Definition quietly {A} (m : M A) (w : World) (P : A -> Prop) : Prop :=
  exists a, quiet m w a /\ P a.

(** The tables stored for [ticker], and a result with them filed under
    the ticker. *)
Definition stored_tables (store : FS) (data_dir : option string) (ticker : string)
  : gmap string DataFrame :=
  load_ticker_data store ticker (default "" data_dir) None.

Definition take_stored (store : FS) (data_dir : option string)
    (result : gmap string (gmap string DataFrame)) (ticker : string)
  : gmap string (gmap string DataFrame) :=
  <[ ticker := stored_tables store data_dir ticker ]> result.

(** The tickers of [tickers] have a valid cache in [store] whatever the
    clock shows during the run. *)
Definition all_cached_in (env : Env) (data_dir : option string) (store : FS)
    (tickers : list string) : Prop :=
  forall n ticker, ticker ∈ tickers ->
    is_cache_valid store (clock env n) ticker (default "" data_dir) "ohlcv" MAX_AGE_DAYS
    = Ok true.

(** When [fetch_data_for_tickers] prioritises its list, the freshness
    check answers for every ticker of the list that has a directory,
    whatever the time. *)
Definition prioritisation_answers (env : Env) (data_dir : option string)
    (force_refresh : bool) (store : FS) (tickers : list string) : Prop :=
  truthy data_dir && negb force_refresh = true ->
  forall n, freshness_answers store (clock env n) (default "" data_dir) MAX_AGE_DAYS
                              tickers.




(** Every stored table is still stored in [fs'], with at least the index
    labels it had. *)
Definition keeps_rows (fs fs' : FS) : Prop :=
  forall dir data_type df,
    read_file fs dir data_type = Some (Parquet df) ->
    exists df',
      read_file fs' dir data_type = Some (Parquet df')
      /\ (forall l, l ∈ Pd.index df -> l ∈ Pd.index df').






(** A result that, unless it is empty, has a price table. *)
Definition priced_if_any (tables : gmap string DataFrame) : Prop :=
  dict_truthy tables = true -> is_Some (tables !! "ohlcv").

(** The provider answers every history request with a table without rows
    or columns. *)
Definition history_empty (env : Env) : Prop :=
  forall n ticker q, exists df,
    history (remote env) n ticker q = Ok df /\ Pd.empty df = true.

(** What one attempt of [fetch_with_retry] that got an empty table leaves
    in the trace. *)
Definition empty_events (ticker : string) (q : Query) (attempt : nat) : list Event :=
  [ Logged INFO "Fetching data for {ticker} (attempt {attempt+1}/{max_retries})";
    Called (History ticker q);
    Logged WARNING "No data returned for {ticker}";
    Slept (mkDuration REQUEST_DELAY 0) ].

(** A provider that answers every request with an empty table. *)
Definition silent_remote : Remote :=
  mkRemote (fun _ _ _ => Ok (prices [] 0))
           (fun _ _ _ => Ok (prices [] 0))
           (fun _ _ => Ok [])
           (fun _ _ _ => Ok (prices [] 0)).

Definition silent_env : Env :=
  mkEnv silent_remote (fun _ => day_us 10) (fun _ _ _ => true).

(** A world whose store holds days 8 to 10 for [AAPL]. *)
Definition cached_world : World :=
  mkWorld (store_with "data/AAPL" "ohlcv" (closes [8; 9; 10] 100)) [].

(** A price table whose timestamps carry a time zone. *)
Definition zoned_closes (days : list Z) (close : Z) : DataFrame :=
  mkDF DatetimeIndex Index [Name "Close"]
       (map (fun t => (Num t, {[ Name "Close" := close ]})) (map day_us days)) true.

Definition zoned_world : World :=
  mkWorld (store_with "data/AAPL" "ohlcv" (zoned_closes [8; 9; 10] 100)) [].


(** * Properties *)

(** ** chunk_list *)

Section Chunks.

Context {A : Type}.
Implicit Types (items : list A) (k m n : nat).

Lemma concat_windows items n m :
  concat (map (window items n) (seq 0 m)) = firstn (m * n) items.
Proof.
  induction m as [|m IH].
  - reflexivity.
  - rewrite seq_S, map_app, concat_app, IH. simpl.
    rewrite app_nil_r. unfold window.
    rewrite <- (firstn_skipn (m * n) items) at 3.
    rewrite firstn_app, length_firstn.
    destruct (Nat.le_gt_cases (m * n) (length items)) as [Hle|Hgt].
    + rewrite Nat.min_l by exact Hle.
      replace (n + m * n - m * n)%nat with n by lia.
      rewrite firstn_firstn. f_equal. f_equal. lia.
    + rewrite Nat.min_r by lia.
      rewrite (skipn_all2 items) by lia.
      rewrite !firstn_nil, !app_nil_r, firstn_firstn. f_equal. lia.
Qed.

Lemma length_window items n k :
  length (window items n k) = Nat.min n (length items - k * n).
Proof. unfold window. now rewrite length_firstn, length_skipn. Qed.

(** A slice that starts inside the list is a window. *)
Lemma slice_window items (s : Z) k :
  0 < s -> (k * Z.to_nat s <= length items)%nat ->
  Py.slice items (Z.of_nat k * s) (Z.of_nat k * s + s) = window items (Z.to_nat s) k.
Proof.
  intros Hs Hk. unfold Py.slice, Py.clamp, window.
  assert (Hk' : Z.of_nat k * s <= Z.of_nat (length items)) by nia.
  destruct (Z.ltb_spec (Z.of_nat k * s) 0); [nia|].
  destruct (Z.ltb_spec (Z.of_nat k * s + s) 0); [nia|].
  rewrite (Z.min_l _ _ Hk').
  replace (Z.to_nat (Z.of_nat k * s)) with (k * Z.to_nat s)%nat by nia.
  set (rest := skipn (k * Z.to_nat s) items).
  assert (Hrest : length rest = (length items - k * Z.to_nat s)%nat)
    by (unfold rest; now rewrite length_skipn).
  destruct (Z.le_gt_cases (Z.of_nat k * s + s) (Z.of_nat (length items))) as [H1|H1].
  - rewrite Z.min_l by exact H1. f_equal. lia.
  - rewrite Z.min_r by lia.
    rewrite (firstn_all2 (n := Z.to_nat s)) by lia.
    apply firstn_all2. lia.
Qed.

(** The number of chunks. *)
Lemma range_len_chunks (len s : Z) :
  0 < s -> 0 <= len ->
  Py.range_len 0 len s = (len + s - 1) / s.
Proof.
  intros Hs Hlen. unfold Py.range_len.
  destruct (Z.ltb_spec 0 s); [|lia]. simpl.
  destruct (Z.ltb_spec 0 len).
  - replace (len + s - 1) with (len - 1 - 0 + 1 * s) by lia.
    rewrite Z.div_add by lia. lia.
  - replace len with 0 by lia.
    rewrite andb_false_r. symmetry. apply Z.div_small. lia.
Qed.

Lemma chunk_list_windows items (s : Z) :
  0 < s ->
  chunk_list items s =
    Ok (map (window items (Z.to_nat s))
            (seq 0 (Z.to_nat ((Z.of_nat (length items) + s - 1) / s)))).
Proof.
  intros Hs. unfold chunk_list, Py.range.
  destruct (Z.eqb_spec s 0) as [Hz|Hnz]; [lia|].
  rewrite range_len_chunks by lia.
  f_equal. rewrite map_map. apply map_ext_in.
  intros k Hk. apply in_seq in Hk. simpl.
  apply slice_window; [exact Hs|].
  set (len := Z.of_nat (length items)) in *.
  assert (Hdiv : s * ((len + s - 1) / s) <= len + s - 1)
    by (apply Z.mul_div_le; lia).
  assert (0 <= (len + s - 1) / s) by (apply Z.div_pos; lia).
  nia.
Qed.

(** For a positive size the chunks exist, rebuild the list and are all
    non-empty. *)
Lemma chunk_list_ok items (s : Z) :
  0 < s ->
  exists chunks,
    chunk_list items s = Ok chunks
    /\ concat chunks = items
    /\ Forall (fun c => c <> []) chunks.
Proof.
  intros Hs. rewrite chunk_list_windows by exact Hs.
  set (len := Z.of_nat (length items)).
  assert (Hq : 0 <= (len + s - 1) / s) by (apply Z.div_pos; lia).
  assert (Hlo : s * ((len + s - 1) / s) <= len + s - 1) by (apply Z.mul_div_le; lia).
  assert (Hhi : len + s - 1 < s * ((len + s - 1) / s) + s).
  { pose proof (Z.mod_pos_bound (len + s - 1) s Hs) as Hm.
    pose proof (Z.div_mod (len + s - 1) s ltac:(lia)) as Hd. lia. }
  eexists. split; [reflexivity|]. split.
  - rewrite concat_windows. apply firstn_all2. subst len. nia.
  - apply Forall_forall. intros c Hc.
    apply list_elem_of_In, in_map_iff in Hc as (k & <- & Hk).
    apply in_seq in Hk. intros Hnil. apply (f_equal length) in Hnil.
    rewrite length_window in Hnil. simpl in Hnil. subst len. nia.
Qed.

End Chunks.

(** C6.  For a positive chunk size [chunk_list] returns chunks whose
    concatenation is the list itself; every chunk but the last holds
    exactly [chunk_size] items, the last one between 1 and [chunk_size],
    and a non-empty list gives at least one chunk. *)
Theorem chunk_list_partitions {A} (items : list A) (chunk_size : Z) :
  0 < chunk_size ->
  exists chunks,
    chunk_list items chunk_size = Ok chunks
    /\ concat chunks = items
    /\ (forall i c, chunks !! i = Some c -> (S i < length chunks)%nat ->
                    Z.of_nat (length c) = chunk_size)
    /\ (forall c, last chunks = Some c -> 1 <= Z.of_nat (length c) <= chunk_size)
    /\ (items <> [] -> chunks <> []).
Proof.
  intros Hs. rewrite chunk_list_windows by exact Hs.
  set (len := Z.of_nat (length items)).
  set (cnt := Z.to_nat ((len + chunk_size - 1) / chunk_size)).
  set (n := Z.to_nat chunk_size).
  assert (Hq : 0 <= (len + chunk_size - 1) / chunk_size) by (apply Z.div_pos; lia).
  assert (Hlo : chunk_size * ((len + chunk_size - 1) / chunk_size) <= len + chunk_size - 1)
    by (apply Z.mul_div_le; lia).
  assert (Hhi : len + chunk_size - 1
                < chunk_size * ((len + chunk_size - 1) / chunk_size) + chunk_size).
  { pose proof (Z.mod_pos_bound (len + chunk_size - 1) chunk_size Hs) as Hm.
    pose proof (Z.div_mod (len + chunk_size - 1) chunk_size ltac:(lia)) as Hd. lia. }
  assert (Hlookup : forall i c,
             map (window items n) (seq 0 cnt) !! i = Some c ->
             c = window items n i /\ (i < cnt)%nat).
  { intros i c Hi. rewrite list_lookup_fmap in Hi.
    destruct (seq 0 cnt !! i) as [k|] eqn:Hk; [|discriminate].
    apply lookup_seq in Hk as [-> Hlt]. simpl in Hi. now inversion Hi. }
  eexists. split; [reflexivity|]. split; [|split; [|split]].
  - rewrite concat_windows. apply firstn_all2. subst cnt n len. nia.
  - intros i c Hi Hnext. apply Hlookup in Hi as [-> _].
    rewrite length_map, length_seq in Hnext.
    rewrite length_window. subst cnt n len. nia.
  - intros c Hlast.
    rewrite last_lookup, length_map, length_seq in Hlast.
    apply Hlookup in Hlast as [-> Hlt]. rewrite length_window. subst cnt n len. nia.
  - intros Hne Hnil. apply (f_equal length) in Hnil.
    rewrite length_map, length_seq in Hnil. simpl in Hnil.
    destruct items as [|x items']; [congruence|].
    subst cnt len. simpl length in *. nia.
Qed.

Lemma chunk_list_partitions_witness :
  exists chunks,
    chunk_list ["AAPL"; "MSFT"; "GOOG"; "AMZN"; "META"]%string 2 = Ok chunks
    /\ concat chunks = ["AAPL"; "MSFT"; "GOOG"; "AMZN"; "META"]%string
    /\ (forall i c, chunks !! i = Some c -> (S i < length chunks)%nat ->
                    Z.of_nat (length c) = 2)
    /\ (forall c, last chunks = Some c -> 1 <= Z.of_nat (length c) <= 2)
    /\ (["AAPL"; "MSFT"; "GOOG"; "AMZN"; "META"]%string <> [] -> chunks <> []).
Proof. apply (chunk_list_partitions _ 2). lia. Defined.

(** C8 as stated fails: a negative chunk size gives no error. *)
Lemma chunk_list_negative_size_no_error :
  -1 <= 0
  /\ chunk_list ["AAPL"; "MSFT"; "GOOG"]%string (-1) = Ok []
  /\ ~ (exists e, chunk_list ["AAPL"; "MSFT"; "GOOG"]%string (-1) = Raise e).
Proof.
  split; [lia|]. split; [reflexivity|]. intros [e He]. discriminate He.
Qed.

(** C8, amended.  A chunk size of zero raises [ValueError] (from [range]);
    a negative chunk size raises nothing and yields no chunk at all. *)
Theorem chunk_list_nonpositive_size {A} (items : list A) (chunk_size : Z) :
  chunk_size <= 0 ->
  chunk_list items chunk_size =
    if chunk_size =? 0 then Raise ValueError_range_step else Ok [].
Proof.
  intros Hs. unfold chunk_list, Py.range, Py.range_len.
  destruct (Z.eqb_spec chunk_size 0) as [->|Hnz]; [reflexivity|].
  destruct (Z.ltb_spec 0 chunk_size); [lia|]. simpl.
  destruct (Z.ltb_spec chunk_size 0); [|lia]. simpl.
  destruct (Z.ltb_spec (Z.of_nat (length items)) 0); [lia|]. reflexivity.
Qed.

Lemma chunk_list_nonpositive_size_witness :
  chunk_list ["AAPL"; "MSFT"]%string 0 = Raise ValueError_range_step
  /\ chunk_list ["AAPL"; "MSFT"]%string (-3) = Ok [].
Proof.
  split.
  - apply (chunk_list_nonpositive_size ["AAPL"; "MSFT"]%string 0). lia.
  - apply (chunk_list_nonpositive_size ["AAPL"; "MSFT"]%string (-3)). lia.
Defined.


(** ** The merge: concatenate, keep last, sort *)

Lemma filter_none {A} (f : A -> bool) (l : list A) :
  (forall x, In x l -> f x = false) -> List.filter f l = [].
Proof.
  induction l as [|x l IH]; simpl; intros H; [reflexivity|].
  rewrite (H x) by now left. apply IH. intros y Hy. apply H. now right.
Qed.

Section MergeFacts.

Implicit Types (r : Label * Row) (rs : list (Label * Row)) (k : Label).

Lemma select_not_duplicated rs :
  Pd.select rs (map negb (Pd.duplicated_last (map fst rs))) = keep_last rs.
Proof.
  induction rs as [|r rest IH]; simpl; [reflexivity|].
  rewrite IH. now destruct (bool_decide (fst r ∈ map fst rest)).
Qed.


Lemma keep_last_keys rs k : k ∈ map fst (keep_last rs) <-> k ∈ map fst rs.
Proof.
  induction rs as [|r rest IH]; simpl; [reflexivity|].
  case_bool_decide as Hin; simpl; rewrite ?elem_of_cons, IH.
  - split; [tauto|]. intros [->|]; [exact Hin|assumption].
  - reflexivity.
Qed.


Lemma keep_last_id rs : NoDup (map fst rs) -> keep_last rs = rs.
Proof.
  induction rs as [|r rest IH]; simpl; [reflexivity|].
  intros Hnd. apply NoDup_cons in Hnd as [Hnotin Hnd].
  rewrite bool_decide_eq_false_2 by exact Hnotin. now rewrite IH.
Qed.

(** Rows of the first table survive only under labels absent from the
    second; the second table is treated on its own. *)
Lemma keep_last_app a b :
  keep_last (a ++ b) =
    List.filter (fun r => negb (bool_decide (fst r ∈ map fst b))) (keep_last a)
    ++ keep_last b.
Proof.
  induction a as [|r a IH]; simpl; [reflexivity|].
  rewrite map_app, IH.
  destruct (decide (fst r ∈ map fst a)) as [Ha|Ha].
  - rewrite !bool_decide_eq_true_2; [reflexivity|exact Ha|].
    apply elem_of_app. now left.
  - rewrite (bool_decide_eq_false_2 (fst r ∈ map fst a)) by exact Ha. simpl.
    destruct (decide (fst r ∈ map fst b)) as [Hb|Hb].
    + rewrite bool_decide_eq_true_2 by (apply elem_of_app; now right).
      now rewrite (bool_decide_eq_true_2 _ Hb).
    + rewrite bool_decide_eq_false_2
        by (rewrite elem_of_app; tauto).
      now rewrite (bool_decide_eq_false_2 _ Hb).
Qed.



(** *** Sorting *)


Lemma insert_row_perm r rs : Permutation (Pd.insert_row r rs) (r :: rs).
Proof.
  induction rs as [|r' rs IH]; simpl; [reflexivity|].
  destruct (label_leb (fst r) (fst r')); [reflexivity|].
  rewrite IH. apply perm_swap.
Qed.

Lemma sort_rows_perm rs : Permutation (Pd.sort_rows rs) rs.
Proof.
  induction rs as [|r rs IH]; simpl; [reflexivity|].
  rewrite insert_row_perm. now constructor.
Qed.



(** Rows already in order are left as they are. *)
Lemma sort_rows_id rs : Sorted rows_le rs -> Pd.sort_rows rs = rs.
Proof.
  induction rs as [|r rs IH]; simpl; [reflexivity|].
  intros Hs. apply Sorted_inv in Hs as [Hs Hhd].
  rewrite IH by exact Hs.
  destruct Hhd as [|r' rs' Hle]; simpl; [reflexivity|].
  unfold rows_le in Hle. now rewrite Hle.
Qed.

(** *** The merged rows *)

Lemma merge_frames_rows e n :
  rows (merge_frames e n) = Pd.sort_rows (keep_last (rows e ++ rows n)).
Proof.
  unfold merge_frames, Pd.sort_index, Pd.drop_duplicated_last, Pd.index. simpl.
  now rewrite select_not_duplicated.
Qed.

Lemma merge_frames_perm e n :
  Permutation (rows (merge_frames e n)) (keep_last (rows e ++ rows n)).
Proof. rewrite merge_frames_rows. apply sort_rows_perm. Qed.


Lemma merge_frames_index_perm e n :
  Permutation (Pd.index (merge_frames e n)) (map fst (keep_last (rows e ++ rows n))).
Proof. unfold Pd.index. apply Permutation_map, merge_frames_perm. Qed.



End MergeFacts.




(** The same merge, evaluated: days 1..8 once each, days 4 and 5 with the
    fetched close. *)
Example merge_days_1_5_with_4_8 :
  map (fun r : Label * Row => (fst r, snd r !! Name "Close"))
      (rows (merge_frames (closes [1; 2; 3; 4; 5] 100) (closes [4; 5; 6; 7; 8] 200)))
  = [ (Num (day_us 1), Some 100); (Num (day_us 2), Some 100);
      (Num (day_us 3), Some 100); (Num (day_us 4), Some 200);
      (Num (day_us 5), Some 200); (Num (day_us 6), Some 200);
      (Num (day_us 7), Some 200); (Num (day_us 8), Some 200) ].
Proof. vm_compute. reflexivity. Qed.

(** C7.  Merging a table whose index has no repeated label with itself
    gives a table with the same number of rows, the same rows (each once),
    the same columns and axis classes, and an index without repetition;
    when the index was ascending, as stored tables are, the result is the
    table itself. *)
Theorem merge_with_itself (df : DataFrame) :
  NoDup (Pd.index df) ->
  let merged := merge_frames df df in
  length (rows merged) = length (rows df)
  /\ Permutation (rows merged) (rows df)
  /\ columns merged = columns df
  /\ index_type merged = index_type df
  /\ columns_type merged = columns_type df
  /\ NoDup (Pd.index merged)
  /\ (Sorted (fun a b => label_leb a b = true) (Pd.index df) -> merged = df).
Proof.
  intros Hnd merged.
  assert (Hkeep : keep_last (rows df ++ rows df) = rows df).
  { rewrite keep_last_app, (keep_last_id _ Hnd).
    rewrite filter_none; [reflexivity|].
    intros r Hr. apply negb_false_iff, bool_decide_eq_true_2.
    apply list_elem_of_fmap. exists r. split; [reflexivity|].
    now apply list_elem_of_In. }
  assert (Hperm : Permutation (rows merged) (rows df)).
  { subst merged. rewrite merge_frames_perm, Hkeep. reflexivity. }
  assert (Hcols : columns merged = columns df).
  { subst merged. simpl.
    rewrite filter_none; [apply app_nil_r|].
    intros c Hc. apply negb_false_iff, bool_decide_eq_true_2.
    now apply list_elem_of_In. }
  assert (Hit : index_type merged = index_type df).
  { subst merged. simpl. unfold Pd.join_type. now rewrite decide_True. }
  assert (Hct : columns_type merged = columns_type df).
  { subst merged. simpl. unfold Pd.join_type. now rewrite decide_True. }
  split; [|split; [|split; [|split; [|split; [|split]]]]]; try assumption.
  - now apply Permutation_length.
  - unfold Pd.index. now rewrite Hperm.
  - intros Hs.
    assert (Hrows : rows merged = rows df).
    { subst merged. rewrite merge_frames_rows, Hkeep. apply sort_rows_id.
      clear -Hs. unfold Pd.index in Hs.
      induction (rows df) as [|r rs IH]; [constructor|].
      simpl in Hs. apply Sorted_inv in Hs as [Hs Hhd].
      constructor; [now apply IH|].
      destruct rs; simpl in *; constructor. now inversion Hhd. }
    assert (Htz : index_tz merged = index_tz df).
    { subst merged. simpl. apply andb_diag. }
    destruct merged, df. simpl in *. congruence.
Qed.

Lemma merge_with_itself_witness :
  let df := closes [1; 2; 3] 100 in
  let merged := merge_frames df df in
  length (rows merged) = length (rows df)
  /\ Permutation (rows merged) (rows df)
  /\ columns merged = columns df
  /\ index_type merged = index_type df
  /\ columns_type merged = columns_type df
  /\ NoDup (Pd.index merged)
  /\ (Sorted (fun a b => label_leb a b = true) (Pd.index df) -> merged = df).
Proof.
  apply (merge_with_itself (closes [1; 2; 3] 100)).
  apply (bool_decide_unpack _). vm_compute. exact I.
Defined.


(** ** Cache freshness *)

Section Freshness.

(** [index_max] is the greatest timestamp of the index, if there is one. *)
Lemma index_max_cases (df : DataFrame) :
  match Pd.index_max df with
  | Some m => Num m ∈ Pd.index df /\ (forall t, Num t ∈ Pd.index df -> t <= m)
  | None => forall t, Num t ∉ Pd.index df
  end.
Proof.
  unfold Pd.index_max.
  induction (Pd.index df) as [|l idx IH]; simpl.
  - intros t Ht. now apply elem_of_nil in Ht.
  - destruct (foldr _ None idx) as [m'|]; destruct l as [t|s|a b].
    + destruct IH as [Hin Hub]. split.
      * destruct (Z.max_spec t m') as [[_ ->]|[_ ->]];
          apply elem_of_cons; [now right|now left].
      * intros t' [Heq|Ht']%elem_of_cons; [inversion Heq; lia|].
        specialize (Hub _ Ht'). lia.
    + destruct IH as [Hin Hub]. split; [apply elem_of_cons; now right|].
      intros t' [Heq|Ht']%elem_of_cons; [discriminate|auto].
    + destruct IH as [Hin Hub]. split; [apply elem_of_cons; now right|].
      intros t' [Heq|Ht']%elem_of_cons; [discriminate|auto].
    + split; [apply elem_of_cons; now left|].
      intros t' [Heq|Ht']%elem_of_cons; [inversion Heq; lia|]. now apply IH in Ht'.
    + intros t' [Heq|Ht']%elem_of_cons; [discriminate|]. now apply IH in Ht'.
    + intros t' [Heq|Ht']%elem_of_cons; [discriminate|]. now apply IH in Ht'.
Qed.

Lemma index_max_spec (df : DataFrame) (m : Z) :
  Pd.index_max df = Some m <->
  Num m ∈ Pd.index df /\ (forall t, Num t ∈ Pd.index df -> t <= m).
Proof.
  pose proof (index_max_cases df) as Hc.
  destruct (Pd.index_max df) as [m'|].
  - destruct Hc as [Hin Hub]. split.
    + intros [= <-]. auto.
    + intros [Hin' Hub']. f_equal.
      specialize (Hub _ Hin'). specialize (Hub' _ Hin). lia.
  - split; [discriminate|]. intros [Hin _]. now apply Hc in Hin.
Qed.

Lemma load_one (fs : FS) (ticker data_dir data_type : string) :
  load_ticker_data fs ticker data_dir (Some [data_type]) !! data_type =
    load_dataframe_from_parquet fs (path_join data_dir ticker) data_type.
Proof.
  unfold load_ticker_data, load_dataframe_from_parquet, read_file.
  destruct (fs !! path_join data_dir ticker) as [d|] eqn:Hd; simpl.
  - destruct (d !! data_type) as [[df|]|]; simpl;
      rewrite ?lookup_insert_eq, ?lookup_empty; reflexivity.
  - apply lookup_empty.
Qed.

(** What [get_latest_date] returns, case by case. *)
Lemma get_latest_date_spec (fs : FS) (ticker data_dir data_type : string) :
  get_latest_date fs ticker data_dir data_type =
    match read_file fs (path_join data_dir ticker) data_type with
    | Some (Parquet df) =>
        match index_type df with
        | DatetimeIndex => Some (to_pydatetime (index_tz df) (Pd.index_max df))
        | _ => None
        end
    | _ => None
    end.
Proof.
  unfold get_latest_date. rewrite load_one. unfold load_dataframe_from_parquet.
  destruct (read_file _ _ _) as [[df|]|]; reflexivity.
Qed.

Lemma cutoff_date_ok (now max_age_days : Z) :
  cutoff_is_datetime now max_age_days ->
  cutoff_date now max_age_days = Ok (now - timedelta_days max_age_days).
Proof.
  intros [Hdays Hdate]. unfold cutoff_date, timedelta, datetime_sub.
  destruct (Z.ltb_spec 999999999 (Z.abs max_age_days)) as [|_]; [lia|]. simpl.
  destruct (Z.ltb_spec (now - timedelta_days max_age_days) DATETIME_MIN) as [|_]; [lia|].
  destruct (Z.ltb_spec DATETIME_MAX (now - timedelta_days max_age_days)) as [|_]; [lia|].
  reflexivity.
Qed.

Lemma cutoff_date_overflow (now max_age_days : Z) :
  ~ cutoff_is_datetime now max_age_days ->
  exists e, cutoff_date now max_age_days = Raise e /\ exc_class e = "OverflowError".
Proof.
  intros Hnot. unfold cutoff_date, timedelta, datetime_sub.
  destruct (Z.ltb_spec 999999999 (Z.abs max_age_days)) as [|Hdays];
    [now exists OverflowError_days|]. simpl.
  destruct (Z.ltb_spec (now - timedelta_days max_age_days) DATETIME_MIN) as [|Hlo];
    [now exists OverflowError_date|].
  destruct (Z.ltb_spec DATETIME_MAX (now - timedelta_days max_age_days)) as [|Hhi];
    [now exists OverflowError_date|].
  destruct Hnot. split; [lia|]. split; lia.
Qed.

(** [is_cache_valid] in terms of the stored file. *)
Lemma is_cache_valid_read
    (fs : FS) (now : Z) (ticker data_dir data_type : string) (max_age_days : Z) :
  is_cache_valid fs now ticker data_dir data_type max_age_days =
    match read_file fs (path_join data_dir ticker) data_type with
    | Some (Parquet df) =>
        match index_type df with
        | DatetimeIndex =>
            cutoff ← cutoff_date now max_age_days;
            dt_ge (to_pydatetime (index_tz df) (Pd.index_max df)) cutoff
        | _ => Ok false
        end
    | _ => Ok false
    end.
Proof.
  unfold is_cache_valid, file_exists. rewrite get_latest_date_spec.
  destruct (read_file _ _ _) as [[df|]|] eqn:Hread.
  - rewrite bool_decide_eq_true_2 by eauto. simpl.
    destruct (index_type df); [|reflexivity..].
    unfold cutoff_date. now destruct (timedelta max_age_days).
  - now rewrite bool_decide_eq_true_2 by eauto.
  - rewrite bool_decide_eq_false_2; [reflexivity|]. now intros [? ?].
Qed.

(** On a table without time zone, and with a cutoff that is a datetime,
    the check is a comparison of the latest timestamp with the cutoff. *)
Lemma is_cache_valid_naive
    (fs : FS) (now : Z) (ticker data_dir data_type : string) (max_age_days : Z) :
  cutoff_is_datetime now max_age_days ->
  (forall df, read_file fs (path_join data_dir ticker) data_type = Some (Parquet df) ->
              index_tz df = false) ->
  is_cache_valid fs now ticker data_dir data_type max_age_days =
    Ok match read_file fs (path_join data_dir ticker) data_type with
       | Some (Parquet df) =>
           match index_type df, Pd.index_max df with
           | DatetimeIndex, Some t => now - timedelta_days max_age_days <=? t
           | _, _ => false
           end
       | _ => false
       end.
Proof.
  intros Hcut Hnaive. rewrite is_cache_valid_read.
  destruct (read_file _ _ _) as [[df|]|]; [|reflexivity..].
  rewrite (Hnaive df eq_refl), (cutoff_date_ok _ _ Hcut).
  destruct (index_type df); [|reflexivity..].
  now destruct (Pd.index_max df).
Qed.

End Freshness.

(** C4 as stated fails: with a fresh table stored and [max_age_days] one
    million, the cutoff is before year 1 and the check raises. *)
Lemma is_cache_valid_large_max_age_raises :
  let store := store_with "data/AAPL" "ohlcv" (closes [7; 8; 9] 100) in
  read_file store (path_join "data" "AAPL") "ohlcv" = Some (Parquet (closes [7; 8; 9] 100))
  /\ index_type (closes [7; 8; 9] 100) = DatetimeIndex
  /\ Pd.index_max (closes [7; 8; 9] 100) = Some (day_us 9)
  /\ day_us 10 - timedelta_days 1000000 <= day_us 9
  /\ is_cache_valid store (day_us 10) "AAPL" "data" "ohlcv" 1000000
     = Raise OverflowError_date
  /\ is_cache_valid store (day_us 10) "AAPL" "data" "ohlcv" 1000000 <> Ok true.
Proof. vm_compute. repeat split; discriminate. Qed.

(** C4, amended.  When [now - max_age_days] days is a datetime and the
    stored index has no time zone, [is_cache_valid] answers, and answers
    true exactly when the parquet file of the (ticker, data type) pair holds
    a readable table whose index is a [DatetimeIndex] and whose greatest
    timestamp is not older than [now - max_age_days].  A missing file and a
    table without temporal index give false whatever [max_age_days] is.  On
    a table with temporal index, a [max_age_days] for which
    [now - max_age_days] days is no datetime makes it raise [OverflowError].
    With [max_age_days = 1], a latest timestamp of exactly one day ago gives
    true and one second earlier gives false. *)
Theorem is_cache_valid_iff
    (fs : FS) (now : Z) (ticker data_dir data_type : string) (max_age_days : Z) :
  (cutoff_is_datetime now max_age_days ->
   (forall df, read_file fs (path_join data_dir ticker) data_type = Some (Parquet df) ->
               index_tz df = false) ->
   (exists valid,
      is_cache_valid fs now ticker data_dir data_type max_age_days = Ok valid)
   /\ (is_cache_valid fs now ticker data_dir data_type max_age_days = Ok true <->
       exists df latest,
         read_file fs (path_join data_dir ticker) data_type = Some (Parquet df)
         /\ index_type df = DatetimeIndex
         /\ Num latest ∈ Pd.index df
         /\ (forall t, Num t ∈ Pd.index df -> t <= latest)
         /\ now - timedelta_days max_age_days <= latest))
  /\ (read_file fs (path_join data_dir ticker) data_type = None ->
      is_cache_valid fs now ticker data_dir data_type max_age_days = Ok false)
  /\ (forall df,
        read_file fs (path_join data_dir ticker) data_type = Some (Parquet df) ->
        index_type df <> DatetimeIndex ->
        is_cache_valid fs now ticker data_dir data_type max_age_days = Ok false)
  /\ (forall df,
        read_file fs (path_join data_dir ticker) data_type = Some (Parquet df) ->
        index_type df = DatetimeIndex ->
        ~ cutoff_is_datetime now max_age_days ->
        exists e,
          is_cache_valid fs now ticker data_dir data_type max_age_days = Raise e
          /\ exc_class e = "OverflowError")
  /\ (forall df,
        read_file fs (path_join data_dir ticker) data_type = Some (Parquet df) ->
        index_type df = DatetimeIndex -> index_tz df = false ->
        cutoff_is_datetime now 1 ->
        Pd.index_max df = Some (now - timedelta_days 1) ->
        is_cache_valid fs now ticker data_dir data_type 1 = Ok true)
  /\ (forall df,
        read_file fs (path_join data_dir ticker) data_type = Some (Parquet df) ->
        index_type df = DatetimeIndex -> index_tz df = false ->
        cutoff_is_datetime now 1 ->
        Pd.index_max df = Some (now - timedelta_days 1 - timedelta_seconds 1) ->
        is_cache_valid fs now ticker data_dir data_type 1 = Ok false).
Proof.
  split; [|split; [|split; [|split; [|split]]]].
  - intros Hcut Hnaive. rewrite (is_cache_valid_naive _ _ _ _ _ _ Hcut Hnaive).
    split; [eauto|]. split.
    + intros [= Hvalid].
      destruct (read_file _ _ _) as [[df|]|]; try discriminate.
      destruct (index_type df) eqn:Hit; try discriminate.
      destruct (Pd.index_max df) as [t|] eqn:Hmax; try discriminate.
      apply Z.leb_le in Hvalid. apply index_max_spec in Hmax as [Hin Hub].
      exists df, t. auto.
    + intros (df & latest & -> & -> & Hin & Hub & Hle).
      rewrite (proj2 (index_max_spec df latest) (conj Hin Hub)).
      f_equal. now apply Z.leb_le.
  - intros Hnone. now rewrite is_cache_valid_read, Hnone.
  - intros df Hread Hit. rewrite is_cache_valid_read, Hread.
    destruct (index_type df); [congruence|reflexivity|reflexivity].
  - intros df Hread Hit Hnot. rewrite is_cache_valid_read, Hread, Hit.
    destruct (cutoff_date_overflow _ _ Hnot) as (e & -> & Hclass). now exists e.
  - intros df Hread Hit Htz Hcut Hmax.
    rewrite is_cache_valid_read, Hread, Hit, Htz, Hmax, (cutoff_date_ok _ _ Hcut).
    simpl. f_equal. apply Z.leb_le. lia.
  - intros df Hread Hit Htz Hcut Hmax.
    rewrite is_cache_valid_read, Hread, Hit, Htz, Hmax, (cutoff_date_ok _ _ Hcut).
    simpl. f_equal. apply Z.leb_gt. unfold timedelta_seconds. lia.
Qed.

Lemma is_cache_valid_iff_witness :
  is_cache_valid (store_with "data/AAPL" "ohlcv" (closes [7; 8; 9] 100))
                 (day_us 10) "AAPL" "data" "ohlcv" 1 = Ok true
  /\ is_cache_valid
       (store_with "data/AAPL" "ohlcv" (prices [day_us 8; day_us 9 - 1000000] 100))
       (day_us 10) "AAPL" "data" "ohlcv" 1 = Ok false
  /\ is_cache_valid (store_with "data/AAPL" "ohlcv" (closes [7; 8; 9] 100))
                    (day_us 10) "MSFT" "data" "ohlcv" 1 = Ok false
  /\ is_cache_valid (store_with "data/AAPL" "info" (Pd.from_record [(Name "sector", 7)]))
                    (day_us 10) "AAPL" "data" "info" 1 = Ok false
  /\ (exists e,
        is_cache_valid (store_with "data/AAPL" "ohlcv" (closes [7; 8; 9] 100))
                       (day_us 10) "AAPL" "data" "ohlcv" (-3000000) = Raise e
        /\ exc_class e = "OverflowError").
Proof.
  assert (Hcut : cutoff_is_datetime (day_us 10) 1) by (vm_compute; intuition discriminate).
  split; [|split; [|split; [|split]]].
  - apply (proj1 (proj2 (proj2 (proj2 (proj2
             (is_cache_valid_iff (store_with "data/AAPL" "ohlcv" (closes [7; 8; 9] 100))
                                 (day_us 10) "AAPL" "data" "ohlcv" 1))))))
      with (df := closes [7; 8; 9] 100); try reflexivity. exact Hcut.
  - apply (proj2 (proj2 (proj2 (proj2 (proj2
             (is_cache_valid_iff
                (store_with "data/AAPL" "ohlcv" (prices [day_us 8; day_us 9 - 1000000] 100))
                (day_us 10) "AAPL" "data" "ohlcv" 1))))))
      with (df := prices [day_us 8; day_us 9 - 1000000] 100); try reflexivity. exact Hcut.
  - apply (proj1 (proj2
             (is_cache_valid_iff (store_with "data/AAPL" "ohlcv" (closes [7; 8; 9] 100))
                                 (day_us 10) "MSFT" "data" "ohlcv" 1))).
    reflexivity.
  - apply (proj1 (proj2 (proj2
             (is_cache_valid_iff
                (store_with "data/AAPL" "info" (Pd.from_record [(Name "sector", 7)]))
                (day_us 10) "AAPL" "data" "info" 1))))
      with (df := Pd.from_record [(Name "sector", 7)]); [reflexivity|discriminate].
  - apply (proj1 (proj2 (proj2 (proj2
             (is_cache_valid_iff (store_with "data/AAPL" "ohlcv" (closes [7; 8; 9] 100))
                                 (day_us 10) "AAPL" "data" "ohlcv" (-3000000))))))
      with (df := closes [7; 8; 9] 100); [reflexivity|reflexivity|].
    intros [_ [_ Hhi]]. vm_compute in Hhi. now apply Hhi.
Defined.

(** ** Prioritisation *)

Section Prioritise.

Variables (fs : FS) (now : Z) (data_dir : string) (max_age_days : Z).

Lemma no_directory_no_check (ticker : string) :
  dir_exists fs (path_join data_dir ticker) = false ->
  is_cache_valid fs now ticker data_dir "ohlcv" max_age_days = Ok false.
Proof.
  unfold is_cache_valid, file_exists, read_file, dir_exists.
  intros Hdir. apply bool_decide_eq_false_1 in Hdir.
  destruct (fs !! path_join data_dir ticker) as [d|]; [exfalso; eauto|].
  reflexivity.
Qed.

Lemma freshness_answers_cons (t : string) (tickers : list string) :
  freshness_answers fs now data_dir max_age_days (t :: tickers) ->
  (exists valid, is_cache_valid fs now t data_dir "ohlcv" max_age_days = Ok valid)
  /\ freshness_answers fs now data_dir max_age_days tickers.
Proof.
  intros H. split.
  - destruct (dir_exists fs (path_join data_dir t)) eqn:Hdir.
    + apply H; [apply elem_of_cons; now left|exact Hdir].
    + exists false. now apply no_directory_no_check.
  - intros t' Ht'. apply H, elem_of_cons. now right.
Qed.

Lemma prioritize_fold (tickers : list string) (b : Buckets) :
  freshness_answers fs now data_dir max_age_days tickers ->
  fold_result (prioritize_step fs now data_dir max_age_days) b tickers =
    Ok (mkBuckets
          (uncached b ++ List.filter (no_directory fs data_dir) tickers)
          (cached_outdated b ++ List.filter (stale fs now data_dir max_age_days) tickers)
          (cached_valid b ++ List.filter (fresh fs now data_dir max_age_days) tickers)).
Proof.
  revert b. induction tickers as [|t tickers IH]; intros b Hans; simpl.
  - rewrite !app_nil_r. now destruct b.
  - apply freshness_answers_cons in Hans as [[valid Hvalid] Hans].
    unfold prioritize_step, no_directory, stale, fresh. rewrite Hvalid.
    destruct (dir_exists fs (path_join data_dir t)) eqn:Hdir; simpl.
    + destruct valid; simpl; rewrite IH by exact Hans; simpl;
        now rewrite <- ?app_assoc.
    + rewrite (no_directory_no_check t Hdir) in Hvalid. injection Hvalid as <-.
      rewrite IH by exact Hans. simpl. now rewrite <- ?app_assoc.
Qed.

Lemma three_way_perm (tickers : list string) :
  freshness_answers fs now data_dir max_age_days tickers ->
  Permutation (List.filter (no_directory fs data_dir) tickers
               ++ List.filter (stale fs now data_dir max_age_days) tickers
               ++ List.filter (fresh fs now data_dir max_age_days) tickers) tickers.
Proof.
  induction tickers as [|t tickers IH]; intros Hans; simpl; [reflexivity|].
  apply freshness_answers_cons in Hans as [[valid Hvalid] Hans].
  specialize (IH Hans).
  unfold no_directory at 1, stale at 1, fresh at 1. rewrite Hvalid.
  destruct (dir_exists fs (path_join data_dir t)) eqn:Hdir; simpl.
  - destruct valid; simpl.
    + rewrite app_assoc. rewrite <- Permutation_middle.
      rewrite <- app_assoc. now constructor.
    + rewrite <- Permutation_middle. now constructor.
  - rewrite (no_directory_no_check t Hdir) in Hvalid. injection Hvalid as <-.
    now constructor.
Qed.

Lemma prioritize_tickers_eq (tickers : list string) :
  freshness_answers fs now data_dir max_age_days tickers ->
  prioritize_tickers fs now tickers data_dir max_age_days =
    Ok (List.filter (no_directory fs data_dir) tickers
        ++ List.filter (stale fs now data_dir max_age_days) tickers
        ++ List.filter (fresh fs now data_dir max_age_days) tickers).
Proof. intros Hans. unfold prioritize_tickers. now rewrite prioritize_fold. Qed.

(** The loop returns only when every check it makes answers. *)
Lemma fold_answers (tickers : list string) (b b' : Buckets) :
  fold_result (prioritize_step fs now data_dir max_age_days) b tickers = Ok b' ->
  freshness_answers fs now data_dir max_age_days tickers.
Proof.
  revert b. induction tickers as [|t tickers IH]; intros b Hfold.
  - intros t Ht. now apply elem_of_nil in Ht.
  - simpl in Hfold.
    destruct (prioritize_step fs now data_dir max_age_days b t) as [b1|e] eqn:Hstep;
      [|discriminate].
    simpl in Hfold. intros t' [->|Ht']%elem_of_cons Hdir.
    + unfold prioritize_step in Hstep. rewrite Hdir in Hstep. simpl in Hstep.
      destruct (is_cache_valid fs now t data_dir "ohlcv" max_age_days) as [valid|e];
        [now exists valid|discriminate].
    + now apply (IH b1).
Qed.

Lemma prioritize_tickers_answers (tickers out : list string) :
  prioritize_tickers fs now tickers data_dir max_age_days = Ok out ->
  freshness_answers fs now data_dir max_age_days tickers.
Proof.
  unfold prioritize_tickers. intros H.
  destruct (fold_result _ _ tickers) as [b|e] eqn:Hfold; [|discriminate].
  now apply fold_answers with (mkBuckets [] [] []) b.
Qed.

(** Whatever [prioritize_tickers] returns is a rearrangement of its
    input. *)
Lemma prioritize_tickers_perm (tickers out : list string) :
  prioritize_tickers fs now tickers data_dir max_age_days = Ok out ->
  Permutation out tickers.
Proof.
  intros H. pose proof (prioritize_tickers_answers _ _ H) as Hans.
  rewrite (prioritize_tickers_eq _ Hans) in H. injection H as <-.
  now apply three_way_perm.
Qed.

End Prioritise.

(** C5 as stated fails: with [max_age_days] of one million the freshness
    check of the first symbol that has a store directory raises, and
    [prioritize_tickers] returns no list. *)
Lemma prioritize_tickers_large_max_age_raises :
  prioritize_tickers example_store (day_us 10)
    ["F"; "U1"; "S1"; "U2"; "S2"; "U3"] "data" 1000000
  = Raise OverflowError_date
  /\ ~ (exists out,
          prioritize_tickers example_store (day_us 10)
            ["F"; "U1"; "S1"; "U2"; "S2"; "U3"] "data" 1000000 = Ok out).
Proof.
  assert (H : prioritize_tickers example_store (day_us 10)
                ["F"; "U1"; "S1"; "U2"; "S2"; "U3"] "data" 1000000
              = Raise OverflowError_date) by (vm_compute; reflexivity).
  split; [exact H|]. intros [out Hout]. rewrite H in Hout. discriminate Hout.
Qed.

(** C5, amended.  When the freshness check answers for every symbol of
    the list that has a store directory, [prioritize_tickers] returns the
    symbols without a store directory, then those with a directory but no
    fresh [ohlcv] cache, then the fresh ones, each group in its input
    order; the result is a rearrangement of the input.  It returns a list
    in that case only: an error of the check leaves [prioritize_tickers]. *)
Theorem prioritize_tickers_partition
    (fs : FS) (now : Z) (tickers : list string) (data_dir : string) (max_age_days : Z) :
  (freshness_answers fs now data_dir max_age_days tickers ->
   prioritize_tickers fs now tickers data_dir max_age_days =
     Ok (List.filter (no_directory fs data_dir) tickers
         ++ List.filter (stale fs now data_dir max_age_days) tickers
         ++ List.filter (fresh fs now data_dir max_age_days) tickers)
   /\ Permutation (List.filter (no_directory fs data_dir) tickers
                   ++ List.filter (stale fs now data_dir max_age_days) tickers
                   ++ List.filter (fresh fs now data_dir max_age_days) tickers) tickers)
  /\ (forall out,
        prioritize_tickers fs now tickers data_dir max_age_days = Ok out ->
        freshness_answers fs now data_dir max_age_days tickers).
Proof.
  split.
  - intros Hans. split; [now apply prioritize_tickers_eq|now apply three_way_perm].
  - intros out. apply prioritize_tickers_answers.
Qed.

(** The example of three symbols without directory, two stale and one
    fresh. *)
Lemma prioritize_tickers_partition_witness :
  prioritize_tickers example_store (day_us 10)
    ["F"; "U1"; "S1"; "U2"; "S2"; "U3"] "data" 1
  = Ok ["U1"; "U2"; "U3"; "S1"; "S2"; "F"].
Proof.
  destruct (prioritize_tickers_partition example_store (day_us 10)
              ["F"; "U1"; "S1"; "U2"; "S2"; "U3"] "data" 1) as [Hpart _].
  destruct Hpart as [Heq _].
  - intros ticker Hin _.
    repeat (apply elem_of_cons in Hin as [->|Hin]; [eexists; vm_compute; reflexivity|]).
    now apply elem_of_nil in Hin.
  - rewrite Heq. vm_compute. reflexivity.
Defined.

Example prioritize_three_two_one :
  prioritize_tickers example_store (day_us 10)
    ["F"; "U1"; "S1"; "U2"; "S2"; "U3"] "data" 1
  = Ok ["U1"; "U2"; "U3"; "S1"; "S2"; "F"].
Proof. vm_compute. reflexivity. Qed.


(** ** Runs of the fetcher *)

Section RunFacts.

Lemma runs_ret {A} (a : A) (w : World) : runs (mret a) w a [].
Proof. unfold runs. rewrite app_nil_r. now destruct w. Qed.

Lemma runs_bind {A B} (m : M A) (k : A -> M B) (w : World) a tr1 b tr2 :
  runs m w a tr1 ->
  runs (k a) (mkWorld (fs w) (trace w ++ tr1)) b tr2 ->
  runs (m ≫= k) w b (tr1 ++ tr2).
Proof.
  unfold runs. intros Hm Hk. unfold mbind, M_bind. rewrite Hm, Hk. simpl.
  now rewrite app_assoc.
Qed.

Lemma runs_emit (ev : Event) (w : World) : runs (emit ev) w tt [ev].
Proof. reflexivity. Qed.

Lemma runs_for_each {A S} (step : S -> A -> M S) (evs : A -> list Event)
    (xs : list A) (acc : S) (w : World) :
  (forall x w', x ∈ xs -> fs w' = fs w -> runs (step acc x) w' acc (evs x)) ->
  runs (for_each step acc xs) w acc (flat_map evs xs).
Proof.
  revert w. induction xs as [|x xs IH]; intros w Hstep; simpl.
  - apply runs_ret.
  - eapply runs_bind.
    + apply Hstep; [apply elem_of_cons; now left|reflexivity].
    + apply IH. intros y w' Hy Hfs. apply Hstep; [apply elem_of_cons; now right|].
      exact Hfs.
Qed.

(** A loop all of whose turns end in [Next] runs out. *)
Lemma runs_attempts_next {A} (body : nat -> M (Flow A)) (evs : nat -> list Event)
    (attempts : list nat) (w : World) :
  (forall attempt w', fs w' = fs w -> runs (body attempt) w' Next (evs attempt)) ->
  runs (attempts_loop body attempts) w None (flat_map evs attempts).
Proof.
  revert w. induction attempts as [|attempt rest IH]; intros w Hbody; simpl.
  - apply runs_ret.
  - eapply runs_bind; [now apply Hbody|].
    apply IH. intros a w' Hfs. apply Hbody. exact Hfs.
Qed.

Lemma runs_try_except {A} (body : M A) (handler : Exception -> M A)
    (w : World) a tr :
  runs body w a tr -> runs (try_except body handler) w a tr.
Proof. unfold runs, try_except. now intros ->. Qed.

Lemma runs_lift {A} (r : Result A) (a : A) (w : World) :
  r = Ok a -> runs (lift r) w a [].
Proof. intros ->. unfold runs, lift. rewrite app_nil_r. now destruct w. Qed.

Lemma history_calls_app (tr1 tr2 : list Event) :
  history_calls (tr1 ++ tr2) = history_calls tr1 ++ history_calls tr2.
Proof. apply omap_app. Qed.

Lemma attempts_runs {A} (m : M A) (w : World) a tr :
  runs m w a tr -> attempts m w a (history_calls tr).
Proof. intros H. now exists tr. Qed.

Lemma attempts_ret {A} (a : A) (w : World) : attempts (mret a) w a [].
Proof. exists []. split; [apply runs_ret|reflexivity]. Qed.

Lemma attempts_log (lvl : Level) (msg : string) (w : World) :
  attempts (log lvl msg) w tt [].
Proof. exists [Logged lvl msg]. split; [apply runs_emit|reflexivity]. Qed.

Lemma attempts_sleep (d : Duration) (w : World) : attempts (sleep d) w tt [].
Proof. exists [Slept d]. split; [apply runs_emit|reflexivity]. Qed.

Lemma attempts_bind {A B} (m : M A) (k : A -> M B) (w : World) a ts1 b ts2 :
  attempts m w a ts1 ->
  (forall w', fs w' = fs w -> attempts (k a) w' b ts2) ->
  attempts (m ≫= k) w b (ts1 ++ ts2).
Proof.
  intros (tr1 & Hm & <-) Hk.
  destruct (Hk (mkWorld (fs w) (trace w ++ tr1)) eq_refl) as (tr2 & Hk' & <-).
  exists (tr1 ++ tr2). split; [now apply runs_bind with a|apply history_calls_app].
Qed.

Lemma attempts_try_except {A} (body : M A) (handler : Exception -> M A)
    (w : World) a ts :
  attempts body w a ts -> attempts (try_except body handler) w a ts.
Proof. intros (tr & H & <-). exists tr. split; [now apply runs_try_except|reflexivity]. Qed.

Lemma attempts_for_each {A S} (step : S -> A -> M S) (f : A -> list string)
    (xs : list A) (acc : S) (w : World) :
  (forall x w', x ∈ xs -> fs w' = fs w -> attempts (step acc x) w' acc (f x)) ->
  attempts (for_each step acc xs) w acc (flat_map f xs).
Proof.
  revert w. induction xs as [|x xs IH]; intros w Hstep; simpl.
  - exists []. split; [apply runs_ret|reflexivity].
  - apply attempts_bind with acc.
    + apply Hstep; [apply elem_of_cons; now left|reflexivity].
    + intros w' Hfs. apply IH. intros y w'' Hy Hfs'.
      apply Hstep; [apply elem_of_cons; now right|congruence].
Qed.

End RunFacts.

Section RateLimited.

Variable env : Env.

Lemma fetch_with_retry_attempt_rate_limited
    (ticker : string) (q : Query) (data_dir : option string) (attempt : nat)
    (w : World) (e : Exception) :
  history (remote env) (S (length (trace w))) ticker q = Raise e ->
  is_rate_limited e = true ->
  runs (fetch_with_retry_attempt env ticker q data_dir attempt) w Next
       (retry_events ticker q attempt).
Proof.
  intros Hraise Hrl. unfold runs, fetch_with_retry_attempt, try_except.
  unfold mbind, M_bind, log, sleep, emit, yf_history, request. simpl.
  rewrite length_app, Nat.add_comm. simpl. rewrite Hraise, Hrl. simpl.
  now rewrite <- !app_assoc.
Qed.

Lemma fetch_with_retry_loop_rate_limited
    (ticker : string) (q : Query) (data_dir : option string) (max_retries : Z)
    (w : World) :
  history_rate_limited env ->
  runs (fetch_with_retry_loop env ticker q data_dir max_retries) w ∅
       (flat_map (retry_events ticker q) (range_n max_retries)
        ++ [Logged ERROR "Failed to fetch {ticker} after {max_retries} retries"]).
Proof.
  intros Hrl. unfold fetch_with_retry_loop.
  eapply runs_bind.
  - apply runs_attempts_next. intros attempt w' _.
    destruct (Hrl (S (length (trace w'))) ticker q) as (e & He & Hlim).
    now apply fetch_with_retry_attempt_rate_limited with e.
  - simpl. eapply (runs_bind _ _ _ tt [_] ∅ []); [apply runs_emit|apply runs_ret].
Qed.

End RateLimited.

Section RateLimitedRun.

Variable env : Env.
Variables (q : Query) (data_dir : option string) (max_retries : Z) (force_refresh : bool).

Hypothesis history_fails : history_rate_limited env.
Hypothesis download_fails : download_rate_limited env.

Lemma fetch_with_retry_rate_limited (ticker : string) (w : World) :
  cache_unused env data_dir force_refresh (fs w) ticker ->
  runs (fetch_with_retry env ticker q data_dir max_retries force_refresh) w ∅
       (flat_map (retry_events ticker q) (range_n max_retries)
        ++ [Logged ERROR "Failed to fetch {ticker} after {max_retries} retries"]).
Proof.
  intros Hcache. unfold runs, fetch_with_retry, now, get_fs, lift.
  unfold mbind at 1 2 3, M_bind. simpl.
  rewrite Hcache. now apply fetch_with_retry_loop_rate_limited.
Qed.

Lemma history_calls_retry (ticker : string) (attempts : list nat) :
  history_calls (flat_map (retry_events ticker q) attempts)
  = replicate (length attempts) ticker.
Proof.
  induction attempts as [|a rest IH]; simpl; [reflexivity|].
  now rewrite <- IH.
Qed.

Lemma fetch_with_retry_attempts (ticker : string) (w : World) :
  cache_unused env data_dir force_refresh (fs w) ticker ->
  attempts (fetch_with_retry env ticker q data_dir max_retries force_refresh) w ∅
           (replicate (Z.to_nat max_retries) ticker).
Proof.
  intros Hcache. eexists. split; [now apply fetch_with_retry_rate_limited|].
  rewrite history_calls_app, history_calls_retry. simpl.
  unfold range_n. now rewrite app_nil_r, length_seq.
Qed.

Lemma fetch_batch_attempt_rate_limited
    (tickers : list string) (attempt : nat) (w : World) (e : Exception) :
  download (remote env) (S (length (trace w))) tickers q = Raise e ->
  is_rate_limited e = true ->
  runs (fetch_batch_attempt env tickers q attempt) w Next (batch_events q tickers attempt).
Proof.
  intros Hraise Hrl. unfold runs, fetch_batch_attempt, try_except.
  unfold mbind, M_bind, log, sleep, emit, yf_download, request. simpl.
  rewrite length_app, Nat.add_comm. simpl. rewrite Hraise, Hrl. simpl.
  now rewrite <- !app_assoc.
Qed.

Lemma fetch_batch_price_data_rate_limited (tickers : list string) (w : World) :
  tickers <> [] ->
  runs (fetch_batch_price_data env tickers q max_retries) w ∅
       (flat_map (batch_events q tickers) (range_n max_retries)
        ++ [Logged ERROR "Failed to fetch batch data after {max_retries} retries"]).
Proof.
  intros Hne. unfold fetch_batch_price_data.
  destruct tickers as [|t ts]; [congruence|].
  eapply runs_bind.
  - apply runs_attempts_next. intros attempt w' _.
    destruct (download_fails (S (length (trace w'))) (t :: ts) q) as (e & He & Hlim).
    now apply fetch_batch_attempt_rate_limited with e.
  - simpl. eapply (runs_bind _ _ _ tt [_] ∅ []); [apply runs_emit|apply runs_ret].
Qed.

Lemma history_calls_batch (tickers : list string) (attempts : list nat) :
  history_calls (flat_map (batch_events q tickers) attempts) = [].
Proof. induction attempts as [|a rest IH]; simpl; [reflexivity|exact IH]. Qed.

Lemma process_ticker_attempts
    (batch_results : gmap string (gmap string DataFrame)) (ticker : string) (w : World) :
  cache_unused env data_dir force_refresh (fs w) ticker ->
  attempts (process_ticker env q data_dir max_retries force_refresh ∅ batch_results ticker)
           w batch_results (replicate (Z.to_nat max_retries) ticker).
Proof.
  intros Hcache. unfold process_ticker. apply attempts_try_except.
  change (replicate (Z.to_nat max_retries) ticker)
    with ([] ++ replicate (Z.to_nat max_retries) ticker).
  apply attempts_bind with tt; [apply attempts_log|].
  intros w' Hfs. unfold usable_prices. rewrite lookup_empty.
  rewrite <- (app_nil_r (replicate _ _)).
  apply attempts_bind with ∅.
  - apply fetch_with_retry_attempts. now rewrite Hfs.
  - intros w'' _. apply attempts_ret.
Qed.

Lemma process_batch_attempts
    (batch_results : gmap string (gmap string DataFrame))
    (batch_idx : nat) (batch : list string) (w : World) :
  batch <> [] ->
  (forall ticker, ticker ∈ batch ->
                  cache_unused env data_dir force_refresh (fs w) ticker) ->
  attempts (process_batch env q data_dir max_retries force_refresh batch_results
                          (batch_idx, batch))
           w batch_results
           (flat_map (fun ticker => replicate (Z.to_nat max_retries) ticker) batch).
Proof.
  intros Hne Hcache. unfold process_batch.
  change (flat_map _ batch) with ([] ++ flat_map (fun ticker =>
            replicate (Z.to_nat max_retries) ticker) batch).
  apply attempts_bind with tt; [apply attempts_log|].
  intros w1 Hfs1.
  assert (Hcond : forall n store, store = fs w ->
            batch_cache_check data_dir force_refresh store (clock env n) batch
            = Ok false).
  { intros n store ->. destruct batch as [|t ts]; [congruence|].
    specialize (Hcache t ltac:(apply elem_of_cons; now left) n).
    unfold batch_cache_check, cache_check in *.
    destruct (truthy data_dir && negb force_refresh); [|reflexivity].
    simpl. now rewrite Hcache. }
  unfold attempts, runs, now, get_fs, lift. unfold mbind at 1 2 3, M_bind. simpl.
  rewrite (Hcond _ _ Hfs1).
  cut (attempts
         (try_except
            (price_data ← fetch_batch_price_data env batch q max_retries;
             pause BATCH_DELAY;;
             for_each (process_ticker env q data_dir max_retries force_refresh price_data)
                      batch_results batch)
            (fun e =>
               log ERROR "Error processing batch {batch_idx+1}: {e}";;
               for_each (fetch_individually env q data_dir max_retries force_refresh)
                        batch_results batch))
         w1 batch_results
         (flat_map (fun ticker => replicate (Z.to_nat max_retries) ticker) batch)).
  { intros H. exact H. }
  apply attempts_try_except.
  change (flat_map _ batch) with ([] ++ flat_map (fun ticker =>
            replicate (Z.to_nat max_retries) ticker) batch).
  apply attempts_bind with ∅.
  - eexists. split; [now apply fetch_batch_price_data_rate_limited|].
    rewrite history_calls_app, history_calls_batch. reflexivity.
  - intros w2 Hfs2.
    change (flat_map _ batch) with ([] ++ flat_map (fun ticker =>
              replicate (Z.to_nat max_retries) ticker) batch).
    apply attempts_bind with tt; [apply attempts_sleep|].
    intros w3 Hfs3. apply attempts_for_each.
    intros ticker w4 Hin Hfs4. apply process_ticker_attempts.
    rewrite Hfs4, Hfs3, Hfs2, Hfs1. now apply Hcache.
Qed.

Lemma attempts_between_days (day n_days : nat) (w : World) :
  attempts (between_days day n_days) w tt [].
Proof.
  unfold between_days. destruct (_ <? _); [|apply attempts_ret].
  change (@nil string) with (@nil string ++ []).
  apply attempts_bind with tt; [apply attempts_log|]. intros. apply attempts_sleep.
Qed.

Lemma flat_map_enumerate {A B} (g : list A -> list B) (xs : list (list A)) :
  flat_map (fun item : nat * list A => g (snd item)) (enumerate xs) = flat_map g xs.
Proof.
  assert (Hsnd : forall l : list (nat * list A),
             flat_map (fun item => g (snd item)) l = flat_map g (map snd l)).
  { induction l as [|x l IH]; simpl; [reflexivity|]. now rewrite IH. }
  rewrite Hsnd. unfold enumerate.
  change (map snd (zip (seq 0 (length xs)) xs)) with ((zip (seq 0 (length xs)) xs).*2).
  now rewrite snd_zip by (rewrite length_seq; lia).
Qed.

Lemma flat_map_concat_chunks {A B} (g : A -> list B) (xs : list (list A)) :
  flat_map (flat_map g) xs = flat_map g (concat xs).
Proof.
  induction xs as [|x xs IH]; simpl; [reflexivity|].
  now rewrite IH, flat_map_app.
Qed.

Lemma elem_of_concat {A} (x : A) (c : list A) (xs : list (list A)) :
  c ∈ xs -> x ∈ c -> x ∈ concat xs.
Proof.
  intros Hc Hx. apply list_elem_of_In, in_concat. exists c.
  split; now apply list_elem_of_In.
Qed.

Lemma elem_of_enumerate {A} (xs : list A) (item : nat * A) :
  item ∈ enumerate xs -> snd item ∈ xs.
Proof.
  unfold enumerate. destruct item as [i x]. intros H.
  apply list_elem_of_In, in_combine_r, list_elem_of_In in H. exact H.
Qed.

Lemma process_day_attempts
    (batch_size : Z) (n_days : nat) (result : gmap string (gmap string DataFrame))
    (day : nat) (daily_tickers : list string) (w : World) :
  0 < batch_size ->
  (forall ticker, ticker ∈ daily_tickers ->
                  cache_unused env data_dir force_refresh (fs w) ticker) ->
  attempts (process_day env q data_dir max_retries force_refresh batch_size n_days
                        result (day, daily_tickers))
           w result
           (flat_map (fun ticker => replicate (Z.to_nat max_retries) ticker)
                     daily_tickers).
Proof.
  intros Hsize Hcache. unfold process_day.
  destruct (chunk_list_ok daily_tickers batch_size Hsize) as (batches & Hchunks & Hcat & Hne).
  set (rep := fun ticker : string => replicate (Z.to_nat max_retries) ticker).
  change (flat_map rep daily_tickers) with ([] ++ flat_map rep daily_tickers).
  apply attempts_bind with tt; [apply attempts_log|]. intros w1 Hfs1.
  change (flat_map rep daily_tickers) with ([] ++ flat_map rep daily_tickers).
  apply attempts_bind with batches.
  { exists []. split; [now apply runs_lift|reflexivity]. }
  intros w2 Hfs2.
  rewrite <- (app_nil_r (flat_map rep daily_tickers)).
  apply attempts_bind with ∅.
  - rewrite <- Hcat, <- flat_map_concat_chunks, <- flat_map_enumerate.
    apply attempts_for_each. intros [batch_idx batch] w3 Hin Hfs3.
    apply elem_of_enumerate in Hin. simpl in Hin.
    apply process_batch_attempts.
    + rewrite Forall_forall in Hne. now apply Hne.
    + intros ticker Ht. rewrite Hfs3, Hfs2, Hfs1. apply Hcache.
      rewrite <- Hcat. now apply elem_of_concat with batch.
  - intros w3 Hfs3. rewrite (left_id_L ∅ (∪)).
    change (@nil string) with (@nil string ++ []).
    apply attempts_bind with tt; [apply attempts_between_days|].
    intros. apply attempts_ret.
Qed.

(** A symbol whose cache does not answer has an answering freshness
    check, and is not fresh. *)
Lemma cache_unused_check (store : FS) (ticker : string) (n : nat) :
  truthy data_dir && negb force_refresh = true ->
  cache_unused env data_dir force_refresh store ticker ->
  is_cache_valid store (clock env n) ticker (default "" data_dir) "ohlcv" MAX_AGE_DAYS
  = Ok false.
Proof.
  intros Hon Hcache. specialize (Hcache n). unfold cache_check in Hcache.
  now rewrite Hon in Hcache.
Qed.

(** Without a fresh cache [prioritize_tickers] returns, and the order it
    gives does not depend on the time of the call. *)
Lemma prioritize_any_time (store : FS) (tickers : list string) (n : nat) :
  (forall ticker, ticker ∈ tickers ->
                  cache_unused env data_dir force_refresh store ticker) ->
  truthy data_dir && negb force_refresh = true ->
  prioritize_tickers store (clock env n) tickers (default "" data_dir) MAX_AGE_DAYS
  = Ok (run_order env data_dir force_refresh store tickers).
Proof.
  intros Hcache Hon. rewrite prioritize_tickers_eq.
  - unfold run_order. rewrite Hon. f_equal.
    assert (Hfresh : List.filter
                       (fresh store (clock env n) (default "" data_dir) MAX_AGE_DAYS)
                       tickers = []).
    { induction tickers as [|t ts IH]; simpl; [reflexivity|].
      unfold fresh at 1.
      rewrite (cache_unused_check store t n Hon)
        by (apply Hcache, elem_of_cons; now left).
      apply IH. intros t' Ht'. apply Hcache, elem_of_cons. now right. }
    rewrite Hfresh, app_nil_r. f_equal.
    apply filter_ext_in. intros t Ht. apply list_elem_of_In in Ht.
    unfold stale.
    now rewrite !(cache_unused_check store t _ Hon) by (now apply Hcache).
  - intros t Ht _. exists false. apply cache_unused_check; auto.
Qed.

Lemma run_order_perm (store : FS) (tickers : list string) :
  (forall ticker, ticker ∈ tickers ->
                  cache_unused env data_dir force_refresh store ticker) ->
  Permutation (run_order env data_dir force_refresh store tickers) tickers.
Proof.
  intros Hcache.
  destruct (truthy data_dir && negb force_refresh) eqn:Hon.
  - apply (prioritize_tickers_perm store (clock env 0) (default "" data_dir)
             MAX_AGE_DAYS).
    now apply prioritize_any_time.
  - unfold run_order. now rewrite Hon.
Qed.

Lemma fetch_data_for_tickers_attempts
    (tickers : list string) (batch_size daily_limit : Z) (w : World) :
  0 < batch_size -> 0 < daily_limit ->
  (forall ticker, ticker ∈ tickers ->
                  cache_unused env data_dir force_refresh (fs w) ticker) ->
  attempts (fetch_data_for_tickers env tickers q data_dir max_retries force_refresh
                                   batch_size daily_limit)
           w ∅
           (flat_map (fun ticker => replicate (Z.to_nat max_retries) ticker)
                     (run_order env data_dir force_refresh (fs w) tickers)).
Proof.
  intros Hbatch Hdaily Hcache. unfold fetch_data_for_tickers.
  set (rep := fun ticker : string => replicate (Z.to_nat max_retries) ticker).
  destruct tickers as [|t0 ts] eqn:Htickers.
  { replace (run_order env data_dir force_refresh (fs w) []) with (@nil string)
      by (unfold run_order; now destruct (_ && _)).
    simpl. change (@nil string) with (@nil string ++ []).
    apply attempts_bind with tt; [apply attempts_log|]. intros. apply attempts_ret. }
  rewrite <- Htickers in *. clear Htickers t0 ts.
  set (order := run_order env data_dir force_refresh (fs w) tickers).
  assert (Hcache' : forall ticker, ticker ∈ order ->
                      cache_unused env data_dir force_refresh (fs w) ticker).
  { intros t Ht. apply Hcache. unfold order in Ht.
    now rewrite (run_order_perm _ _ Hcache) in Ht. }
  change (flat_map rep order) with ([] ++ flat_map rep order).
  apply attempts_bind with tt.
  { destruct (_ <? _); [apply attempts_log|apply attempts_ret]. }
  intros w1 Hfs1.
  change (flat_map rep order) with ([] ++ flat_map rep order).
  apply attempts_bind with order.
  { destruct (truthy data_dir && negb force_refresh) eqn:Hon.
    - unfold attempts, runs, now, get_fs, lift. unfold mbind at 1 2 3, M_bind. simpl.
      rewrite Hfs1, prioritize_any_time by assumption. fold order.
      change (@nil string) with (@nil string ++ []).
      rewrite <- Hfs1.
      apply attempts_bind with tt; [apply attempts_log|]. intros. apply attempts_ret.
    - replace order with tickers by (unfold order, run_order; now rewrite Hon).
      apply attempts_ret. }
  intros w2 Hfs2.
  destruct (chunk_list_ok order daily_limit Hdaily) as (days & Hchunks & Hcat & _).
  change (flat_map rep order) with ([] ++ flat_map rep order).
  apply attempts_bind with days.
  { exists []. split; [now apply runs_lift|reflexivity]. }
  intros w3 Hfs3.
  change (flat_map rep order) with ([] ++ flat_map rep order).
  apply attempts_bind with tt; [apply attempts_log|]. intros w4 Hfs4.
  rewrite <- (app_nil_r (flat_map rep order)).
  apply attempts_bind with ∅.
  - rewrite <- Hcat, <- flat_map_concat_chunks, <- flat_map_enumerate.
    apply attempts_for_each. intros [day daily_tickers] w5 Hin Hfs5.
    apply elem_of_enumerate in Hin. simpl in Hin.
    apply process_day_attempts; [exact Hbatch|].
    intros ticker Ht. rewrite Hfs5, Hfs4, Hfs3, Hfs2, Hfs1. apply Hcache'.
    rewrite <- Hcat. now apply elem_of_concat with daily_tickers.
  - intros w5 Hfs5. change (@nil string) with (@nil string ++ []).
    apply attempts_bind with tt; [apply attempts_log|]. intros. apply attempts_ret.
Qed.

End RateLimitedRun.


(** ** Failed attempts, path by path *)

Section FailedAttempts.

Variable env : Env.

(** The per-symbol fallback of the date-range fetch backs off like
    [fetch_with_retry] when the symbol is rate limited. *)
Lemma date_fallback_attempt_rate_limited
    (ticker : string) (q : Query) (data_dir : option string)
    (result : gmap string (gmap string DataFrame)) (attempt : nat)
    (w : World) (e : Exception) :
  history (remote env) (length (trace w)) ticker q = Raise e ->
  is_rate_limited e = true ->
  runs (date_fallback_attempt env ticker q data_dir result attempt) w Next
       [ Called (History ticker q);
         Logged WARNING "Rate limited for {ticker}, waiting {wait_time:.2f}s before retry";
         Slept (backoff attempt 3) ].
Proof.
  intros Hraise Hrl. unfold runs, date_fallback_attempt, try_except.
  unfold mbind, M_bind, log, sleep, emit, yf_history, request. simpl.
  rewrite Hraise, Hrl. simpl. now rewrite <- !app_assoc.
Qed.

(** The bulk request of a date-range batch, rate limited: the wait is
    [batch_fallback_wait batch_idx], then every ticker is fetched on its
    own. *)
Lemma date_batch_rate_limited
    (q : Query) (data_dir : option string) (max_retries : Z)
    (result : gmap string (gmap string DataFrame))
    (batch_idx : nat) (batch : list string) (w : World) (e : Exception) :
  download (remote env) (S (length (trace w))) batch q = Raise e ->
  is_rate_limited e = true ->
  date_batch env q data_dir max_retries result (batch_idx, batch) w
  = for_each (date_fallback env q data_dir max_retries) result batch
      (mkWorld (fs w)
         (trace w ++
            [ Logged INFO
                "Processing batch {batch_idx+1}/{len(batches)}, {len(batch)} tickers";
              Called (Download batch q);
              Logged WARNING
                "Rate limited for batch request, waiting {wait_time:.2f}s before trying individual requests";
              Slept (batch_fallback_wait batch_idx) ])).
Proof.
  intros Hraise Hrl. unfold date_batch, try_except.
  unfold mbind, M_bind, log, sleep, emit, yf_download, request. simpl.
  rewrite length_app, Nat.add_comm. simpl. rewrite Hraise, Hrl. simpl.
  now rewrite <- !app_assoc.
Qed.

(** A failure that is not the rate-limit signal, in [fetch_with_retry]. *)
Lemma fetch_with_retry_attempt_other_error
    (ticker : string) (q : Query) (data_dir : option string) (attempt : nat)
    (w : World) (e : Exception) :
  history (remote env) (S (length (trace w))) ticker q = Raise e ->
  is_rate_limited e = false ->
  runs (fetch_with_retry_attempt env ticker q data_dir attempt) w Next
       [ Logged INFO "Fetching data for {ticker} (attempt {attempt+1}/{max_retries})";
         Called (History ticker q);
         Logged ERROR "Error fetching data for {ticker}: {e}";
         Slept (mkDuration REQUEST_DELAY 0) ].
Proof.
  intros Hraise Hrl. unfold runs, fetch_with_retry_attempt, try_except.
  unfold mbind, M_bind, log, pause, sleep, emit, yf_history, request. simpl.
  rewrite length_app, Nat.add_comm. simpl. rewrite Hraise, Hrl. simpl.
  now rewrite <- !app_assoc.
Qed.

Lemma fetch_batch_attempt_other_error
    (tickers : list string) (q : Query) (attempt : nat) (w : World) (e : Exception) :
  download (remote env) (S (length (trace w))) tickers q = Raise e ->
  is_rate_limited e = false ->
  runs (fetch_batch_attempt env tickers q attempt) w Next
       [ Logged INFO
           "Fetching batch price data for {len(tickers)} tickers (attempt {attempt+1}/{max_retries})";
         Called (Download tickers q);
         Logged ERROR "Error fetching batch data: {e}";
         Slept (mkDuration BATCH_DELAY 0) ].
Proof.
  intros Hraise Hrl. unfold runs, fetch_batch_attempt, try_except.
  unfold mbind, M_bind, log, pause, sleep, emit, yf_download, request. simpl.
  rewrite length_app, Nat.add_comm. simpl. rewrite Hraise, Hrl. simpl.
  now rewrite <- !app_assoc.
Qed.

Lemma date_fallback_attempt_other_error
    (ticker : string) (q : Query) (data_dir : option string)
    (result : gmap string (gmap string DataFrame)) (attempt : nat)
    (w : World) (e : Exception) :
  history (remote env) (length (trace w)) ticker q = Raise e ->
  is_rate_limited e = false ->
  runs (date_fallback_attempt env ticker q data_dir result attempt) w Break
       [ Called (History ticker q);
         Logged ERROR "Error fetching data for {ticker}: {inner_e}" ].
Proof.
  intros Hraise Hrl. unfold runs, date_fallback_attempt, try_except.
  unfold mbind, M_bind, log, sleep, emit, yf_history, request. simpl.
  rewrite Hraise, Hrl. simpl. now rewrite <- !app_assoc.
Qed.

(** How a loop goes on after one turn. *)
Lemma attempts_loop_next {A} (body : nat -> M (Flow A)) (attempt : nat)
    (rest : list nat) (w : World) (tr : list Event) :
  runs (body attempt) w Next tr ->
  attempts_loop body (attempt :: rest) w
  = attempts_loop body rest (mkWorld (fs w) (trace w ++ tr)).
Proof. unfold runs. intros H. simpl. unfold mbind, M_bind. now rewrite H. Qed.

Lemma attempts_loop_break {A} (body : nat -> M (Flow A)) (attempt : nat)
    (rest : list nat) (w : World) (tr : list Event) :
  runs (body attempt) w Break tr ->
  runs (attempts_loop body (attempt :: rest)) w None tr.
Proof. unfold runs. intros H. simpl. unfold mbind, M_bind. now rewrite H. Qed.

End FailedAttempts.

(** C3, the date-range batch fallback.  Four one-symbol batches, each
    bulk request rate limited: the waits before the per-symbol fallback
    are 30, 60, 120 and then 90 seconds (plus jitter up to 5), where
    [RATE_LIMIT_DEFAULT_TIMEOUT * 2 ** 3] is 240. *)
Theorem date_range_batch_wait_not_exponential :
  map seconds
      (List.filter (fun d => jitter_max d =? 5)
         (sleeps_of
            (trace (snd (fetch_data_from_date flaky_env ["A"; "B"; "C"; "D"]
                           (Dt (day_us 1)) (Some (Dt (day_us 10))) "1d" false true
                           None 5 1 400 empty_world)))))
  = [30; 60; 120; 90]
  /\ seconds (batch_fallback_wait 3) = 90
  /\ seconds (backoff 3 5) = 240.
Proof. vm_compute. repeat split. Qed.

(** C9 as stated fails on the per-symbol fallback of the date-range
    fetch: with five attempts allowed, a failure other than the
    rate-limit signal on the first attempt is the last attempt made. *)
Lemma date_range_fallback_gives_up :
  history_calls
    (trace (snd (fetch_data_from_date flaky_env ["A"]
                   (Dt (day_us 1)) (Some (Dt (day_us 10))) "1d" false true
                   None 5 50 400 empty_world)))
  = ["A"]
  /\ fst (fetch_data_from_date flaky_env ["A"]
            (Dt (day_us 1)) (Some (Dt (day_us 10))) "1d" false true
            None 5 50 400 empty_world) = Ok ∅
  /\ (length ["A"] < Z.to_nat 5)%nat.
Proof. vm_compute. repeat split. lia. Qed.


(** ** Persistence *)

Section Directories.

Lemma mkdir_lookup (fs : FS) (dir d : string) :
  mkdir fs dir !! d =
    match fs !! d with
    | Some files => Some files
    | None => if decide (d = dir) then Some ∅ else None
    end.
Proof.
  unfold mkdir. destruct (fs !! dir) eqn:Hdir.
  - destruct (fs !! d) eqn:Hd; [reflexivity|].
    destruct (decide (d = dir)) as [->|_]; [congruence|reflexivity].
  - destruct (decide (d = dir)) as [->|Hne].
    + now rewrite lookup_insert_eq, Hdir.
    + rewrite lookup_insert_ne by congruence. now destruct (fs !! d).
Qed.

(** Making directories adds empty ones and leaves the rest. *)
Lemma mkdirs_lookup (dirs : list string) (fs : FS) (d : string) :
  foldl mkdir fs dirs !! d =
    match fs !! d with
    | Some files => Some files
    | None => if bool_decide (d ∈ dirs) then Some ∅ else None
    end.
Proof.
  revert fs. induction dirs as [|x dirs IH]; intros fs; simpl.
  - now destruct (fs !! d).
  - rewrite IH, mkdir_lookup. destruct (fs !! d) as [files|]; [reflexivity|].
    destruct (decide (d = x)) as [->|Hne].
    + now rewrite bool_decide_eq_true_2 by (apply elem_of_cons; now left).
    + destruct (decide (d ∈ dirs)) as [Hin|Hnin].
      * rewrite !bool_decide_eq_true_2; [reflexivity|apply elem_of_cons; now right|exact Hin].
      * rewrite !bool_decide_eq_false_2; [reflexivity| |exact Hnin].
        intros [?|?]%elem_of_cons; contradiction.
Qed.

Lemma makedirs_lookup (fs : FS) (dir d : string) :
  makedirs fs dir !! d =
    match fs !! d with
    | Some files => Some files
    | None => if bool_decide (d = dir \/ d ∈ ancestors dir) then Some ∅ else None
    end.
Proof.
  unfold makedirs. rewrite mkdirs_lookup. destruct (fs !! d); [reflexivity|].
  rewrite (bool_decide_ext (d ∈ ancestors dir ++ [dir]) (d = dir \/ d ∈ ancestors dir));
    [reflexivity|].
  rewrite elem_of_app, list_elem_of_singleton. tauto.
Qed.

Lemma read_makedirs (fs : FS) (dir d k : string) :
  read_file (makedirs fs dir) d k = read_file fs d k.
Proof.
  unfold read_file. rewrite makedirs_lookup.
  destruct (fs !! d) as [files|]; [reflexivity|].
  destruct (bool_decide _); simpl; [apply lookup_empty|reflexivity].
Qed.

End Directories.

Section SaveFacts.

Variable to_parquet_ok : string -> string -> DataFrame -> bool.

Lemma read_write_file (fs : FS) (dir data_type : string) (f : File) (d k : string) :
  read_file (write_file fs dir data_type f) d k =
    if decide (d = dir /\ k = data_type) then Some f else read_file fs d k.
Proof.
  unfold read_file, write_file.
  destruct (decide (d = dir)) as [->|Hd].
  - rewrite lookup_insert_eq. simpl.
    destruct (decide (k = data_type)) as [->|Hk].
    + rewrite lookup_insert_eq. now rewrite decide_True.
    + rewrite lookup_insert_ne by congruence.
      rewrite decide_False by tauto.
      destruct (fs !! dir); simpl; [reflexivity|apply lookup_empty].
  - rewrite lookup_insert_ne by congruence. now rewrite decide_False by tauto.
Qed.

(** Every file present after the loop was there before it or is a
    non-empty table of [items] written under the ticker directory. *)
Lemma save_loop_files (items : list (string * option DataFrame))
    (dir : string) (success : bool) (fs : FS) (d k : string) (f : File) :
  read_file (snd (foldl (save_ticker_step to_parquet_ok dir) (success, fs) items)) d k
    = Some f ->
  read_file fs d k = Some f
  \/ exists df, f = Parquet df /\ d = dir /\ saved items k df.
Proof.
  revert success fs. induction items as [|[data_type odf] items IH]; intros success fs; simpl.
  - auto.
  - assert (Hskip : forall flag,
      read_file (snd (foldl (save_ticker_step to_parquet_ok dir) (flag, fs) items)) d k
        = Some f ->
      read_file fs d k = Some f
      \/ exists df, f = Parquet df /\ d = dir /\ saved ((data_type, odf) :: items) k df).
    { intros flag H. apply IH in H as [H|(df & -> & -> & Hin & Hne)]; [now left|right].
      exists df. repeat split; [|exact Hne]. apply elem_of_cons. now right. }
    destruct odf as [df|]; [|apply Hskip].
    destruct (Pd.empty df) eqn:Hempty; [apply Hskip|].
    unfold save_dataframe_to_parquet.
    destruct (to_parquet_ok dir data_type df); [|apply Hskip].
    intros H. apply IH in H as [H|(df' & -> & -> & Hin & Hne)].
    + rewrite read_write_file, read_makedirs in H.
      destruct (decide (d = dir /\ k = data_type)) as [[-> ->]|Hn]; [|now left].
      inversion H; subst. right. exists df. repeat split; [|exact Hempty].
      apply elem_of_cons. now left.
    + right. exists df'. repeat split; [|exact Hne]. apply elem_of_cons. now right.
Qed.

(** A file stays as it was unless a non-empty table of its data type is
    among [items]. *)
Lemma save_loop_untouched (items : list (string * option DataFrame))
    (dir : string) (success : bool) (fs : FS) (d k : string) :
  (d = dir -> forall df, ~ saved items k df) ->
  read_file (snd (foldl (save_ticker_step to_parquet_ok dir) (success, fs) items)) d k
    = read_file fs d k.
Proof.
  revert success fs. induction items as [|[data_type odf] items IH];
    intros success fs Hns; simpl; [reflexivity|].
  assert (Hns' : d = dir -> forall df, ~ saved items k df).
  { intros Hd df [Hin Hne]. apply (Hns Hd df). split; [|exact Hne].
    apply elem_of_cons. now right. }
  destruct odf as [df|]; [|now apply IH].
  destruct (Pd.empty df) eqn:Hempty; [now apply IH|].
  unfold save_dataframe_to_parquet.
  destruct (to_parquet_ok dir data_type df); [|now apply IH].
  rewrite IH by exact Hns'. rewrite read_write_file, read_makedirs.
  rewrite decide_False; [reflexivity|].
  intros [-> ->]. apply (Hns eq_refl df). split; [|exact Hempty].
  apply elem_of_cons. now left.
Qed.

Lemma saved_in_data (data : gmap string (option DataFrame)) (k : string) (df : DataFrame) :
  saved (map_to_list data) k df <->
  data !! k = Some (Some df) /\ Pd.empty df = false.
Proof. unfold saved. now rewrite elem_of_map_to_list. Qed.

End SaveFacts.


(** ** The store stays free of empty tables *)

Section KeepsClean.

Lemma keeps_ret {A} (a : A) : keeps_clean (mret a).
Proof. intros w H. exact H. Qed.

Lemma keeps_bind {A B} (m : M A) (k : A -> M B) :
  keeps_clean m -> (forall a, keeps_clean (k a)) -> keeps_clean (m ≫= k).
Proof.
  intros Hm Hk w H. unfold mbind, M_bind. specialize (Hm w H).
  destruct (m w) as [[a|e] w']; simpl in *; [now apply Hk|exact Hm].
Qed.

Lemma keeps_try_except {A} (body : M A) (handler : Exception -> M A) :
  keeps_clean body -> (forall e, keeps_clean (handler e)) ->
  keeps_clean (try_except body handler).
Proof.
  intros Hb Hh w H. unfold try_except. specialize (Hb w H).
  destruct (body w) as [[a|e] w']; simpl in *; [exact Hb|now apply Hh].
Qed.

Lemma keeps_emit (ev : Event) : keeps_clean (emit ev).
Proof. intros w H. exact H. Qed.

Lemma keeps_lift {A} (r : Result A) : keeps_clean (lift r).
Proof. intros w H. exact H. Qed.

Lemma keeps_get_fs : keeps_clean get_fs.
Proof. intros w H. exact H. Qed.

Lemma keeps_now (env : Env) : keeps_clean (now env).
Proof. intros w H. exact H. Qed.

Lemma keeps_request (env : Env) {A} (r : Request) (answer : nat -> Result A) :
  keeps_clean (request r answer).
Proof. intros w H. exact H. Qed.

Lemma keeps_for_each {A S} (step : S -> A -> M S) (acc : S) (xs : list A) :
  (forall acc x, keeps_clean (step acc x)) -> keeps_clean (for_each step acc xs).
Proof.
  intros Hstep. revert acc. induction xs as [|x xs IH]; intros acc; simpl.
  - apply keeps_ret.
  - apply keeps_bind; [apply Hstep|]. intros acc'. apply IH.
Qed.

Lemma keeps_attempts_loop {A} (body : nat -> M (Flow A)) (attempts : list nat) :
  (forall attempt, keeps_clean (body attempt)) ->
  keeps_clean (attempts_loop body attempts).
Proof.
  intros Hbody. induction attempts as [|a rest IH]; simpl.
  - apply keeps_ret.
  - apply keeps_bind; [apply Hbody|]. intros [| |r]; [exact IH|apply keeps_ret..].
Qed.

(** The loop of [save_ticker_data] on its own. *)
Lemma save_ticker_data_clean
    (ok : string -> string -> DataFrame -> bool) (store : FS) (ticker : string)
    (data : gmap string (option DataFrame)) (data_dir : string) :
  no_empty_table store ->
  no_empty_table (snd (save_ticker_data ok store ticker data data_dir)).
Proof.
  intros Hinv dir data_type df Hread.
  unfold save_ticker_data, get_ticker_dir in Hread.
  apply save_loop_files in Hread as [Hread|(df' & Heq & _ & _ & Hne)].
  - rewrite read_makedirs in Hread. exact (Hinv _ _ _ Hread).
  - inversion Heq; subst. exact Hne.
Qed.

Lemma keeps_save (env : Env) (ticker : string) (data : gmap string DataFrame)
    (data_dir : string) :
  keeps_clean (save env ticker data data_dir).
Proof.
  intros w H. unfold save.
  pose proof (save_ticker_data_clean (to_parquet_ok env) (fs w) ticker
                (Some <$> data) data_dir H) as Hc.
  destruct (save_ticker_data _ _ _ _ _) as [ok fs']. exact Hc.
Qed.

End KeepsClean.

(** One step of a structural proof of [keeps_clean]. *)
Ltac keeps_step :=
  first
    [ apply keeps_ret
    | apply keeps_emit
    | apply keeps_lift
    | apply keeps_get_fs
    | apply keeps_now
    | apply keeps_request
    | apply keeps_save
    | apply keeps_bind; [|intros ?]
    | apply keeps_try_except; [|intros ?]
    | apply keeps_for_each; intros ? ?
    | apply keeps_attempts_loop; intros ?
    | match goal with
      | |- keeps_clean (if ?b then _ else _) => destruct b
      | |- keeps_clean (match ?x with _ => _ end) => destruct x
      | |- keeps_clean (let '(_, _) := ?x in _) => destruct x
      end ].

Ltac keeps := repeat keeps_step.

Section KeepsCleanFetcher.

Variable env : Env.

Lemma keeps_fetch_fundamentals ticker result :
  keeps_clean (fetch_fundamentals env ticker result).
Proof.
  unfold fetch_fundamentals, fetch_info, fetch_financials, fetch_balance_sheet,
    fetch_cashflow, fetch_earnings, yf_info, yf_statement, pause, sleep, log.
  keeps.
Qed.

Lemma keeps_fetch_with_retry ticker q data_dir max_retries force_refresh :
  keeps_clean (fetch_with_retry env ticker q data_dir max_retries force_refresh).
Proof.
  unfold fetch_with_retry, fetch_with_retry_loop, fetch_with_retry_attempt,
    yf_history, pause, sleep, log.
  repeat first [apply keeps_fetch_fundamentals | keeps_step].
Qed.

Lemma keeps_fetch_batch_price_data tickers q max_retries :
  keeps_clean (fetch_batch_price_data env tickers q max_retries).
Proof.
  unfold fetch_batch_price_data, fetch_batch_attempt, yf_download, pause, sleep, log.
  keeps.
Qed.

Lemma keeps_fetch_data_for_tickers
    tickers q data_dir max_retries force_refresh batch_size daily_limit :
  keeps_clean (fetch_data_for_tickers env tickers q data_dir max_retries force_refresh
                                      batch_size daily_limit).
Proof.
  unfold fetch_data_for_tickers, process_day, between_days, process_batch,
    process_ticker, fetch_individually, pause, sleep, log.
  repeat first [ apply keeps_fetch_fundamentals
               | apply keeps_fetch_with_retry
               | apply keeps_fetch_batch_price_data
               | keeps_step ].
Qed.

Lemma keeps_fetch_data_from_date
    tickers start_date end_date interval prepost actions data_dir
    max_retries batch_size daily_limit :
  keeps_clean (fetch_data_from_date env tickers start_date end_date interval prepost
                                    actions data_dir max_retries batch_size daily_limit).
Proof.
  unfold fetch_data_from_date, date_day, between_days, date_batch, date_fallback,
    date_fallback_attempt, store_ticker, keep_tables, yf_download, yf_history,
    pause, sleep, log.
  keeps.
Qed.

Lemma keeps_update_ticker_data ticker data_dir end_date interval :
  keeps_clean (update_ticker_data env ticker data_dir end_date interval).
Proof.
  unfold update_ticker_data, log.
  repeat first [apply keeps_fetch_data_from_date | keeps_step].
Qed.

End KeepsCleanFetcher.


(** C10.  [save_ticker_data] writes no empty table: the file of a data
    type whose entry is [None] or an empty table is left exactly as it
    was; whatever file is in the store afterwards was there before or is a
    non-empty table of [data], written under the ticker directory; a store
    without empty tables stays one, under [save_ticker_data] and under
    every operation that persists through it ([fetch_with_retry],
    [fetch_data_for_tickers], [fetch_data_from_date],
    [update_ticker_data]). *)
Theorem save_ticker_data_skips_empty
    (to_parquet_ok : string -> string -> DataFrame -> bool)
    (fs : FS) (ticker : string) (data : gmap string (option DataFrame))
    (data_dir : string) :
  let ticker_dir := path_join data_dir ticker in
  let fs' := snd (save_ticker_data to_parquet_ok fs ticker data data_dir) in
  (forall data_type,
      data !! data_type = Some None
      \/ (exists df, data !! data_type = Some (Some df) /\ Pd.empty df = true) ->
      read_file fs' ticker_dir data_type = read_file fs ticker_dir data_type)
  /\ (forall dir data_type f,
        read_file fs' dir data_type = Some f ->
        read_file fs dir data_type = Some f
        \/ exists df, f = Parquet df /\ dir = ticker_dir
                      /\ data !! data_type = Some (Some df) /\ Pd.empty df = false)
  /\ (no_empty_table fs -> no_empty_table fs')
  /\ (forall env ticker q dir max_retries force_refresh,
        keeps_clean (fetch_with_retry env ticker q dir max_retries force_refresh))
  /\ (forall env tickers q dir max_retries force_refresh batch_size daily_limit,
        keeps_clean (fetch_data_for_tickers env tickers q dir max_retries force_refresh
                                            batch_size daily_limit))
  /\ (forall env tickers start_date end_date interval prepost actions dir
              max_retries batch_size daily_limit,
        keeps_clean (fetch_data_from_date env tickers start_date end_date interval
                                          prepost actions dir max_retries batch_size
                                          daily_limit))
  /\ (forall env end_date interval,
        keeps_clean (update_ticker_data env ticker data_dir end_date interval)).
Proof.
  intros ticker_dir fs'.
  assert (Hfiles : forall dir data_type f,
             read_file fs' dir data_type = Some f ->
             read_file fs dir data_type = Some f
             \/ exists df, f = Parquet df /\ dir = ticker_dir
                           /\ data !! data_type = Some (Some df) /\ Pd.empty df = false).
  { intros dir data_type f H. subst fs'. unfold save_ticker_data, get_ticker_dir in H.
    apply save_loop_files in H as [H|(df & -> & -> & Hs)].
    - left. now rewrite read_makedirs in H.
    - right. exists df. apply saved_in_data in Hs. tauto. }
  split; [|split; [|split; [|split; [|split; [|split]]]]].
  - intros data_type Hskip. subst fs'. unfold save_ticker_data, get_ticker_dir.
    rewrite save_loop_untouched; [apply read_makedirs|].
    intros _ df [Hlook Hne]%saved_in_data.
    destruct Hskip as [Hnone|(df' & Hsome & Hempty)]; congruence.
  - exact Hfiles.
  - intros Hinv dir data_type df Hread.
    apply Hfiles in Hread as [Hread|(df' & [= ->] & _ & _ & Hne)]; [|exact Hne].
    exact (Hinv _ _ _ Hread).
  - intros. apply keeps_fetch_with_retry.
  - intros. apply keeps_fetch_data_for_tickers.
  - intros. apply keeps_fetch_data_from_date.
  - intros. apply keeps_update_ticker_data.
Qed.

Lemma save_ticker_data_skips_empty_witness :
  read_file (snd (save_ticker_data (fun _ _ _ => true) stored_before "AAPL"
                                   partial_result "data"))
            (path_join "data" "AAPL") "dividends"
  = read_file stored_before (path_join "data" "AAPL") "dividends"
  /\ read_file (snd (save_ticker_data (fun _ _ _ => true) stored_before "AAPL"
                                      partial_result "data"))
               (path_join "data" "AAPL") "splits"
     = read_file stored_before (path_join "data" "AAPL") "splits".
Proof.
  pose proof (save_ticker_data_skips_empty
                (fun _ _ _ => true) stored_before "AAPL" partial_result "data")
    as (Hskip & _).
  split.
  - apply (Hskip "dividends").
    right. exists (prices [] 0). split; reflexivity.
  - apply (Hskip "splits"). left. reflexivity.
Defined.

Example save_keeps_stored_dividends :
  read_file (snd (save_ticker_data (fun _ _ _ => true) stored_before "AAPL"
                                   partial_result "data"))
            "data/AAPL" "dividends" = Some (Parquet (closes [2] 1))
  /\ read_file (snd (save_ticker_data (fun _ _ _ => true) stored_before "AAPL"
                                      partial_result "data"))
               "data/AAPL" "ohlcv" = Some (Parquet (closes [4; 5] 200)).
Proof. split; vm_compute; reflexivity. Qed.


(** ** No exception leaves the fetcher *)

Section NeverRaises.

Lemma safe_ret {A} (a : A) : never_raises (mret a).
Proof. intros w. now exists a, w. Qed.

Lemma safe_bind {A B} (m : M A) (k : A -> M B) :
  never_raises m -> (forall a, never_raises (k a)) -> never_raises (m ≫= k).
Proof.
  intros Hm Hk w. destruct (Hm w) as (a & w1 & Hrun).
  destruct (Hk a w1) as (b & w2 & Hrun'). exists b, w2.
  unfold mbind, M_bind. now rewrite Hrun.
Qed.

(** A handler that does not raise makes the whole [try] safe, whatever
    its body does. *)
Lemma safe_try_except {A} (body : M A) (handler : Exception -> M A) :
  (forall e, never_raises (handler e)) -> never_raises (try_except body handler).
Proof.
  intros Hh w. unfold try_except.
  destruct (body w) as [[a|e] w1]; [now exists a, w1|apply Hh].
Qed.

Lemma safe_emit (ev : Event) : never_raises (emit ev).
Proof. intros w. now eexists _, _. Qed.

Lemma safe_get_fs : never_raises get_fs.
Proof. intros w. now eexists _, _. Qed.

Lemma safe_now (env : Env) : never_raises (now env).
Proof. intros w. now eexists _, _. Qed.

Lemma safe_save (env : Env) (ticker : string) (data : gmap string DataFrame)
    (data_dir : string) :
  never_raises (save env ticker data data_dir).
Proof.
  intros w. unfold save. destruct (save_ticker_data _ _ _ _ _) as [ok fs1].
  now eexists _, _.
Qed.

Lemma safe_for_each {A S} (step : S -> A -> M S) (acc : S) (xs : list A) :
  (forall acc x, never_raises (step acc x)) -> never_raises (for_each step acc xs).
Proof.
  intros Hstep. revert acc. induction xs as [|x xs IH]; intros acc; simpl.
  - apply safe_ret.
  - apply safe_bind; [apply Hstep|]. intros acc1. apply IH.
Qed.

Lemma safe_attempts_loop {A} (body : nat -> M (Flow A)) (attempts : list nat) :
  (forall attempt, never_raises (body attempt)) ->
  never_raises (attempts_loop body attempts).
Proof.
  intros Hbody. induction attempts as [|a rest IH]; simpl.
  - apply safe_ret.
  - apply safe_bind; [apply Hbody|]. intros [| |r]; [exact IH|apply safe_ret..].
Qed.

Lemma safe_lift {A} (a : A) : never_raises (lift (Ok a)).
Proof. intros w. now exists a, w. Qed.

(** Only a chunk size of zero makes [chunk_list] raise. *)
Lemma safe_chunk_list {A} (items : list A) (chunk_size : Z) :
  chunk_size <> 0 -> never_raises (lift (chunk_list items chunk_size)).
Proof.
  intros Hnz w. unfold lift, chunk_list, Py.range.
  destruct (Z.eqb_spec chunk_size 0); [contradiction|]. now eexists _, _.
Qed.

End NeverRaises.

(** One step of a structural proof of [never_raises]. *)
Ltac safe_step :=
  first
    [ apply safe_ret
    | apply safe_emit
    | apply safe_lift
    | apply safe_get_fs
    | apply safe_now
    | apply safe_save
    | apply safe_try_except; intros ?
    | apply safe_bind; [|intros ?]
    | apply safe_for_each; intros ? ?
    | apply safe_attempts_loop; intros ?
    | match goal with
      | |- never_raises (if ?b then _ else _) => destruct b
      | |- never_raises (match ?x with _ => _ end) => destruct x
      | |- never_raises (let '(_, _) := ?x in _) => destruct x
      end ].

Section NeverRaisesFetcher.

Variable env : Env.

Lemma safe_fetch_with_retry_loop ticker q data_dir max_retries :
  never_raises (fetch_with_retry_loop env ticker q data_dir max_retries).
Proof.
  unfold fetch_with_retry_loop, fetch_with_retry_attempt, pause, sleep, log.
  repeat safe_step.
Qed.

(** [fetch_with_retry] returns whenever its freshness check answers. *)
Lemma fetch_with_retry_returns ticker q data_dir max_retries force_refresh w :
  cache_answers env data_dir force_refresh (fs w) ticker ->
  exists a w', fetch_with_retry env ticker q data_dir max_retries force_refresh w
               = (Ok a, w').
Proof.
  intros Hans. destruct (Hans (length (trace w))) as [valid Hvalid].
  unfold fetch_with_retry, now, get_fs, lift. unfold mbind at 1 2 3, M_bind. simpl.
  rewrite Hvalid. destruct valid.
  - now eexists _, _.
  - apply safe_fetch_with_retry_loop.
Qed.

(** Without a data directory, or with a forced refresh, no freshness
    check is made. *)
Lemma safe_fetch_with_retry ticker q data_dir max_retries force_refresh :
  truthy data_dir && negb force_refresh = false ->
  never_raises (fetch_with_retry env ticker q data_dir max_retries force_refresh).
Proof.
  intros Hoff w. apply fetch_with_retry_returns. intros n. exists false.
  unfold cache_check. now rewrite Hoff.
Qed.

Lemma safe_fetch_batch_price_data tickers q max_retries :
  never_raises (fetch_batch_price_data env tickers q max_retries).
Proof.
  unfold fetch_batch_price_data, fetch_batch_attempt, pause, sleep, log.
  repeat safe_step.
Qed.

Lemma safe_fetch_data_for_tickers
    tickers q data_dir max_retries force_refresh batch_size daily_limit :
  truthy data_dir && negb force_refresh = false ->
  batch_size <> 0 -> daily_limit <> 0 ->
  never_raises (fetch_data_for_tickers env tickers q data_dir max_retries force_refresh
                                       batch_size daily_limit).
Proof.
  intros Hoff Hb Hd.
  unfold fetch_data_for_tickers, process_day, between_days, process_batch,
    process_ticker, fetch_individually, batch_cache_check, pause, sleep, log.
  rewrite Hoff.
  repeat first [ apply safe_fetch_with_retry; exact Hoff
               | apply safe_fetch_batch_price_data
               | apply safe_chunk_list; assumption
               | safe_step ].
Qed.


End NeverRaisesFetcher.


(** ** Exhausted retries *)

Lemma calls_of_retry (ticker : string) (q : Query) (attempts : list nat) :
  calls_of (flat_map (retry_events ticker q) attempts)
  = replicate (length attempts) (History ticker q).
Proof. induction attempts as [|a rest IH]; simpl; [reflexivity|]. now rewrite <- IH. Qed.

Lemma sleeps_of_retry (ticker : string) (q : Query) (attempts : list nat) :
  sleeps_of (flat_map (retry_events ticker q) attempts)
  = map (fun attempt => backoff attempt 3) attempts.
Proof. induction attempts as [|a rest IH]; simpl; [reflexivity|]. now rewrite <- IH. Qed.

Lemma calls_of_batch (q : Query) (tickers : list string) (attempts : list nat) :
  calls_of (flat_map (batch_events q tickers) attempts)
  = replicate (length attempts) (Download tickers q).
Proof. induction attempts as [|a rest IH]; simpl; [reflexivity|]. now rewrite <- IH. Qed.

Lemma sleeps_of_batch (q : Query) (tickers : list string) (attempts : list nat) :
  sleeps_of (flat_map (batch_events q tickers) attempts)
  = map (fun attempt => backoff attempt 5) attempts.
Proof. induction attempts as [|a rest IH]; simpl; [reflexivity|]. now rewrite <- IH. Qed.

(** C2.  When the provider answers every request with the rate-limit
    signal: [fetch_with_retry] (the cache not answering) and
    [fetch_batch_price_data] make [max_retries] requests, sleep the
    back-off after each, and return an empty map without raising and
    without touching the store; [fetch_data_for_tickers] returns without
    raising after every ticker of the list has had its [max_retries]
    requests of its own.  Whatever the provider answers,
    [fetch_batch_price_data] never raises, [fetch_with_retry] returns
    whenever its freshness check, which is made outside the [try], gives
    an answer, and [fetch_data_for_tickers], when it makes no freshness
    check (no data directory, or a forced refresh), raises only for a batch
    size or daily limit of zero. *)
Theorem rate_limit_exhaustion_is_soft
    (env : Env) (q : Query) (data_dir : option string)
    (max_retries : Z) (force_refresh : bool) :
  (history_rate_limited env ->
   forall ticker w,
     cache_unused env data_dir force_refresh (fs w) ticker ->
     exists tr,
       runs (fetch_with_retry env ticker q data_dir max_retries force_refresh) w ∅ tr
       /\ calls_of tr = replicate (Z.to_nat max_retries) (History ticker q)
       /\ sleeps_of tr = map (fun attempt => backoff attempt 3) (range_n max_retries))
  /\ (download_rate_limited env ->
      forall tickers w,
        tickers <> [] ->
        exists tr,
          runs (fetch_batch_price_data env tickers q max_retries) w ∅ tr
          /\ calls_of tr = replicate (Z.to_nat max_retries) (Download tickers q)
          /\ sleeps_of tr = map (fun attempt => backoff attempt 5) (range_n max_retries))
  /\ (history_rate_limited env -> download_rate_limited env ->
      forall tickers batch_size daily_limit w,
        0 < batch_size -> 0 < daily_limit ->
        (forall ticker, ticker ∈ tickers ->
                        cache_unused env data_dir force_refresh (fs w) ticker) ->
        exists order tr,
          Permutation order tickers
          /\ runs (fetch_data_for_tickers env tickers q data_dir max_retries force_refresh
                                          batch_size daily_limit) w ∅ tr
          /\ history_calls tr
             = flat_map (fun ticker => replicate (Z.to_nat max_retries) ticker) order)
  /\ (forall ticker w,
        cache_answers env data_dir force_refresh (fs w) ticker ->
        exists result w',
          fetch_with_retry env ticker q data_dir max_retries force_refresh w
          = (Ok result, w'))
  /\ (forall tickers, never_raises (fetch_batch_price_data env tickers q max_retries))
  /\ (truthy data_dir && negb force_refresh = false ->
      forall tickers batch_size daily_limit,
        batch_size <> 0 -> daily_limit <> 0 ->
        never_raises (fetch_data_for_tickers env tickers q data_dir max_retries
                                             force_refresh batch_size daily_limit)).
Proof.
  split; [|split; [|split; [|split; [|split]]]].
  - intros Hhist ticker w Hcache. eexists. split.
    + now apply fetch_with_retry_rate_limited.
    + unfold calls_of, sleeps_of. rewrite !omap_app. fold calls_of sleeps_of.
      rewrite calls_of_retry, sleeps_of_retry. simpl. rewrite !app_nil_r.
      unfold range_n. now rewrite length_seq.
  - intros Hdown tickers w Hne. eexists. split.
    + now apply fetch_batch_price_data_rate_limited.
    + unfold calls_of, sleeps_of. rewrite !omap_app. fold calls_of sleeps_of.
      rewrite calls_of_batch, sleeps_of_batch. simpl. rewrite !app_nil_r.
      unfold range_n. now rewrite length_seq.
  - intros Hhist Hdown tickers batch_size daily_limit w Hb Hd Hcache.
    destruct (fetch_data_for_tickers_attempts env q data_dir max_retries force_refresh
                Hhist Hdown tickers batch_size daily_limit w Hb Hd Hcache)
      as (tr & Hrun & Hcalls).
    exists (run_order env data_dir force_refresh (fs w) tickers), tr.
    split; [now apply run_order_perm|]. split; assumption.
  - intros ticker w. apply fetch_with_retry_returns.
  - intros tickers. apply safe_fetch_batch_price_data.
  - intros Hoff tickers batch_size daily_limit Hb Hd.
    now apply safe_fetch_data_for_tickers.
Qed.

Lemma rate_limit_exhaustion_is_soft_witness :
  (exists tr,
      runs (fetch_with_retry rate_limiting_env "AAPL" max_daily None 3 false)
           empty_world ∅ tr
      /\ calls_of tr = replicate (Z.to_nat 3) (History "AAPL" max_daily)
      /\ sleeps_of tr = map (fun attempt => backoff attempt 3) (range_n 3))
  /\ (exists tr,
        runs (fetch_batch_price_data rate_limiting_env ["AAPL"; "MSFT"] max_daily 3)
             empty_world ∅ tr
        /\ calls_of tr = replicate (Z.to_nat 3) (Download ["AAPL"; "MSFT"] max_daily)
        /\ sleeps_of tr = map (fun attempt => backoff attempt 5) (range_n 3))
  /\ (exists order tr,
        Permutation order ["AAPL"; "MSFT"; "GOOG"]
        /\ runs (fetch_data_for_tickers rate_limiting_env ["AAPL"; "MSFT"; "GOOG"]
                   max_daily None 3 false 2 400) empty_world ∅ tr
        /\ history_calls tr
           = flat_map (fun ticker => replicate (Z.to_nat 3) ticker) order)
  /\ never_raises (fetch_data_for_tickers rate_limiting_env ["AAPL"; "MSFT"; "GOOG"]
                     max_daily None 3 false 2 400).
Proof.
  assert (Hhist : history_rate_limited rate_limiting_env).
  { intros n ticker q. exists too_many_requests. split; reflexivity. }
  assert (Hdown : download_rate_limited rate_limiting_env).
  { intros n tickers q. exists too_many_requests. split; reflexivity. }
  pose proof (rate_limit_exhaustion_is_soft rate_limiting_env max_daily None 3 false)
    as (Hone & Hbatch & Hall & _ & _ & Hsafe).
  split; [|split; [|split]].
  - apply (Hone Hhist "AAPL" empty_world). intros n. reflexivity.
  - apply (Hbatch Hdown ["AAPL"; "MSFT"] empty_world). discriminate.
  - apply (Hall Hhist Hdown ["AAPL"; "MSFT"; "GOOG"] 2 400 empty_world); [lia|lia|].
    intros ticker _ n. reflexivity.
  - apply (Hsafe eq_refl ["AAPL"; "MSFT"; "GOOG"] 2 400); lia.
Defined.


(** C9, amended.  After a failure that is not the rate-limit signal:
    [fetch_with_retry] logs it, sleeps [REQUEST_DELAY] and goes on with
    the attempts that are left; [fetch_batch_price_data] logs it, sleeps
    [BATCH_DELAY] and goes on with the attempts that are left; the
    per-symbol fallback of [fetch_data_from_date] logs it and makes no
    further attempt for that symbol, which stays out of the result. *)
Theorem other_error_policy (env : Env) :
  (forall ticker q data_dir attempt rest w e,
      history (remote env) (S (length (trace w))) ticker q = Raise e ->
      is_rate_limited e = false ->
      attempts_loop (fetch_with_retry_attempt env ticker q data_dir) (attempt :: rest) w
      = attempts_loop (fetch_with_retry_attempt env ticker q data_dir) rest
          (mkWorld (fs w)
             (trace w ++
                [ Logged INFO "Fetching data for {ticker} (attempt {attempt+1}/{max_retries})";
                  Called (History ticker q);
                  Logged ERROR "Error fetching data for {ticker}: {e}";
                  Slept (mkDuration REQUEST_DELAY 0) ])))
  /\ (forall tickers q attempt rest w e,
        download (remote env) (S (length (trace w))) tickers q = Raise e ->
        is_rate_limited e = false ->
        attempts_loop (fetch_batch_attempt env tickers q) (attempt :: rest) w
        = attempts_loop (fetch_batch_attempt env tickers q) rest
            (mkWorld (fs w)
               (trace w ++
                  [ Logged INFO
                      "Fetching batch price data for {len(tickers)} tickers (attempt {attempt+1}/{max_retries})";
                    Called (Download tickers q);
                    Logged ERROR "Error fetching batch data: {e}";
                    Slept (mkDuration BATCH_DELAY 0) ])))
  /\ (forall ticker q data_dir max_retries result w e,
        0 < max_retries ->
        history (remote env) (length (trace w)) ticker q = Raise e ->
        is_rate_limited e = false ->
        runs (date_fallback env q data_dir max_retries result ticker) w result
             [ Called (History ticker q);
               Logged ERROR "Error fetching data for {ticker}: {inner_e}";
               Slept (mkDuration REQUEST_DELAY 0) ]).
Proof.
  split; [|split].
  - intros ticker q data_dir attempt rest w e Hraise Hrl.
    apply attempts_loop_next.
    now apply fetch_with_retry_attempt_other_error with e.
  - intros tickers q attempt rest w e Hraise Hrl.
    apply attempts_loop_next.
    now apply fetch_batch_attempt_other_error with e.
  - intros ticker q data_dir max_retries result w e Hpos Hraise Hrl.
    unfold date_fallback, range_n.
    destruct (Z.to_nat max_retries) as [|n] eqn:Hn; [lia|].
    rewrite <- cons_seq.
    apply (runs_bind _ _ _ None [_; _] result [_]).
    + apply attempts_loop_break.
      now apply date_fallback_attempt_other_error with e.
    + apply (runs_bind _ _ _ tt [_] result []); [apply runs_emit|apply runs_ret].
Qed.

Lemma other_error_policy_witness :
  attempts_loop (fetch_with_retry_attempt unreachable_env "AAPL" max_daily None)
                [0; 1; 2]%nat empty_world
  = attempts_loop (fetch_with_retry_attempt unreachable_env "AAPL" max_daily None)
      [1; 2]%nat
      (mkWorld ∅
         ([] ++
            [ Logged INFO "Fetching data for {ticker} (attempt {attempt+1}/{max_retries})";
              Called (History "AAPL" max_daily);
              Logged ERROR "Error fetching data for {ticker}: {e}";
              Slept (mkDuration REQUEST_DELAY 0) ]))
  /\ attempts_loop (fetch_batch_attempt unreachable_env ["AAPL"; "MSFT"] max_daily)
                   [0; 1; 2]%nat empty_world
     = attempts_loop (fetch_batch_attempt unreachable_env ["AAPL"; "MSFT"] max_daily)
         [1; 2]%nat
         (mkWorld ∅
            ([] ++
               [ Logged INFO
                   "Fetching batch price data for {len(tickers)} tickers (attempt {attempt+1}/{max_retries})";
                 Called (Download ["AAPL"; "MSFT"] max_daily);
                 Logged ERROR "Error fetching batch data: {e}";
                 Slept (mkDuration BATCH_DELAY 0) ]))
  /\ runs (date_fallback unreachable_env max_daily None 5 ∅ "AAPL") empty_world ∅
          [ Called (History "AAPL" max_daily);
            Logged ERROR "Error fetching data for {ticker}: {inner_e}";
            Slept (mkDuration REQUEST_DELAY 0) ].
Proof.
  pose proof (other_error_policy unreachable_env) as (Hone & Hbatch & Hdate).
  split; [|split].
  - apply (Hone "AAPL" max_daily None 0%nat [1; 2]%nat empty_world connection_reset);
      reflexivity.
  - apply (Hbatch ["AAPL"; "MSFT"] max_daily 0%nat [1; 2]%nat empty_world connection_reset);
      reflexivity.
  - apply (Hdate "AAPL" max_daily None 5 ∅ empty_world connection_reset);
      [lia|reflexivity|reflexivity].
Defined.


(** ** A full update cycle *)

(** The store holds days 1 to 5 of [X]; the update asks for day 6 to now
    and is answered with days 4 to 8; afterwards the store holds days 1 to
    8 once each, days 4 and 5 as fetched. *)
Example update_cycle_merges_overlap :
  let w := mkWorld (store_with "data/X" "ohlcv" (closes [1; 2; 3; 4; 5] 100)) [] in
  let after := update_ticker_data overlapping_env "X" "data" None "1d" w in
  fst after = Ok true
  /\ calls_of (trace (snd after))
     = [ Download ["X"]
           (mkQuery (Between (Dt (day_us 6)) (Dt (day_us 10))) "1d" false true) ]
  /\ read_file (fs (snd after)) "data/X" "ohlcv"
     = Some (Parquet (merge_frames (closes [1; 2; 3; 4; 5] 100)
                                   (closes [4; 5; 6; 7; 8] 200))).
Proof. vm_compute. repeat split. Qed.


(** ** The store: what a save leaves and what a load finds *)

Section StoreFacts.

Variable to_parquet_ok : string -> string -> DataFrame -> bool.

(** The flag of the loop of [save_ticker_data]: it stays true as long as
    every table handed to [to_parquet] is written. *)
Lemma save_loop_flag (items : list (string * option DataFrame))
    (dir : string) (success : bool) (fs : FS) :
  fst (foldl (save_ticker_step to_parquet_ok dir) (success, fs) items) =
    success
    && forallb (fun item : string * option DataFrame =>
                  match snd item with
                  | Some df => Pd.empty df || to_parquet_ok dir (fst item) df
                  | None => true
                  end) items.
Proof.
  revert success fs. induction items as [|[data_type odf] items IH];
    intros success fs; simpl.
  - now rewrite andb_true_r.
  - destruct odf as [df|]; [|now rewrite IH].
    destruct (Pd.empty df); [now rewrite IH|].
    unfold save_dataframe_to_parquet.
    destruct (to_parquet_ok dir data_type df); simpl; rewrite IH.
    + reflexivity.
    + now rewrite andb_false_r.
Qed.

(** A file stays as it was unless a table of its data type is written. *)
Lemma save_loop_kept (items : list (string * option DataFrame))
    (dir : string) (success : bool) (fs : FS) (d k : string) :
  (d = dir -> forall df, saved items k df -> to_parquet_ok dir k df = false) ->
  read_file (snd (foldl (save_ticker_step to_parquet_ok dir) (success, fs) items)) d k
    = read_file fs d k.
Proof.
  revert success fs. induction items as [|[data_type odf] items IH];
    intros success fs Hns; simpl; [reflexivity|].
  assert (Hns' : d = dir -> forall df, saved items k df ->
                 to_parquet_ok dir k df = false).
  { intros Hd df [Hin Hne]. apply (Hns Hd df). split; [|exact Hne].
    apply elem_of_cons. now right. }
  destruct odf as [df|]; [|now apply IH].
  destruct (Pd.empty df) eqn:Hempty; [now apply IH|].
  unfold save_dataframe_to_parquet.
  destruct (to_parquet_ok dir data_type df) eqn:Hok; [|now apply IH].
  rewrite IH by exact Hns'. rewrite (read_write_file to_parquet_ok), read_makedirs.
  rewrite decide_False; [reflexivity|].
  intros [-> ->].
  enough (to_parquet_ok dir data_type df = false) by congruence.
  apply Hns; [reflexivity|]. split; [|exact Hempty]. apply elem_of_cons. now left.
Qed.

(** A non-empty table whose write goes through is the content of its
    file after the loop, when no other item has its data type. *)
Lemma save_loop_written (items : list (string * option DataFrame))
    (dir : string) (success : bool) (fs : FS) (k : string) (df : DataFrame) :
  NoDup (map fst items) ->
  (k, Some df) ∈ items -> Pd.empty df = false -> to_parquet_ok dir k df = true ->
  read_file (snd (foldl (save_ticker_step to_parquet_ok dir) (success, fs) items)) dir k
    = Some (Parquet df).
Proof.
  revert success fs. induction items as [|[data_type odf] items IH];
    intros success fs Hnd Hin Hne Hok.
  - now apply elem_of_nil in Hin.
  - apply NoDup_cons in Hnd as [Hfresh Hnd].
    apply elem_of_cons in Hin as [Heq|Hin].
    + inversion Heq; subst data_type odf. simpl. rewrite Hne.
      unfold save_dataframe_to_parquet. rewrite Hok.
      rewrite save_loop_untouched.
      * rewrite (read_write_file to_parquet_ok). now rewrite decide_True.
      * intros _ df' [Hin' _]. apply Hfresh.
        apply list_elem_of_In, in_map_iff. exists (k, Some df').
        split; [reflexivity|now apply list_elem_of_In].
    + change (foldl (save_ticker_step to_parquet_ok dir) (success, fs)
                ((data_type, odf) :: items))
        with (foldl (save_ticker_step to_parquet_ok dir)
                (save_ticker_step to_parquet_ok dir (success, fs) (data_type, odf))
                items).
      destruct (save_ticker_step to_parquet_ok dir (success, fs) (data_type, odf))
        as [flag fs1]. now apply IH.
Qed.

(** The directories after [makedirs]: those there before, with what they
    held, the directory itself and the ones above it. *)
Lemma makedirs_dirs (fs : FS) (dir d : string) :
  (is_Some (fs !! d) -> makedirs fs dir !! d = fs !! d)
  /\ (is_Some (makedirs fs dir !! d) <->
      is_Some (fs !! d) \/ d = dir \/ d ∈ ancestors dir).
Proof.
  rewrite makedirs_lookup. split.
  - intros [files ->]. reflexivity.
  - destruct (fs !! d) as [files|].
    + split; eauto.
    + destruct (decide (d = dir \/ d ∈ ancestors dir)) as [Hin|Hnin].
      * rewrite bool_decide_eq_true_2 by exact Hin. split; eauto.
      * rewrite bool_decide_eq_false_2 by exact Hnin.
        split; [now intros [? ?]|]. intros [[? [=]]|H]; contradiction.
Qed.

(** The loop makes no directory but [dir] and those above it, and removes
    none. *)
Lemma save_loop_dirs (items : list (string * option DataFrame))
    (dir : string) (success : bool) (fs : FS) (d : string) :
  (is_Some (fs !! d) ->
   is_Some (snd (foldl (save_ticker_step to_parquet_ok dir) (success, fs) items) !! d))
  /\ (is_Some (snd (foldl (save_ticker_step to_parquet_ok dir) (success, fs) items) !! d) ->
      is_Some (fs !! d) \/ d = dir \/ d ∈ ancestors dir).
Proof.
  revert success fs. induction items as [|[data_type odf] items IH];
    intros success fs; simpl; [split; auto|].
  destruct odf as [df|]; [|apply IH].
  destruct (Pd.empty df); [apply IH|].
  unfold save_dataframe_to_parquet.
  destruct (to_parquet_ok dir data_type df); [|apply IH].
  destruct (IH success (write_file (makedirs fs dir) dir data_type (Parquet df)))
    as [IHsome IHnew].
  assert (Hwrite : is_Some (write_file (makedirs fs dir) dir data_type (Parquet df) !! d)
                   <-> is_Some (fs !! d) \/ d = dir \/ d ∈ ancestors dir).
  { unfold write_file. destruct (decide (d = dir)) as [->|Hd].
    - rewrite lookup_insert_eq. split; eauto.
    - rewrite lookup_insert_ne by congruence. apply makedirs_dirs. }
  split.
  - intros Hsome. apply IHsome, Hwrite. now left.
  - intros Hafter. apply IHnew in Hafter as [H|H]; [now apply Hwrite|now right].
Qed.

(** The content of every file after [save_ticker_data]. *)
Lemma save_ticker_data_read (fs : FS) (ticker : string)
    (data : gmap string (option DataFrame)) (data_dir d k : string) :
  read_file (snd (save_ticker_data to_parquet_ok fs ticker data data_dir)) d k =
    if decide (d = path_join data_dir ticker) then
      match data !! k with
      | Some (Some df) =>
          if negb (Pd.empty df) && to_parquet_ok (path_join data_dir ticker) k df
          then Some (Parquet df)
          else read_file fs d k
      | _ => read_file fs d k
      end
    else read_file fs d k.
Proof.
  unfold save_ticker_data, get_ticker_dir.
  set (dir := path_join data_dir ticker).
  assert (Hkeep : (d = dir -> forall df, saved (map_to_list data) k df ->
                             to_parquet_ok dir k df = false) ->
    read_file (snd (foldl (save_ticker_step to_parquet_ok dir)
                          (true, makedirs fs dir) (map_to_list data))) d k
      = read_file fs d k).
  { intros H. rewrite save_loop_kept by exact H. apply read_makedirs. }
  destruct (decide (d = dir)) as [->|Hd]; [|apply Hkeep; contradiction].
  destruct (data !! k) as [[df|]|] eqn:Hk.
  - destruct (Pd.empty df) eqn:Hne; simpl.
    + apply Hkeep. intros _ df' [Hk' Hne']%saved_in_data. congruence.
    + destruct (to_parquet_ok dir k df) eqn:Hok.
      * apply save_loop_written; [apply NoDup_fst_map_to_list| |exact Hne|exact Hok].
        now apply elem_of_map_to_list.
      * apply Hkeep. intros _ df' [Hk' Hne']%saved_in_data. congruence.
  - apply Hkeep. intros _ df' [Hk' _]%saved_in_data. congruence.
  - apply Hkeep. intros _ df' [Hk' _]%saved_in_data. congruence.
Qed.

(** What [load_ticker_data] finds under one data type. *)
Lemma load_loop_lookup (fs : FS) (dir : string) (data_types : list string)
    (acc : gmap string DataFrame) (k : string) :
  foldl (fun result data_type =>
           match load_dataframe_from_parquet fs dir data_type with
           | Some df => <[ data_type := df ]> result
           | None => result
           end) acc data_types !! k =
    if bool_decide (k ∈ data_types)
    then match load_dataframe_from_parquet fs dir k with
         | Some df => Some df
         | None => acc !! k
         end
    else acc !! k.
Proof.
  revert acc. induction data_types as [|t ts IH]; intros acc; simpl; [reflexivity|].
  rewrite IH. destruct (decide (k = t)) as [->|Hkt].
  - rewrite (bool_decide_eq_true_2 (t ∈ t :: ts)) by (apply elem_of_cons; now left).
    destruct (load_dataframe_from_parquet fs dir t) as [df|] eqn:Hload.
    + rewrite lookup_insert_eq. now destruct (bool_decide (t ∈ ts)).
    + now destruct (bool_decide (t ∈ ts)).
  - assert (Hacc : (match load_dataframe_from_parquet fs dir t with
                    | Some df => <[ t := df ]> acc
                    | None => acc
                    end) !! k = acc !! k).
    { destruct (load_dataframe_from_parquet fs dir t); [|reflexivity].
      now rewrite lookup_insert_ne by congruence. }
    rewrite Hacc.
    destruct (decide (k ∈ ts)) as [Hin|Hnin].
    + rewrite !bool_decide_eq_true_2; [reflexivity|apply elem_of_cons; now right|exact Hin].
    + rewrite !bool_decide_eq_false_2; [reflexivity| |exact Hnin].
      intros [?|?]%elem_of_cons; contradiction.
Qed.

Lemma load_ticker_data_lookup (fs : FS) (ticker data_dir : string)
    (data_types : option (list string)) (k : string) :
  load_ticker_data fs ticker data_dir data_types !! k =
    match data_types with
    | Some l =>
        if bool_decide (k ∈ l)
        then load_dataframe_from_parquet fs (path_join data_dir ticker) k
        else None
    | None => load_dataframe_from_parquet fs (path_join data_dir ticker) k
    end.
Proof.
  unfold load_ticker_data.
  destruct (fs !! path_join data_dir ticker) as [dir|] eqn:Hdir.
  - rewrite load_loop_lookup, lookup_empty. destruct data_types as [l|].
    + destruct (bool_decide (k ∈ l)); [|reflexivity].
      now destruct (load_dataframe_from_parquet _ _ k).
    + destruct (load_dataframe_from_parquet _ _ k) as [df|] eqn:Hload.
      * rewrite bool_decide_eq_true_2; [reflexivity|].
        unfold load_dataframe_from_parquet, read_file in Hload.
        rewrite Hdir in Hload. simpl in Hload.
        destruct (dir !! k) as [f|] eqn:Hk; [|discriminate].
        apply list_elem_of_fmap. exists (k, f).
        split; [reflexivity|now apply elem_of_map_to_list].
      * now destruct (bool_decide _).
  - rewrite lookup_empty.
    assert (Hnone : load_dataframe_from_parquet fs (path_join data_dir ticker) k = None).
    { unfold load_dataframe_from_parquet, read_file. now rewrite Hdir. }
    rewrite Hnone. destruct data_types as [l|]; [now destruct (bool_decide _)|reflexivity].
Qed.

End StoreFacts.

(** X1.  Round trip through the store: after [save_ticker_data], loading
    the ticker returns every non-empty table whose write went through as
    it was passed in; under every other data type the load returns what it
    returned before the save. *)
Theorem save_load_round_trip
    (to_parquet_ok : string -> string -> DataFrame -> bool) (fs : FS)
    (ticker : string) (data : gmap string (option DataFrame)) (data_dir : string) :
  let ticker_dir := path_join data_dir ticker in
  let fs' := snd (save_ticker_data to_parquet_ok fs ticker data data_dir) in
  (forall data_type df,
     data !! data_type = Some (Some df) -> Pd.empty df = false ->
     to_parquet_ok ticker_dir data_type df = true ->
     load_ticker_data fs' ticker data_dir None !! data_type = Some df)
  /\ (forall data_type,
        (forall df, data !! data_type = Some (Some df) ->
                    Pd.empty df = true \/ to_parquet_ok ticker_dir data_type df = false) ->
        load_ticker_data fs' ticker data_dir None !! data_type =
          load_ticker_data fs ticker data_dir None !! data_type).
Proof.
  intros ticker_dir fs'. split.
  - intros k df Hk Hne Hok.
    rewrite load_ticker_data_lookup. unfold load_dataframe_from_parquet, fs'.
    rewrite save_ticker_data_read, decide_True by reflexivity.
    rewrite Hk, Hne. fold ticker_dir. now rewrite Hok.
  - intros k Hskip.
    rewrite !load_ticker_data_lookup. unfold load_dataframe_from_parquet, fs'.
    rewrite save_ticker_data_read, decide_True by reflexivity.
    destruct (data !! k) as [[df|]|]; [|reflexivity..].
    fold ticker_dir.
    destruct (Hskip df eq_refl) as [-> | ->]; [reflexivity|].
    now rewrite andb_false_r.
Qed.

(** X2.  [save_ticker_data] returns [True] exactly when the write of every
    non-empty table went through; [None] entries and empty tables never
    make it fail. *)
Theorem save_ticker_data_flag
    (to_parquet_ok : string -> string -> DataFrame -> bool) (fs : FS)
    (ticker : string) (data : gmap string (option DataFrame)) (data_dir : string) :
  fst (save_ticker_data to_parquet_ok fs ticker data data_dir) = true <->
  (forall data_type df,
     data !! data_type = Some (Some df) -> Pd.empty df = false ->
     to_parquet_ok (path_join data_dir ticker) data_type df = true).
Proof.
  unfold save_ticker_data, get_ticker_dir. rewrite save_loop_flag. simpl.
  rewrite forallb_forall. split.
  - intros H k df Hk Hne.
    specialize (H (k, Some df)). simpl in H. rewrite Hne in H. apply H.
    now apply list_elem_of_In, elem_of_map_to_list.
  - intros H [k [df|]] Hin; simpl; [|reflexivity].
    apply list_elem_of_In, elem_of_map_to_list in Hin.
    destruct (Pd.empty df) eqn:Hne; [reflexivity|]. simpl. now apply H.
Qed.

(** X3.  [save_ticker_data] touches one directory only: the directory of
    the ticker exists afterwards, even when nothing was written, and so do
    the directories above it; no file outside the ticker's directory
    changes; no directory disappears, and none appears but the ticker's and
    those above it. *)
Theorem save_ticker_data_one_directory
    (to_parquet_ok : string -> string -> DataFrame -> bool) (fs : FS)
    (ticker : string) (data : gmap string (option DataFrame)) (data_dir : string) :
  let ticker_dir := path_join data_dir ticker in
  let fs' := snd (save_ticker_data to_parquet_ok fs ticker data data_dir) in
  dir_exists fs' ticker_dir = true
  /\ (forall above, above ∈ ancestors ticker_dir -> dir_exists fs' above = true)
  /\ (forall d data_type,
        d <> ticker_dir -> read_file fs' d data_type = read_file fs d data_type)
  /\ (forall d, dir_exists fs d = true -> dir_exists fs' d = true)
  /\ (forall d, dir_exists fs' d = true ->
                dir_exists fs d = true \/ d = ticker_dir \/ d ∈ ancestors ticker_dir).
Proof.
  intros dir fs'.
  assert (Hafter : forall d,
            is_Some (fs' !! d) <-> is_Some (fs !! d) \/ d = dir \/ d ∈ ancestors dir).
  { intros d. unfold fs', save_ticker_data, get_ticker_dir. fold dir.
    destruct (save_loop_dirs to_parquet_ok (map_to_list data) dir true
                (makedirs fs dir) d) as [Hsome Hnew].
    pose proof (makedirs_dirs fs dir d) as [_ Hmk].
    split.
    - intros H. apply Hnew in H as [H|H]; [now apply Hmk|now right].
    - intros H. apply Hsome, Hmk, H. }
  unfold dir_exists. split; [|split; [|split; [|split]]].
  - apply bool_decide_eq_true_2, Hafter. right. now left.
  - intros above Habove. apply bool_decide_eq_true_2, Hafter. right. now right.
  - intros d k Hd. unfold fs'. rewrite (save_ticker_data_read to_parquet_ok).
    fold dir. now rewrite decide_False by exact Hd.
  - intros d Hex. apply bool_decide_eq_true_1 in Hex.
    apply bool_decide_eq_true_2, Hafter. now left.
  - intros d Hex. apply bool_decide_eq_true_1, Hafter in Hex.
    destruct Hex as [Hex|Hex]; [left; now apply bool_decide_eq_true_2|now right].
Qed.

(** X4.  [load_ticker_data] returns, under a data type, the table of its
    parquet file when that file is there and readable and the data type
    was asked for (or none was named); a missing ticker directory, a missing
    file and an unreadable file give no entry. *)
Theorem load_ticker_data_finds
    (fs : FS) (ticker data_dir : string) (data_types : option (list string))
    (data_type : string) (df : DataFrame) :
  load_ticker_data fs ticker data_dir data_types !! data_type = Some df <->
  read_file fs (path_join data_dir ticker) data_type = Some (Parquet df)
  /\ (forall l, data_types = Some l -> data_type ∈ l).
Proof.
  rewrite load_ticker_data_lookup. unfold load_dataframe_from_parquet.
  destruct data_types as [l|].
  - destruct (decide (data_type ∈ l)) as [Hin|Hnin].
    + rewrite bool_decide_eq_true_2 by exact Hin.
      destruct (read_file _ _ _) as [[df'|]|]; split;
        try (intros [H _]; congruence); try discriminate.
      * intros [= ->]. split; [reflexivity|]. now intros l' [= <-].
    + rewrite bool_decide_eq_false_2 by exact Hnin. split; [discriminate|].
      intros [_ H]. destruct Hnin. now apply H.
  - destruct (read_file _ _ _) as [[df'|]|]; split;
      try (intros [H _]; congruence); try discriminate.
    intros [= ->]. split; [reflexivity|discriminate].
Qed.


Lemma save_load_round_trip_witness :
  load_ticker_data
    (snd (save_ticker_data (fun _ _ _ => true) stored_before "AAPL" partial_result "data"))
    "AAPL" "data" None !! "ohlcv" = Some (closes [4; 5] 200)
  /\ load_ticker_data
       (snd (save_ticker_data (fun _ _ _ => true) stored_before "AAPL" partial_result "data"))
       "AAPL" "data" None !! "dividends"
     = load_ticker_data stored_before "AAPL" "data" None !! "dividends".
Proof.
  pose proof (save_load_round_trip
                (fun _ _ _ => true) stored_before "AAPL" partial_result "data")
    as (Hwritten & Hkept).
  split.
  - apply (Hwritten "ohlcv"); reflexivity.
  - apply (Hkept "dividends"). intros df [= <-]. left. reflexivity.
Defined.

(** A save of nothing for a ticker under a nested data directory, on an
    empty disk. *)
Lemma save_ticker_data_one_directory_witness :
  let fs' := snd (save_ticker_data (fun _ _ _ => true) ∅ "AAPL" ∅ "data/SUB") in
  dir_exists fs' "data/SUB/AAPL" = true
  /\ dir_exists fs' "data/SUB" = true
  /\ dir_exists fs' "data" = true
  /\ read_file fs' "data/MSFT" "ohlcv" = None.
Proof.
  pose proof (save_ticker_data_one_directory (fun _ _ _ => true) ∅ "AAPL" ∅ "data/SUB")
    as (Hdir & Habove & Hother & _).
  split; [exact Hdir|]. split; [|split].
  - apply (Habove "data/SUB"). vm_compute. apply elem_of_cons. right.
    apply elem_of_cons. now left.
  - apply (Habove "data"). vm_compute. apply elem_of_cons. now left.
  - rewrite (Hother "data/MSFT" "ohlcv"); [reflexivity|discriminate].
Defined.

(** ** The dates of a stored table *)

Section StoredDates.

(** [index_min] is the least timestamp of the index, if there is one. *)
Lemma index_min_cases (df : DataFrame) :
  match Pd.index_min df with
  | Some m => Num m ∈ Pd.index df /\ (forall t, Num t ∈ Pd.index df -> m <= t)
  | None => forall t, Num t ∉ Pd.index df
  end.
Proof.
  unfold Pd.index_min.
  induction (Pd.index df) as [|l idx IH]; simpl.
  - intros t Ht. now apply elem_of_nil in Ht.
  - destruct (foldr _ None idx) as [m'|]; destruct l as [t|s|a b].
    + destruct IH as [Hin Hlb]. split.
      * destruct (Z.min_spec t m') as [[_ ->]|[_ ->]];
          apply elem_of_cons; [now left|now right].
      * intros t' [Heq|Ht']%elem_of_cons; [inversion Heq; lia|].
        specialize (Hlb _ Ht'). lia.
    + destruct IH as [Hin Hlb]. split; [apply elem_of_cons; now right|].
      intros t' [Heq|Ht']%elem_of_cons; [discriminate|auto].
    + destruct IH as [Hin Hlb]. split; [apply elem_of_cons; now right|].
      intros t' [Heq|Ht']%elem_of_cons; [discriminate|auto].
    + split; [apply elem_of_cons; now left|].
      intros t' [Heq|Ht']%elem_of_cons; [inversion Heq; lia|]. now apply IH in Ht'.
    + intros t' [Heq|Ht']%elem_of_cons; [discriminate|]. now apply IH in Ht'.
    + intros t' [Heq|Ht']%elem_of_cons; [discriminate|]. now apply IH in Ht'.
Qed.

Lemma get_earliest_date_spec (fs : FS) (ticker data_dir data_type : string) :
  get_earliest_date fs ticker data_dir data_type =
    match read_file fs (path_join data_dir ticker) data_type with
    | Some (Parquet df) =>
        match index_type df with
        | DatetimeIndex => Some (to_pydatetime (index_tz df) (Pd.index_min df))
        | _ => None
        end
    | _ => None
    end.
Proof.
  unfold get_earliest_date. rewrite load_one. unfold load_dataframe_from_parquet.
  destruct (read_file _ _ _) as [[df|]|]; reflexivity.
Qed.

(** A cutoff that was computed is [now] less the days. *)
Lemma cutoff_date_value (now max_age_days cutoff : Z) :
  cutoff_date now max_age_days = Ok cutoff ->
  cutoff = now - timedelta_days max_age_days
  /\ cutoff_is_datetime now max_age_days.
Proof.
  unfold cutoff_date, timedelta, datetime_sub, cutoff_is_datetime.
  destruct (Z.ltb_spec 999999999 (Z.abs max_age_days)); [discriminate|]. simpl.
  destruct (Z.ltb_spec (now - timedelta_days max_age_days) DATETIME_MIN);
    [discriminate|].
  destruct (Z.ltb_spec DATETIME_MAX (now - timedelta_days max_age_days));
    [discriminate|].
  intros [= <-]. repeat split; lia.
Qed.

(** What a positive answer of the freshness check tells. *)
Lemma is_cache_valid_true
    (fs : FS) (now : Z) (ticker data_dir data_type : string) (max_age_days : Z) :
  is_cache_valid fs now ticker data_dir data_type max_age_days = Ok true <->
  exists df latest,
    read_file fs (path_join data_dir ticker) data_type = Some (Parquet df)
    /\ index_type df = DatetimeIndex
    /\ index_tz df = false
    /\ Pd.index_max df = Some latest
    /\ cutoff_is_datetime now max_age_days
    /\ now - timedelta_days max_age_days <= latest.
Proof.
  rewrite is_cache_valid_read. split.
  - destruct (read_file _ _ _) as [[df|]|]; [|discriminate..].
    destruct (index_type df) eqn:Hidx; [|discriminate..].
    destruct (cutoff_date now max_age_days) as [cutoff|e] eqn:Hcut; [|discriminate].
    apply cutoff_date_value in Hcut as [-> Hcut]. simpl.
    destruct (index_tz df) eqn:Htz, (Pd.index_max df) as [t|] eqn:Hmax;
      simpl; try discriminate.
    intros [= Hle%Z.leb_le]. exists df, t. auto 10.
  - intros (df & latest & -> & -> & Htz & Hmax & Hcut & Hle).
    rewrite (cutoff_date_ok _ _ Hcut), Htz, Hmax. simpl. f_equal. now apply Z.leb_le.
Qed.

(** A valid cache holds a price table that a load returns. *)
Lemma valid_cache_loads
    (fs : FS) (now : Z) (ticker data_dir : string) (max_age_days : Z) :
  is_cache_valid fs now ticker data_dir "ohlcv" max_age_days = Ok true ->
  exists df,
    read_file fs (path_join data_dir ticker) "ohlcv" = Some (Parquet df)
    /\ load_ticker_data fs ticker data_dir None !! "ohlcv" = Some df.
Proof.
  intros (df & latest & Hread & _)%is_cache_valid_true.
  rewrite load_ticker_data_lookup. unfold load_dataframe_from_parquet.
  rewrite Hread. eauto.
Qed.

End StoredDates.

(** X5.  [get_earliest_date] and [get_latest_date] answer together: both
    give [None] (no readable table, or a table without temporal index),
    both give [NaT] (a table without timestamp), or they give the least and
    the greatest timestamp of the stored table, which bracket every
    timestamp of its index; the two are naive together or carry a time zone
    together. *)
Theorem stored_dates_bracket (fs : FS) (ticker data_dir data_type : string) :
  (get_earliest_date fs ticker data_dir data_type = None <->
   get_latest_date fs ticker data_dir data_type = None)
  /\ (get_earliest_date fs ticker data_dir data_type = Some NaT <->
      get_latest_date fs ticker data_dir data_type = Some NaT)
  /\ (forall lo hi,
        get_earliest_date fs ticker data_dir data_type = Some (Dt lo) ->
        get_latest_date fs ticker data_dir data_type = Some (Dt hi) ->
        exists df,
          read_file fs (path_join data_dir ticker) data_type = Some (Parquet df)
          /\ Num lo ∈ Pd.index df /\ Num hi ∈ Pd.index df
          /\ (forall t, Num t ∈ Pd.index df -> lo <= t <= hi))
  /\ (forall lo hi,
        get_earliest_date fs ticker data_dir data_type = Some (DtAware lo) ->
        get_latest_date fs ticker data_dir data_type = Some (DtAware hi) ->
        exists df,
          read_file fs (path_join data_dir ticker) data_type = Some (Parquet df)
          /\ Num lo ∈ Pd.index df /\ Num hi ∈ Pd.index df
          /\ (forall t, Num t ∈ Pd.index df -> lo <= t <= hi))
  /\ ((exists lo, get_earliest_date fs ticker data_dir data_type = Some (Dt lo)) <->
      (exists hi, get_latest_date fs ticker data_dir data_type = Some (Dt hi))).
Proof.
  rewrite get_earliest_date_spec, get_latest_date_spec.
  destruct (read_file _ _ _) as [[df|]|];
    [|repeat split; intros; try discriminate; destruct H as [? [=]]..].
  destruct (index_type df);
    [|repeat split; intros; try discriminate; destruct H as [? [=]]..].
  pose proof (index_min_cases df) as Hmin. pose proof (index_max_cases df) as Hmax.
  destruct (Pd.index_min df) as [lo'|], (Pd.index_max df) as [hi'|].
  - destruct Hmin as [Hlo Hlb], Hmax as [Hhi Hub].
    assert (Hdf : exists df0, Some (Parquet df) = Some (Parquet df0)
                    /\ Num lo' ∈ Pd.index df0 /\ Num hi' ∈ Pd.index df0
                    /\ (forall t, Num t ∈ Pd.index df0 -> lo' <= t <= hi')).
    { exists df. repeat split; auto. }
    unfold to_pydatetime. destruct (index_tz df).
    + repeat split; try discriminate.
      * intros lo hi [= <-] [= <-]. exact Hdf.
      * intros [? [=]].
      * intros [? [=]].
    + repeat split; try discriminate.
      * intros lo hi [= <-] [= <-]. exact Hdf.
      * eauto.
      * eauto.
  - destruct Hmin as [Hin _]. now apply Hmax in Hin.
  - destruct Hmax as [Hin _]. now apply Hmin in Hin.
  - simpl. repeat split; try discriminate; try tauto; intros [? [=]].
Qed.

Lemma stored_dates_bracket_witness :
  exists df,
    read_file (store_with "data/AAPL" "ohlcv" (closes [7; 9; 8] 100))
              (path_join "data" "AAPL") "ohlcv" = Some (Parquet df)
    /\ Num (day_us 7) ∈ Pd.index df /\ Num (day_us 9) ∈ Pd.index df
    /\ (forall t, Num t ∈ Pd.index df -> day_us 7 <= t <= day_us 9).
Proof.
  destruct (stored_dates_bracket (store_with "data/AAPL" "ohlcv" (closes [7; 9; 8] 100))
              "AAPL" "data" "ohlcv") as (_ & _ & Hnaive & _).
  apply Hnaive; reflexivity.
Defined.

(** X6.  Cache validity is monotone: a cache that is valid stays valid
    when more days are allowed or when it is asked about at an earlier
    time, as long as the new cutoff is still a datetime. *)
Theorem is_cache_valid_monotone
    (fs : FS) (now now' : Z) (ticker data_dir data_type : string)
    (max_age_days max_age_days' : Z) :
  now' <= now -> max_age_days <= max_age_days' ->
  cutoff_is_datetime now' max_age_days' ->
  is_cache_valid fs now ticker data_dir data_type max_age_days = Ok true ->
  is_cache_valid fs now' ticker data_dir data_type max_age_days' = Ok true.
Proof.
  intros Hnow Hdays Hcut (df & latest & Hread & Hidx & Htz & Hmax & _ & Hle)%is_cache_valid_true.
  apply is_cache_valid_true. exists df, latest. repeat split; try assumption.
  - apply Hcut.
  - apply Hcut.
  - apply Hcut.
  - unfold timedelta_days in *. lia.
Qed.

Lemma is_cache_valid_monotone_witness :
  is_cache_valid (store_with "data/AAPL" "ohlcv" (closes [7; 8; 9] 100))
                 (day_us 9) "AAPL" "data" "ohlcv" 7 = Ok true.
Proof.
  apply (is_cache_valid_monotone _ (day_us 10) (day_us 9) _ _ _ 1 7);
    [vm_compute; discriminate|lia|vm_compute; intuition discriminate|reflexivity].
Defined.

(** X7.  Write-through decides the next freshness check: once
    [save_ticker_data] has written a price table with a temporal index
    whose latest timestamp is within the allowed age, [is_cache_valid]
    answers true for the ticker when the timestamps are naive, and raises
    [TypeError] when they carry a time zone; either way
    [prioritize_tickers] no longer counts the ticker as uncached. *)
Theorem save_makes_cache_valid
    (to_parquet_ok : string -> string -> DataFrame -> bool) (fs : FS) (now : Z)
    (ticker : string) (data : gmap string (option DataFrame)) (data_dir : string)
    (max_age_days : Z) (df : DataFrame) (latest : Z) :
  data !! "ohlcv" = Some (Some df) ->
  Pd.empty df = false ->
  to_parquet_ok (path_join data_dir ticker) "ohlcv" df = true ->
  index_type df = DatetimeIndex ->
  Pd.index_max df = Some latest ->
  cutoff_is_datetime now max_age_days ->
  now - timedelta_days max_age_days <= latest ->
  let fs' := snd (save_ticker_data to_parquet_ok fs ticker data data_dir) in
  (index_tz df = false ->
   is_cache_valid fs' now ticker data_dir "ohlcv" max_age_days = Ok true)
  /\ (index_tz df = true ->
      is_cache_valid fs' now ticker data_dir "ohlcv" max_age_days
      = Raise TypeError_naive_aware)
  /\ no_directory fs' data_dir ticker = false.
Proof.
  intros Hk Hne Hok Hidx Hmax Hcut Hage fs'.
  assert (Hread : read_file fs' (path_join data_dir ticker) "ohlcv" = Some (Parquet df)).
  { unfold fs'. rewrite save_ticker_data_read, decide_True by reflexivity.
    now rewrite Hk, Hne, Hok. }
  split; [|split].
  - intros Htz. apply is_cache_valid_true. exists df, latest. auto 10.
  - intros Htz.
    now rewrite is_cache_valid_read, Hread, Hidx, (cutoff_date_ok _ _ Hcut), Htz, Hmax.
  - unfold no_directory, dir_exists. unfold read_file in Hread.
    destruct (fs' !! path_join data_dir ticker) as [d|]; [|discriminate].
    now rewrite bool_decide_eq_true_2 by eauto.
Qed.

Lemma save_makes_cache_valid_witness :
  is_cache_valid
    (snd (save_ticker_data (fun _ _ _ => true) ∅ "AAPL"
            {[ "ohlcv" := Some (closes [8; 9] 100) ]} "data"))
    (day_us 10) "AAPL" "data" "ohlcv" 1 = Ok true.
Proof.
  apply (save_makes_cache_valid (fun _ _ _ => true) ∅ (day_us 10) "AAPL"
           {[ "ohlcv" := Some (closes [8; 9] 100) ]} "data" 1
           (closes [8; 9] 100) (day_us 9));
    try reflexivity; vm_compute; intuition discriminate.
Defined.

(** ** Prioritising twice *)

Section PrioritiseAgain.

Variables (fs : FS) (now : Z) (data_dir : string) (max_age_days : Z).

Lemma filter_filter_same {A} (f : A -> bool) (l : list A) :
  List.filter f (List.filter f l) = List.filter f l.
Proof.
  induction l as [|x l IH]; simpl; [reflexivity|].
  destruct (f x) eqn:Hf; simpl; [|exact IH]. now rewrite Hf, IH.
Qed.

Lemma filter_filter_none {A} (f g : A -> bool) (l : list A) :
  (forall x, g x = true -> f x = false) ->
  List.filter f (List.filter g l) = [].
Proof.
  intros Hfg. apply filter_none. intros x [_ Hg]%filter_In. now apply Hfg.
Qed.

Lemma stale_not_uncached (ticker : string) :
  stale fs now data_dir max_age_days ticker = true ->
  no_directory fs data_dir ticker = false.
Proof. unfold stale, no_directory. intros [-> _]%andb_true_iff. reflexivity. Qed.

Lemma fresh_not_uncached (ticker : string) :
  fresh fs now data_dir max_age_days ticker = true ->
  no_directory fs data_dir ticker = false.
Proof.
  unfold no_directory, fresh. intros Hfresh.
  destruct (dir_exists fs (path_join data_dir ticker)) eqn:Hdir; [reflexivity|].
  rewrite (no_directory_no_check fs now data_dir max_age_days ticker Hdir) in Hfresh.
  discriminate.
Qed.

Lemma fresh_not_stale (ticker : string) :
  fresh fs now data_dir max_age_days ticker = true ->
  stale fs now data_dir max_age_days ticker = false.
Proof.
  unfold stale, fresh.
  destruct (is_cache_valid fs now ticker data_dir "ohlcv" max_age_days) as [valid|e];
    [|discriminate].
  intros ->. apply andb_false_r.
Qed.

Lemma uncached_not_stale (ticker : string) :
  no_directory fs data_dir ticker = true ->
  stale fs now data_dir max_age_days ticker = false.
Proof.
  intros H. destruct (stale fs now data_dir max_age_days ticker) eqn:Hs; [|reflexivity].
  apply stale_not_uncached in Hs. congruence.
Qed.

Lemma uncached_not_fresh (ticker : string) :
  no_directory fs data_dir ticker = true ->
  fresh fs now data_dir max_age_days ticker = false.
Proof.
  intros H. destruct (fresh fs now data_dir max_age_days ticker) eqn:Hf; [|reflexivity].
  apply fresh_not_uncached in Hf. congruence.
Qed.

Lemma stale_not_fresh (ticker : string) :
  stale fs now data_dir max_age_days ticker = true ->
  fresh fs now data_dir max_age_days ticker = false.
Proof.
  intros H. destruct (fresh fs now data_dir max_age_days ticker) eqn:Hf; [|reflexivity].
  apply fresh_not_stale in Hf. congruence.
Qed.

End PrioritiseAgain.

Lemma prioritize_tickers_again
    (fs : FS) (now : Z) (tickers : list string) (data_dir : string) (max_age_days : Z)
    (order : list string) :
  prioritize_tickers fs now tickers data_dir max_age_days = Ok order ->
  prioritize_tickers fs now order data_dir max_age_days = Ok order.
Proof.
  intros Hfirst.
  pose proof (prioritize_tickers_answers _ _ _ _ _ _ Hfirst) as Hans.
  assert (Hans' : freshness_answers fs now data_dir max_age_days order).
  { intros t Ht. apply Hans.
    now rewrite <- (prioritize_tickers_perm _ _ _ _ _ _ Hfirst). }
  rewrite (prioritize_tickers_eq _ _ _ _ _ Hans'). f_equal.
  rewrite (prioritize_tickers_eq _ _ _ _ _ Hans) in Hfirst. injection Hfirst as <-.
  rewrite !List.filter_app.
  rewrite !filter_filter_same.
  rewrite (filter_filter_none (no_directory fs data_dir)
             (stale fs now data_dir max_age_days))
    by apply stale_not_uncached.
  rewrite (filter_filter_none (no_directory fs data_dir)
             (fresh fs now data_dir max_age_days))
    by apply fresh_not_uncached.
  rewrite (filter_filter_none (stale fs now data_dir max_age_days)
             (no_directory fs data_dir))
    by apply uncached_not_stale.
  rewrite (filter_filter_none (stale fs now data_dir max_age_days)
             (fresh fs now data_dir max_age_days))
    by apply fresh_not_stale.
  rewrite (filter_filter_none (fresh fs now data_dir max_age_days)
             (no_directory fs data_dir))
    by apply uncached_not_fresh.
  rewrite (filter_filter_none (fresh fs now data_dir max_age_days)
             (stale fs now data_dir max_age_days))
    by apply stale_not_fresh.
  simpl. now rewrite !app_nil_r.
Qed.

(** X8.  [prioritize_tickers] is idempotent: prioritising the list it
    returns, against the same store and clock, gives what prioritising
    once gives, the same list or, where the freshness check raises, the
    same error. *)
Theorem prioritize_tickers_idempotent
    (fs : FS) (now : Z) (tickers : list string) (data_dir : string) (max_age_days : Z) :
  (order ← prioritize_tickers fs now tickers data_dir max_age_days;
   prioritize_tickers fs now order data_dir max_age_days)
  = prioritize_tickers fs now tickers data_dir max_age_days.
Proof.
  destruct (prioritize_tickers fs now tickers data_dir max_age_days) as [order|e] eqn:Hfirst;
    simpl; [|reflexivity].
  now apply prioritize_tickers_again with tickers.
Qed.

(** ** Loading and saving several tickers *)

Section ManyTickers.

(** In a list with pairwise distinct keys, a key has one value. *)
Lemma NoDup_fst_functional {K V} (l : list (K * V)) (k : K) (v1 v2 : V) :
  NoDup (map fst l) -> (k, v1) ∈ l -> (k, v2) ∈ l -> v1 = v2.
Proof.
  induction l as [|[a b] l IH]; intros Hnd H1 H2.
  - now apply elem_of_nil in H1.
  - apply NoDup_cons in Hnd as [Hfresh Hnd].
    assert (Hkey : forall v, (a, v) ∈ l -> False).
    { intros v Hin. apply Hfresh, list_elem_of_fmap. now exists (a, v). }
    apply elem_of_cons in H1 as [[= -> ->]|H1]; apply elem_of_cons in H2 as [[= <-]|H2].
    + reflexivity.
    + now destruct (Hkey v2).
    + subst. now destruct (Hkey v1).
    + now apply IH.
Qed.

Lemma dict_truthy_nonempty {V} (d : gmap string V) :
  dict_truthy d = true <-> d <> ∅.
Proof.
  unfold dict_truthy. rewrite negb_true_iff, Nat.eqb_neq.
  now rewrite map_size_empty_iff.
Qed.

Lemma load_many_lookup (fs : FS) (tickers : list string) (data_dir : string)
    (data_types : option (list string))
    (acc : gmap string (gmap string DataFrame)) (t : string) :
  foldl (fun result ticker =>
           let ticker_data := load_ticker_data fs ticker data_dir data_types in
           if dict_truthy ticker_data then <[ ticker := ticker_data ]> result
           else result) acc tickers !! t =
    if bool_decide (t ∈ tickers)
       && dict_truthy (load_ticker_data fs t data_dir data_types)
    then Some (load_ticker_data fs t data_dir data_types)
    else acc !! t.
Proof.
  revert acc. induction tickers as [|x xs IH]; intros acc; simpl; [reflexivity|].
  rewrite IH. destruct (decide (t = x)) as [->|Htx].
  - rewrite (bool_decide_eq_true_2 (x ∈ x :: xs)) by (apply elem_of_cons; now left).
    simpl. destruct (dict_truthy (load_ticker_data fs x data_dir data_types)) eqn:Hd.
    + rewrite andb_true_r, lookup_insert_eq. now destruct (bool_decide _).
    + now rewrite andb_false_r.
  - assert (Hacc : (if dict_truthy (load_ticker_data fs x data_dir data_types)
                    then <[ x := load_ticker_data fs x data_dir data_types ]> acc
                    else acc) !! t = acc !! t).
    { destruct (dict_truthy (load_ticker_data fs x data_dir data_types));
        [|reflexivity].
      now rewrite lookup_insert_ne by congruence. }
    rewrite Hacc.
    destruct (decide (t ∈ xs)) as [Hin|Hnin].
    + rewrite !bool_decide_eq_true_2; [reflexivity|apply elem_of_cons; now right|exact Hin].
    + rewrite !bool_decide_eq_false_2; [reflexivity| |exact Hnin].
      intros [?|?]%elem_of_cons; contradiction.
Qed.

Variable to_parquet_ok : string -> string -> DataFrame -> bool.

(** The flag of [save_ticker_data] depends on the tables and on the
    writes only, not on what the store holds. *)
Lemma save_flag_any_store (fs fs' : FS) (ticker : string)
    (data : gmap string (option DataFrame)) (data_dir : string) :
  fst (save_ticker_data to_parquet_ok fs ticker data data_dir) =
  fst (save_ticker_data to_parquet_ok fs' ticker data data_dir).
Proof.
  unfold save_ticker_data, get_ticker_dir. now rewrite !save_loop_flag.
Qed.

Lemma save_many_lookup (ticker_data : list (string * gmap string (option DataFrame)))
    (data_dir : string) (acc : gmap string bool * FS) (store : FS) (t : string) :
  NoDup (map fst ticker_data) ->
  fst (foldl (fun (acc : gmap string bool * FS)
                  (item : string * gmap string (option DataFrame)) =>
                let '(ok, fs') :=
                  save_ticker_data to_parquet_ok (snd acc) (fst item) (snd item)
                                   data_dir in
                (<[ fst item := ok ]> (fst acc), fs'))
             acc ticker_data) !! t =
    match list_find (fun item : string * gmap string (option DataFrame) => fst item = t)
                    ticker_data with
    | Some (_, item) =>
        Some (fst (save_ticker_data to_parquet_ok store t (snd item) data_dir))
    | None => fst acc !! t
    end.
Proof.
  revert acc. induction ticker_data as [|[x data] rest IH]; intros acc Hnd;
    [reflexivity|].
  apply NoDup_cons in Hnd as [Hfresh Hnd].
  change (foldl ?f acc ((x, data) :: rest)) with (foldl f (f acc (x, data)) rest).
  rewrite IH by exact Hnd. cbn [list_find fst snd].
  destruct (decide (x = t)) as [->|Hxt].
  - assert (Hnone : list_find (fun item : string * gmap string (option DataFrame) =>
                                 fst item = t) rest = None).
    { apply list_find_None, Forall_forall. intros [y d] Hin Heq. simpl in Heq.
      subst y. apply Hfresh, list_elem_of_fmap. now exists (t, d). }
    rewrite Hnone. simpl.
    destruct (save_ticker_data to_parquet_ok acc.2 t data data_dir) as [ok fs1] eqn:Hs.
    simpl. rewrite lookup_insert_eq. f_equal.
    change ok with (fst (ok, fs1)). rewrite <- Hs. apply save_flag_any_store.
  - destruct (list_find _ rest) as [[i item]|] eqn:Hfind; simpl.
    + reflexivity.
    + destruct (save_ticker_data to_parquet_ok acc.2 x data data_dir) as [ok fs1].
      simpl. now rewrite lookup_insert_ne by congruence.
Qed.

End ManyTickers.

(** X9.  [load_data_for_tickers] returns an entry exactly for the asked
    tickers that have at least one readable table, and the entry is what
    [load_ticker_data] returns for the ticker. *)
Theorem load_data_for_tickers_finds
    (fs : FS) (tickers : list string) (data_dir : string)
    (data_types : option (list string)) (ticker : string)
    (tables : gmap string DataFrame) :
  load_data_for_tickers fs tickers data_dir data_types !! ticker = Some tables <->
  ticker ∈ tickers
  /\ tables = load_ticker_data fs ticker data_dir data_types
  /\ tables <> ∅.
Proof.
  unfold load_data_for_tickers. rewrite load_many_lookup, lookup_empty.
  destruct (decide (ticker ∈ tickers)) as [Hin|Hnin].
  - rewrite bool_decide_eq_true_2 by exact Hin. simpl.
    destruct (dict_truthy (load_ticker_data fs ticker data_dir data_types)) eqn:Hd.
    + apply dict_truthy_nonempty in Hd. split.
      * intros [= <-]. auto.
      * intros (_ & -> & _). reflexivity.
    + split; [discriminate|]. intros (_ & -> & Hne).
      apply dict_truthy_nonempty in Hne. congruence.
  - rewrite bool_decide_eq_false_2 by exact Hnin. simpl.
    split; [discriminate|]. now intros [? _].
Qed.

(** X10.  [save_data_for_tickers] reports, for each ticker of the
    dictionary, what [save_ticker_data] reports for that ticker's tables,
    whatever was saved before it; it reports on no other ticker. *)
Theorem save_data_for_tickers_reports
    (to_parquet_ok : string -> string -> DataFrame -> bool) (fs : FS)
    (ticker_data : list (string * gmap string (option DataFrame)))
    (data_dir : string) :
  NoDup (map fst ticker_data) ->
  (forall ticker data,
     (ticker, data) ∈ ticker_data ->
     fst (save_data_for_tickers to_parquet_ok fs ticker_data data_dir) !! ticker =
       Some (fst (save_ticker_data to_parquet_ok fs ticker data data_dir)))
  /\ (forall ticker,
        ticker ∉ map fst ticker_data ->
        fst (save_data_for_tickers to_parquet_ok fs ticker_data data_dir) !! ticker = None).
Proof.
  intros Hnd. unfold save_data_for_tickers. split.
  - intros ticker data Hin.
    rewrite (save_many_lookup to_parquet_ok ticker_data data_dir (∅, fs) fs ticker Hnd).
    destruct (list_find _ ticker_data) as [[i [t d]]|] eqn:Hfind.
    + apply list_find_Some in Hfind as (Hi & Ht & _). simpl in Ht. subst t.
      simpl. do 2 f_equal.
      apply list_elem_of_lookup_2 in Hi.
      now rewrite (NoDup_fst_functional ticker_data ticker d data Hnd Hi Hin).
    + apply list_find_None in Hfind. rewrite Forall_forall in Hfind.
      now destruct (Hfind _ Hin).
  - intros ticker Hnin.
    rewrite (save_many_lookup to_parquet_ok ticker_data data_dir (∅, fs) fs ticker Hnd).
    destruct (list_find _ ticker_data) as [[i [t d]]|] eqn:Hfind; [|apply lookup_empty].
    apply list_find_Some in Hfind as (Hi & Ht & _). simpl in Ht. subst t.
    destruct Hnin. apply list_elem_of_fmap. exists (ticker, d).
    split; [reflexivity|]. now apply list_elem_of_lookup_2 in Hi.
Qed.

Lemma save_data_for_tickers_reports_witness :
  fst (save_data_for_tickers (fun _ k _ => negb (String.eqb k "info")) ∅
         [ ("AAPL", {[ "ohlcv" := Some (closes [1; 2] 100) ]});
           ("MSFT", {[ "info" := Some (closes [1] 7) ]}) ] "data") !! "MSFT"
  = Some (fst (save_ticker_data (fun _ k _ => negb (String.eqb k "info")) ∅ "MSFT"
                 {[ "info" := Some (closes [1] 7) ]} "data")).
Proof.
  apply (save_data_for_tickers_reports (fun _ k _ => negb (String.eqb k "info")) ∅
           [ ("AAPL", {[ "ohlcv" := Some (closes [1; 2] 100) ]});
             ("MSFT", {[ "info" := Some (closes [1] 7) ]}) ] "data").
  - apply (bool_decide_unpack _). vm_compute. reflexivity.
  - apply elem_of_cons. right. apply elem_of_cons. now left.
Defined.


(** ** Reading the price history *)

Section History.

Lemma filter_sublist {A} (f : A -> bool) (l : list A) : sublist (List.filter f l) l.
Proof.
  induction l as [|x l IH]; simpl; [constructor|].
  destruct (f x); now constructor.
Qed.

Lemma elem_of_filter {A} (f : A -> bool) (l : list A) (x : A) :
  x ∈ List.filter f l <-> x ∈ l /\ f x = true.
Proof. rewrite !list_elem_of_In. apply filter_In. Qed.

Lemma mask_index_rows (df : DataFrame) (keep : Z -> bool) (l : Label) (row : Row) :
  (l, row) ∈ rows (Pd.mask_index df keep) <->
  (l, row) ∈ rows df /\ exists t, l = Num t /\ keep t = true.
Proof.
  unfold Pd.mask_index. simpl. rewrite elem_of_filter. simpl.
  split; intros [Hin H]; (split; [exact Hin|]).
  - destruct l as [t| |]; try discriminate. eauto.
  - now destruct H as (t & -> & H).
Qed.




(** The rows that pass the date filter of a table with temporal index. *)
Lemma filter_dataframe_by_date_row
    (df : DataFrame) (start_date end_date : option Z) (t : Z) (row : Row) :
  index_type df = DatetimeIndex ->
  (Num t, row) ∈ rows (filter_dataframe_by_date df start_date end_date) <->
  (Num t, row) ∈ rows df /\ within start_date end_date t.
Proof.
  intros Hidx. unfold filter_dataframe_by_date, within. rewrite Hidx.
  destruct start_date as [s|], end_date as [e|]; rewrite ?mask_index_rows.
  - split.
    + intros ((Hin & t1 & [= <-] & Hs%Z.leb_le) & t2 & [= <-] & He%Z.leb_le).
      split; [exact Hin|]. split; intros ? [= <-]; assumption.
    + intros (Hin & Hs & He). split; [split; [exact Hin|]|]; exists t.
      * split; [reflexivity|]. apply Z.leb_le. now apply Hs.
      * split; [reflexivity|]. apply Z.leb_le. now apply He.
  - split.
    + intros (Hin & t1 & [= <-] & Hs%Z.leb_le).
      split; [exact Hin|]. split; [intros ? [= <-]; assumption|discriminate].
    + intros (Hin & Hs & _). split; [exact Hin|]. exists t.
      split; [reflexivity|]. apply Z.leb_le. now apply Hs.
  - split.
    + intros (Hin & t1 & [= <-] & He%Z.leb_le).
      split; [exact Hin|]. split; [discriminate|intros ? [= <-]; assumption].
    + intros (Hin & _ & He). split; [exact Hin|]. exists t.
      split; [reflexivity|]. apply Z.leb_le. now apply He.
  - split; [intros Hin|now intros [Hin _]].
    split; [exact Hin|]. split; discriminate.
Qed.

(** With a bound given, only rows with a timestamp pass. *)
Lemma filter_dataframe_by_date_stamps
    (df : DataFrame) (start_date end_date : option Z) (l : Label) (row : Row) :
  index_type df = DatetimeIndex ->
  is_Some start_date \/ is_Some end_date ->
  (l, row) ∈ rows (filter_dataframe_by_date df start_date end_date) ->
  exists t, l = Num t.
Proof.
  intros Hidx Hbound. unfold filter_dataframe_by_date. rewrite Hidx.
  destruct start_date as [s|], end_date as [e|]; rewrite ?mask_index_rows.
  - intros (_ & t & -> & _). eauto.
  - intros (_ & t & -> & _). eauto.
  - intros (_ & t & -> & _). eauto.
  - destruct Hbound as [[? [=]]|[? [=]]].
Qed.

Lemma filter_dataframe_by_date_sub
    (df : DataFrame) (start_date end_date : option Z) :
  rows_of (filter_dataframe_by_date df start_date end_date) df.
Proof.
  unfold rows_of, filter_dataframe_by_date.
  destruct (index_type df); [|reflexivity..].
  destruct start_date as [s|], end_date as [e|]; simpl.
  - etransitivity; apply filter_sublist.
  - apply filter_sublist.
  - apply filter_sublist.
  - reflexivity.
Qed.

Lemma filter_dataframe_by_date_shape
    (df : DataFrame) (start_date end_date : option Z) :
  index_type (filter_dataframe_by_date df start_date end_date) = index_type df
  /\ columns_type (filter_dataframe_by_date df start_date end_date) = columns_type df
  /\ columns (filter_dataframe_by_date df start_date end_date) = columns df.
Proof.
  unfold filter_dataframe_by_date.
  destruct (index_type df) eqn:Hidx; [|now rewrite Hidx..].
  destruct start_date as [s|], end_date as [e|]; simpl; now rewrite ?Hidx.
Qed.

Lemma select_columns_rows (df : DataFrame) (cols : list Label) (l : Label) (row : Row) :
  (l, row) ∈ rows (Pd.select_columns df cols) ->
  exists row0, (l, row0) ∈ rows df
               /\ forall c, c ∈ cols -> row !! c = row0 !! c.
Proof.
  unfold Pd.select_columns. simpl.
  intros ([l0 row0] & [= -> ->] & Hin)%list_elem_of_fmap. simpl.
  exists row0. split; [exact Hin|]. intros c Hc.
  destruct (row0 !! c) as [v|] eqn:Hv.
  - apply map_lookup_filter_Some. now split.
  - apply map_lookup_filter_None. left. exact Hv.
Qed.

(** Positive cells of one column, each in a row of its own. *)
Lemma positive_part_rows (df : DataFrame) (col : Label) (l : Label) (row : Row) :
  (l, row) ∈ rows (Pd.positive_part df col) <->
  exists row0 v, (l, row0) ∈ rows df /\ row0 !! col = Some v /\ 0 < v
                 /\ row = {[ col := v ]}.
Proof.
  unfold Pd.positive_part. simpl. rewrite list_elem_of_fmap. split.
  - intros ([l0 row0] & Heq & [Hin Hpos]%elem_of_filter). simpl in *.
    destruct (row0 !! col) as [v|] eqn:Hv; [|discriminate].
    inversion Heq; subst. exists row0, v. apply Z.ltb_lt in Hpos. auto.
  - intros (row0 & v & Hin & Hv & Hpos & ->). exists (l, row0). simpl.
    rewrite Hv. split; [reflexivity|]. apply elem_of_filter. simpl.
    rewrite Hv. split; [exact Hin|]. now apply Z.ltb_lt.
Qed.

End History.



(** X12.  What [load_ticker_history] returns comes from the stored price
    table: every returned row carries the label of a stored row and agrees
    with it on the returned columns, every returned column is a stored
    column, and, when a bound was given and the index is temporal, every
    returned row has a timestamp within the bounds.  Without a readable
    price table the answer is [None]. *)
Theorem load_ticker_history_from_store
    (fs : FS) (ticker data_dir : string) (start_date end_date : option Z)
    (fields : option (list string)) :
  (forall out,
     load_ticker_history fs ticker data_dir start_date end_date fields = Some out ->
     exists df,
       read_file fs (path_join data_dir ticker) "ohlcv" = Some (Parquet df)
       /\ (forall c, c ∈ columns out -> c ∈ columns df)
       /\ (forall l row,
             (l, row) ∈ rows out ->
             exists row0, (l, row0) ∈ rows df
                          /\ forall c, c ∈ columns out -> row !! c = row0 !! c)
       /\ (index_type df = DatetimeIndex ->
           is_Some start_date \/ is_Some end_date ->
           forall l row, (l, row) ∈ rows out ->
                         exists t, l = Num t /\ within start_date end_date t))
  /\ ((forall df, read_file fs (path_join data_dir ticker) "ohlcv" <> Some (Parquet df)) ->
      load_ticker_history fs ticker data_dir start_date end_date fields = None).
Proof.
  unfold load_ticker_history. rewrite load_one. unfold load_dataframe_from_parquet.
  destruct (read_file _ _ _) as [[df|]|] eqn:Hread;
    [|split; [discriminate|reflexivity]..].
  split; [|intros H; now destruct (H df)].
  set (bounded := bool_decide (is_Some start_date) || bool_decide (is_Some end_date)).
  set (filtered := if bounded then filter_dataframe_by_date df start_date end_date
                   else df).
  assert (Hcols : columns filtered = columns df).
  { unfold filtered. destruct bounded; [|reflexivity].
    apply filter_dataframe_by_date_shape. }
  assert (Hrows : forall l row, (l, row) ∈ rows filtered -> (l, row) ∈ rows df).
  { unfold filtered. destruct bounded; [|auto]. intros l row Hin.
    eapply elem_of_submseteq; [exact Hin|].
    apply sublist_submseteq, filter_dataframe_by_date_sub. }
  assert (Hwithin : index_type df = DatetimeIndex ->
                    is_Some start_date \/ is_Some end_date ->
                    forall l row, (l, row) ∈ rows filtered ->
                                  exists t, l = Num t /\ within start_date end_date t).
  { intros Hidx Hb l row Hin.
    assert (Hbounded : bounded = true).
    { unfold bounded. apply orb_true_iff.
      destruct Hb; [left|right]; now apply bool_decide_eq_true_2. }
    unfold filtered in Hin. rewrite Hbounded in Hin.
    destruct (filter_dataframe_by_date_stamps df start_date end_date l row Hidx Hb Hin)
      as [t ->].
    exists t. split; [reflexivity|].
    now apply (filter_dataframe_by_date_row df start_date end_date t row Hidx). }
  assert (Hwhole : forall out, Some filtered = Some out ->
    exists df0, Some (Parquet df) = Some (Parquet df0)
      /\ (forall c, c ∈ columns out -> c ∈ columns df0)
      /\ (forall l row, (l, row) ∈ rows out ->
            exists row0, (l, row0) ∈ rows df0
                         /\ forall c, c ∈ columns out -> row !! c = row0 !! c)
      /\ (index_type df0 = DatetimeIndex -> is_Some start_date \/ is_Some end_date ->
          forall l row, (l, row) ∈ rows out ->
                        exists t, l = Num t /\ within start_date end_date t)).
  { intros out [= <-]. exists df. split; [reflexivity|]. split; [now rewrite Hcols|].
    split; [|exact Hwithin]. intros l row Hin. exists row. split; [auto|reflexivity]. }
  destruct fields as [[|f fs']|]; [exact Hwhole| |exact Hwhole].
  destruct (Pd.empty filtered); [exact Hwhole|]. simpl negb. cbv iota.
  set (available := List.filter (fun c => Pd.has_column filtered c) (map Name (f :: fs'))).
  assert (Havail : forall c, c ∈ available -> c ∈ columns df).
  { intros c [_ Hc]%elem_of_filter. unfold Pd.has_column in Hc.
    apply bool_decide_eq_true_1 in Hc. now rewrite <- Hcols. }
  destruct available as [|c cs] eqn:Hav; [discriminate|].
  intros out [= <-]. exists df. split; [reflexivity|]. simpl.
  split; [exact Havail|]. split.
  - intros l row Hin. apply select_columns_rows in Hin as (row0 & Hin & Hcells).
    exists row0. split; [now apply Hrows|exact Hcells].
  - intros Hidx Hb l row Hin. apply select_columns_rows in Hin as (row0 & Hin & _).
    now apply (Hwithin Hidx Hb l row0).
Qed.

(** Days 1 to 4 are stored; days 2 to 3 and the column [Close] are asked
    for. *)
Lemma load_ticker_history_from_store_witness :
  exists out df,
    load_ticker_history (store_with "data/AAPL" "ohlcv" (closes [1; 2; 3; 4] 100))
                        "AAPL" "data" (Some (day_us 2)) (Some (day_us 3))
                        (Some ["Close"]) = Some out
    /\ read_file (store_with "data/AAPL" "ohlcv" (closes [1; 2; 3; 4] 100))
                 (path_join "data" "AAPL") "ohlcv" = Some (Parquet df)
    /\ (forall c, c ∈ columns out -> c ∈ columns df)
    /\ (forall l row,
          (l, row) ∈ rows out ->
          exists row0, (l, row0) ∈ rows df
                       /\ forall c, c ∈ columns out -> row !! c = row0 !! c)
    /\ (forall l row,
          (l, row) ∈ rows out ->
          exists t, l = Num t /\ within (Some (day_us 2)) (Some (day_us 3)) t).
Proof.
  pose proof (load_ticker_history_from_store
                (store_with "data/AAPL" "ohlcv" (closes [1; 2; 3; 4] 100))
                "AAPL" "data" (Some (day_us 2)) (Some (day_us 3)) (Some ["Close"]))
    as [Hsome _].
  destruct (load_ticker_history _ _ _ _ _ _) as [out|] eqn:Hload;
    [|vm_compute in Hload; discriminate Hload].
  destruct (Hsome out eq_refl) as (df & Hread & Hcols & Hrows & Hbounds).
  exists out, df. split; [reflexivity|]. split; [exact Hread|].
  split; [exact Hcols|]. split; [exact Hrows|].
  apply Hbounds; [|left; eauto].
  vm_compute in Hread. injection Hread as <-. reflexivity.
Defined.

(** X13.  [price_tables] always holds the price table itself under
    ["ohlcv"], so it is never an empty dictionary; its only other keys are
    ["dividends"] and ["splits"]; and a dividends (splits) table has the one
    column it is named after and one row for each stored row with a
    positive dividend (split), carrying that value. *)
Theorem price_tables_shape (hist : DataFrame) :
  price_tables hist !! "ohlcv" = Some hist
  /\ dict_truthy (price_tables hist) = true
  /\ (forall k, is_Some (price_tables hist !! k) -> k ∈ ["ohlcv"; "dividends"; "splits"])
  /\ (forall d, price_tables hist !! "dividends" = Some d ->
        columns d = [Name "Dividends"]
        /\ forall l row, (l, row) ∈ rows d <->
             exists row0 v, (l, row0) ∈ rows hist /\ row0 !! Name "Dividends" = Some v
                            /\ 0 < v /\ row = {[ Name "Dividends" := v ]})
  /\ (forall d, price_tables hist !! "splits" = Some d ->
        columns d = [Name "Stock Splits"]
        /\ forall l row, (l, row) ∈ rows d <->
             exists row0 v, (l, row0) ∈ rows hist /\ row0 !! Name "Stock Splits" = Some v
                            /\ 0 < v /\ row = {[ Name "Stock Splits" := v ]}).
Proof.
  unfold price_tables.
  set (div := Pd.has_column hist (Name "Dividends") && Pd.any hist (Name "Dividends")).
  set (spl := Pd.has_column hist (Name "Stock Splits")
              && Pd.any hist (Name "Stock Splits")).
  assert (Hohlcv : (if spl
                    then <[ "splits" := Pd.positive_part hist (Name "Stock Splits") ]>
                           (if div
                            then <[ "dividends" := Pd.positive_part hist (Name "Dividends") ]>
                                   ({[ "ohlcv" := hist ]} : gmap string DataFrame)
                            else {[ "ohlcv" := hist ]})
                    else if div
                         then <[ "dividends" := Pd.positive_part hist (Name "Dividends") ]>
                                ({[ "ohlcv" := hist ]} : gmap string DataFrame)
                         else {[ "ohlcv" := hist ]}) !! "ohlcv" = Some hist).
  { destruct spl, div;
      rewrite ?(lookup_insert_ne _ "splits" "ohlcv"),
              ?(lookup_insert_ne _ "dividends" "ohlcv") by discriminate;
      apply lookup_singleton_eq. }
  split; [exact Hohlcv|]. split.
  - apply dict_truthy_nonempty. intros Hempty. rewrite Hempty in Hohlcv.
    now rewrite lookup_empty in Hohlcv.
  - split; [|split].
    + intros k [d Hk].
      destruct (decide (k = "splits")) as [->|Hs];
        [apply elem_of_cons; right; apply elem_of_cons; right; apply elem_of_cons; now left|].
      destruct (decide (k = "dividends")) as [->|Hd];
        [apply elem_of_cons; right; apply elem_of_cons; now left|].
      destruct (decide (k = "ohlcv")) as [->|Ho]; [apply elem_of_cons; now left|].
      destruct spl, div;
        rewrite ?(lookup_insert_ne _ "splits" k), ?(lookup_insert_ne _ "dividends" k),
                ?lookup_singleton_ne in Hk by congruence;
        discriminate.
    + intros d Hd.
      assert (Hpart : d = Pd.positive_part hist (Name "Dividends")).
      { destruct spl, div;
          rewrite ?(lookup_insert_ne _ "splits" "dividends") in Hd by discriminate;
          rewrite ?lookup_insert_eq, ?lookup_singleton_ne in Hd by discriminate;
          congruence. }
      subst d. split; [reflexivity|]. intros l row. apply positive_part_rows.
    + intros d Hd.
      assert (Hpart : d = Pd.positive_part hist (Name "Stock Splits")).
      { destruct spl, div;
          rewrite ?lookup_insert_eq in Hd;
          rewrite ?(lookup_insert_ne _ "dividends" "splits") in Hd by discriminate;
          rewrite ?lookup_singleton_ne in Hd by discriminate;
          congruence. }
      subst d. split; [reflexivity|]. intros l row. apply positive_part_rows.
Qed.


Lemma price_tables_shape_witness :
  columns (Pd.positive_part
             (mkDF DatetimeIndex Index [Name "Close"; Name "Dividends"]
                [ (Num (day_us 1), {[ Name "Close" := 100; Name "Dividends" := 0 ]});
                  (Num (day_us 2), {[ Name "Close" := 101; Name "Dividends" := 3 ]}) ]
                true)
             (Name "Dividends")) = [Name "Dividends"].
Proof.
  apply (price_tables_shape
           (mkDF DatetimeIndex Index [Name "Close"; Name "Dividends"]
              [ (Num (day_us 1), {[ Name "Close" := 100; Name "Dividends" := 0 ]});
                (Num (day_us 2), {[ Name "Close" := 101; Name "Dividends" := 3 ]}) ]
              true)).
  reflexivity.
Defined.

(** ** Ticker validation *)

Section Validation.

Lemma upper_char_idempotent (c : ascii) : upper_char (upper_char c) = upper_char c.
Proof. destruct c as [[] [] [] [] [] [] [] []]; reflexivity. Qed.

Lemma upper_idempotent (s : string) : upper (upper s) = upper s.
Proof.
  induction s as [|c s IH]; simpl; [reflexivity|].
  now rewrite upper_char_idempotent, IH.
Qed.

Lemma length_upper (s : string) : String.length (upper s) = String.length s.
Proof. induction s as [|c s IH]; simpl; [reflexivity|]. now rewrite IH. Qed.

Lemma upper_empty (s : string) : String.eqb (upper s) "" = String.eqb s "".
Proof. now destruct s. Qed.

Lemma validate_upper (ticker : string) :
  validate_ticker_symbol (upper ticker) = validate_ticker_symbol ticker.
Proof.
  unfold validate_ticker_symbol.
  now rewrite upper_empty, length_upper, upper_idempotent.
Qed.

Lemma validate_loop (tickers acc : list string) :
  foldl (fun valid_tickers ticker =>
           if validate_ticker_symbol ticker
           then valid_tickers ++ [upper ticker]
           else valid_tickers) acc tickers
  = acc ++ map upper (List.filter validate_ticker_symbol tickers).
Proof.
  revert acc. induction tickers as [|t ts IH]; intros acc; simpl.
  - now rewrite app_nil_r.
  - rewrite IH. destruct (validate_ticker_symbol t); [|reflexivity].
    simpl. now rewrite <- app_assoc.
Qed.

Lemma validate_tickers_eq (tickers : list string) :
  validate_tickers tickers = map upper (List.filter validate_ticker_symbol tickers).
Proof. unfold validate_tickers. apply validate_loop. Qed.

Lemma filter_all {A} (f : A -> bool) (l : list A) :
  (forall x, x ∈ l -> f x = true) -> List.filter f l = l.
Proof.
  induction l as [|x l IH]; intros H; simpl; [reflexivity|].
  rewrite H by (apply elem_of_cons; now left).
  rewrite IH; [reflexivity|]. intros y Hy. apply H, elem_of_cons. now right.
Qed.

Lemma validate_ticker_symbol_true (ticker : string) :
  validate_ticker_symbol ticker = true <->
  (1 <= String.length ticker <= 10)%nat
  /\ forall c, c ∈ String.list_ascii_of_string (upper ticker) -> c ∈ valid_chars.
Proof.
  unfold validate_ticker_symbol.
  destruct (String.eqb_spec ticker "") as [->|Hne]; simpl.
  - split; [discriminate|]. intros [[H _] _]. simpl in H. lia.
  - destruct (Nat.ltb_spec 10 (String.length ticker)) as [Hlong|Hshort].
    + split; [discriminate|]. intros [[_ H] _]. lia.
    + rewrite forallb_forall. split.
      * intros H. split.
        -- split; [|lia]. destruct ticker; [contradiction|simpl; lia].
        -- intros c Hc. apply list_elem_of_In in Hc.
           specialize (H c Hc). now apply bool_decide_eq_true_1 in H.
      * intros [_ H] c Hc. apply bool_decide_eq_true_2, H. now apply list_elem_of_In.
Qed.

End Validation.

(** X14.  [validate_tickers], on ASCII text, returns the valid symbols
    of its input in upper case and in their order; every symbol it returns
    has one to ten characters, all from the allowed set, is in upper case
    and is valid itself, so validating the result again changes nothing. *)
Theorem validate_tickers_normalises (tickers : list string) :
  Forall (fun ticker => ascii_only ticker = true) tickers ->
  let valid := validate_tickers tickers in
  valid = map upper (List.filter validate_ticker_symbol tickers)
  /\ (forall ticker, ticker ∈ valid ->
        validate_ticker_symbol ticker = true
        /\ upper ticker = ticker
        /\ (1 <= String.length ticker <= 10)%nat
        /\ forall c, c ∈ String.list_ascii_of_string ticker -> c ∈ valid_chars)
  /\ validate_tickers valid = valid.
Proof.
  intros _ valid.
  assert (Hvalid : forall ticker, ticker ∈ valid ->
            validate_ticker_symbol ticker = true /\ upper ticker = ticker).
  { intros ticker. unfold valid. rewrite validate_tickers_eq.
    intros (t & -> & [_ Ht]%elem_of_filter)%list_elem_of_fmap.
    now rewrite validate_upper, upper_idempotent. }
  split; [apply validate_tickers_eq|]. split.
  - intros ticker Hin. destruct (Hvalid ticker Hin) as [Hok Hup].
    split; [exact Hok|]. split; [exact Hup|].
    apply validate_ticker_symbol_true in Hok as [Hlen Hchars].
    split; [exact Hlen|]. now rewrite Hup in Hchars.
  - rewrite (validate_tickers_eq valid).
    rewrite filter_all by (intros t Ht; now apply Hvalid).
    rewrite <- (map_id valid) at 2. apply map_ext_in.
    intros t Ht%list_elem_of_In. now apply Hvalid.
Qed.

Lemma validate_tickers_normalises_witness :
  validate_tickers ["aapl"; "BRK.B"; "bad ticker"; ""; "TOOLONGTICKER"; "^gspc"]
  = ["AAPL"; "BRK.B"; "^GSPC"].
Proof.
  pose proof (validate_tickers_normalises
                ["aapl"; "BRK.B"; "bad ticker"; ""; "TOOLONGTICKER"; "^gspc"]) as H.
  simpl in H. destruct H as (Heq & _).
  - repeat constructor.
  - rewrite Heq. reflexivity.
Defined.


(** ** Runs that leave the store alone *)

Section StoreKept.

Lemma still_ret {A} (a : A) : keeps_store (mret a).
Proof. intros w. reflexivity. Qed.

Lemma still_bind {A B} (m : M A) (k : A -> M B) :
  keeps_store m -> (forall a, keeps_store (k a)) -> keeps_store (m ≫= k).
Proof.
  intros Hm Hk w. unfold mbind, M_bind. specialize (Hm w).
  destruct (m w) as [[a|e] w']; simpl in *; [|exact Hm].
  now rewrite Hk.
Qed.

Lemma still_try_except {A} (body : M A) (handler : Exception -> M A) :
  keeps_store body -> (forall e, keeps_store (handler e)) ->
  keeps_store (try_except body handler).
Proof.
  intros Hb Hh w. unfold try_except. specialize (Hb w).
  destruct (body w) as [[a|e] w']; simpl in *; [exact Hb|].
  now rewrite Hh.
Qed.

Lemma still_emit (ev : Event) : keeps_store (emit ev).
Proof. intros w. reflexivity. Qed.

Lemma still_lift {A} (r : Result A) : keeps_store (lift r).
Proof. intros w. reflexivity. Qed.

Lemma still_get_fs : keeps_store get_fs.
Proof. intros w. reflexivity. Qed.

Lemma still_now (env : Env) : keeps_store (now env).
Proof. intros w. reflexivity. Qed.

Lemma still_request (env : Env) {A} (r : Request) (answer : nat -> Result A) :
  keeps_store (request r answer).
Proof. intros w. reflexivity. Qed.

Lemma still_for_each {A S} (step : S -> A -> M S) (acc : S) (xs : list A) :
  (forall acc x, keeps_store (step acc x)) -> keeps_store (for_each step acc xs).
Proof.
  intros Hstep. revert acc. induction xs as [|x xs IH]; intros acc; simpl.
  - apply still_ret.
  - apply still_bind; [apply Hstep|]. intros acc'. apply IH.
Qed.

Lemma still_attempts_loop {A} (body : nat -> M (Flow A)) (attempts : list nat) :
  (forall attempt, keeps_store (body attempt)) ->
  keeps_store (attempts_loop body attempts).
Proof.
  intros Hbody. induction attempts as [|a rest IH]; simpl.
  - apply still_ret.
  - apply still_bind; [apply Hbody|]. intros [| |r]; [exact IH|apply still_ret..].
Qed.

End StoreKept.

(** One step of a structural proof of [keeps_store]; a branch taken only
    with a data directory is closed by the hypothesis that there is none. *)
Ltac still_step :=
  first
    [ apply still_ret
    | apply still_emit
    | apply still_lift
    | apply still_get_fs
    | apply still_now
    | apply still_request
    | apply still_bind; [|intros ?]
    | apply still_try_except; [|intros ?]
    | apply still_for_each; intros ? ?
    | apply still_attempts_loop; intros ?
    | match goal with
      | |- keeps_store (if ?b then _ else _) =>
          let E := fresh "E" in
          destruct b eqn:E;
          try (match goal with H : true = false |- _ => discriminate H end);
          try (exfalso;
               match goal with
               | H : truthy _ = false |- _ => rewrite H in E; simpl in E; discriminate E
               end)
      | |- keeps_store (match ?x with _ => _ end) => destruct x
      | |- keeps_store (let '(_, _) := ?x in _) => destruct x
      end ].

Section StoreKeptFetcher.

Variable env : Env.

Lemma still_fetch_fundamentals ticker result :
  keeps_store (fetch_fundamentals env ticker result).
Proof.
  unfold fetch_fundamentals, fetch_info, fetch_financials, fetch_balance_sheet,
    fetch_cashflow, fetch_earnings, yf_info, yf_statement, pause, sleep, log.
  repeat still_step.
Qed.

Lemma still_fetch_batch_price_data tickers q max_retries :
  keeps_store (fetch_batch_price_data env tickers q max_retries).
Proof.
  unfold fetch_batch_price_data, fetch_batch_attempt, yf_download, pause, sleep, log.
  repeat still_step.
Qed.

Lemma still_fetch_with_retry ticker q data_dir max_retries force_refresh :
  truthy data_dir = false ->
  keeps_store (fetch_with_retry env ticker q data_dir max_retries force_refresh).
Proof.
  intros Hdir.
  unfold fetch_with_retry, fetch_with_retry_loop, fetch_with_retry_attempt,
    yf_history, pause, sleep, log.
  repeat first [apply still_fetch_fundamentals | still_step].
Qed.

Lemma still_fetch_data_for_tickers
    tickers q data_dir max_retries force_refresh batch_size daily_limit :
  truthy data_dir = false ->
  keeps_store (fetch_data_for_tickers env tickers q data_dir max_retries force_refresh
                                      batch_size daily_limit).
Proof.
  intros Hdir.
  unfold fetch_data_for_tickers, process_day, between_days, process_batch,
    process_ticker, fetch_individually, pause, sleep, log.
  repeat first [ apply still_fetch_fundamentals
               | apply still_fetch_with_retry; assumption
               | apply still_fetch_batch_price_data
               | still_step ].
Qed.

Lemma still_fetch_data_from_date
    tickers start_date end_date interval prepost actions data_dir
    max_retries batch_size daily_limit :
  truthy data_dir = false ->
  keeps_store (fetch_data_from_date env tickers start_date end_date interval prepost
                                    actions data_dir max_retries batch_size daily_limit).
Proof.
  intros Hdir.
  unfold fetch_data_from_date, date_day, between_days, date_batch, date_fallback,
    date_fallback_attempt, store_ticker, keep_tables, yf_download, yf_history,
    pause, sleep, log.
  repeat still_step.
Qed.

End StoreKeptFetcher.

(** X15.  Without a data directory ([None] or the empty string) the
    fetchers never write: [fetch_with_retry], [fetch_data_for_tickers] and
    [fetch_data_from_date] leave the store exactly as it was, whatever the
    provider answers and whether they return or raise; the bulk price
    request never writes at all. *)
Theorem no_data_dir_no_write
    (env : Env) (q : Query) (data_dir : option string) (max_retries : Z)
    (force_refresh : bool) :
  truthy data_dir = false ->
  (forall ticker,
     keeps_store (fetch_with_retry env ticker q data_dir max_retries force_refresh))
  /\ (forall tickers batch_size daily_limit,
        keeps_store (fetch_data_for_tickers env tickers q data_dir max_retries
                                            force_refresh batch_size daily_limit))
  /\ (forall tickers start_date end_date interval prepost actions batch_size daily_limit,
        keeps_store (fetch_data_from_date env tickers start_date end_date interval
                                          prepost actions data_dir max_retries
                                          batch_size daily_limit))
  /\ (forall tickers, keeps_store (fetch_batch_price_data env tickers q max_retries)).
Proof.
  intros Hdir. repeat split; intros.
  - now apply still_fetch_with_retry.
  - now apply still_fetch_data_for_tickers.
  - now apply still_fetch_data_from_date.
  - apply still_fetch_batch_price_data.
Qed.

Lemma no_data_dir_no_write_witness :
  fs (snd (fetch_data_for_tickers overlapping_env ["AAPL"; "MSFT"] max_daily (Some "")
             3 false 50 400 cached_world))
  = fs cached_world.
Proof.
  pose proof (no_data_dir_no_write overlapping_env max_daily (Some "") 3 false eq_refl)
    as (_ & Hmany & _).
  specialize (Hmany ["AAPL"; "MSFT"] 50 400). unfold keeps_store in Hmany.
  exact (Hmany cached_world).
Defined.

(** ** An update keeps what is stored *)

Section UpdateKeeps.

Lemma keeps_rows_refl (store : FS) : keeps_rows store store.
Proof. intros dir k df H. exists df. auto. Qed.

Lemma keeps_rows_trans (a b c : FS) :
  keeps_rows a b -> keeps_rows b c -> keeps_rows a c.
Proof.
  intros Hab Hbc dir k df H.
  destruct (Hab dir k df H) as (df1 & H1 & Hsub1).
  destruct (Hbc dir k df1 H1) as (df2 & H2 & Hsub2).
  exists df2. auto.
Qed.

(** The merged table has every index label of the stored one. *)
Lemma merge_frames_keeps_index (existing new : DataFrame) (l : Label) :
  l ∈ Pd.index existing -> l ∈ Pd.index (merge_frames existing new).
Proof.
  intros Hin. rewrite (merge_frames_index_perm existing new).
  apply keep_last_keys. rewrite map_app. apply elem_of_app. now left.
Qed.

(** Saving the merge of what is stored with anything keeps every stored
    table, with at least its index labels. *)
Lemma save_merged_keeps_rows
    (ok : string -> string -> DataFrame -> bool) (store : FS)
    (ticker data_dir : string) (new_tables : gmap string DataFrame) :
  keeps_rows store
    (snd (save_ticker_data ok store ticker
            (Some <$> merge_data (load_ticker_data store ticker data_dir None)
                                 new_tables)
            data_dir)).
Proof.
  intros dir k df Hread. rewrite save_ticker_data_read.
  destruct (decide (dir = path_join data_dir ticker)) as [->|Hdir];
    [|exists df; auto].
  rewrite lookup_fmap. unfold merge_data. rewrite lookup_merge.
  rewrite load_ticker_data_lookup. unfold load_dataframe_from_parquet.
  rewrite Hread. simpl.
  destruct (new_tables !! k) as [new|]; simpl.
  - destruct (negb (Pd.empty (merge_frames df new))
              && ok (path_join data_dir ticker) k (merge_frames df new)).
    + exists (merge_frames df new). split; [reflexivity|].
      intros l. apply merge_frames_keeps_index.
    + exists df. auto.
  - destruct (negb (Pd.empty df) && ok (path_join data_dir ticker) k df);
      exists df; auto.
Qed.

Variable env : Env.

Lemma update_ticker_data_keeps_rows
    (ticker data_dir : string) (end_date : option PyDatetime) (interval : string)
    (w : World) :
  keeps_rows (fs w) (fs (snd (update_ticker_data env ticker data_dir end_date interval w))).
Proof.
  unfold update_ticker_data, log, emit, get_fs, now, lift, mbind, M_bind, mret, M_ret.
  simpl.
  destruct (get_latest_date (fs w) ticker data_dir "ohlcv") as [latest|];
    [|apply keeps_rows_refl].
  destruct (dt_gt _ _) as [[|]|e]; [apply keeps_rows_refl| |apply keeps_rows_refl].
  destruct end_date as [d|]; simpl.
  all: match goal with
       | |- context [fetch_data_from_date env ?ts ?s ?e ?i ?p ?a ?dd ?mr ?bs ?dl ?w0] =>
           pose proof (still_fetch_data_from_date env ts s e i p a dd mr bs dl
                         eq_refl w0) as Hstill;
           destruct (fetch_data_from_date env ts s e i p a dd mr bs dl w0)
             as [[new_data|e'] w2]
       end; simpl in Hstill; rewrite <- Hstill; try apply keeps_rows_refl.
  all: destruct (new_data !! ticker) as [new_tables|]; simpl;
    [|apply keeps_rows_refl].
  all: unfold save; simpl.
  all: pose proof (save_merged_keeps_rows (to_parquet_ok env) (fs w2) ticker data_dir
                     new_tables) as Hsave.
  all: destruct (save_ticker_data _ _ _ _ _) as [success store']; simpl in *.
  all: destruct success; exact Hsave.
Qed.

Lemma update_data_for_tickers_keeps_rows
    (tickers : list string) (data_dir : string) (end_date : option PyDatetime)
    (interval : string) (w : World) :
  keeps_rows (fs w)
    (fs (snd (update_data_for_tickers env tickers data_dir end_date interval w))).
Proof.
  unfold update_data_for_tickers.
  assert (Hloop : forall (acc : gmap string bool) w0,
    keeps_rows (fs w0)
      (fs (snd (for_each (fun (results : gmap string bool) ticker =>
                            ok ← update_ticker_data env ticker data_dir end_date interval;
                            mret (<[ ticker := ok ]> results))
                         acc tickers w0)))).
  { induction tickers as [|t ts IH]; intros acc w0; simpl; [apply keeps_rows_refl|].
    unfold mbind, M_bind.
    pose proof (update_ticker_data_keeps_rows t data_dir end_date interval w0) as Hone.
    destruct (update_ticker_data env t data_dir end_date interval w0) as [[ok|e] w1];
      simpl in *; [|exact Hone].
    eapply keeps_rows_trans; [exact Hone|]. apply (IH (<[ t := ok ]> acc) w1). }
  unfold mbind, M_bind. specialize (Hloop ∅ w).
  destruct (for_each _ ∅ tickers w) as [[results|e] w1]; simpl in *; [|exact Hloop].
  unfold log, emit. simpl.
  destruct (_ <? _)%nat; exact Hloop.
Qed.

End UpdateKeeps.

(** X16.  An update never loses stored data: after [update_ticker_data],
    and after [update_data_for_tickers], every table that was stored is
    still stored under the same path, with at least the index labels (the
    dates) it had, whatever the provider answered, whether the write went
    through or not, and for every other ticker as well. *)
Theorem update_never_loses_rows
    (env : Env) (data_dir : string) (end_date : option PyDatetime) (interval : string)
    (w : World) :
  (forall ticker,
     keeps_rows (fs w)
       (fs (snd (update_ticker_data env ticker data_dir end_date interval w))))
  /\ (forall tickers,
        keeps_rows (fs w)
          (fs (snd (update_data_for_tickers env tickers data_dir end_date interval w)))).
Proof.
  split; intros.
  - apply update_ticker_data_keeps_rows.
  - apply update_data_for_tickers_keeps_rows.
Qed.


(** ** Runs that ask the provider nothing *)

Section QuietFacts.

Lemma calls_of_app (tr1 tr2 : list Event) :
  calls_of (tr1 ++ tr2) = calls_of tr1 ++ calls_of tr2.
Proof. apply omap_app. Qed.

Lemma quiet_ret {A} (a : A) (w : World) : quiet (mret a) w a.
Proof. exists []. split; [apply runs_ret|reflexivity]. Qed.

Lemma quiet_log (lvl : Level) (msg : string) (w : World) : quiet (log lvl msg) w tt.
Proof. exists [Logged lvl msg]. split; [apply runs_emit|reflexivity]. Qed.

Lemma quiet_sleep (d : Duration) (w : World) : quiet (sleep d) w tt.
Proof. exists [Slept d]. split; [apply runs_emit|reflexivity]. Qed.

Lemma quiet_now (env : Env) (w : World) :
  quiet (now env) w (clock env (length (trace w))).
Proof.
  exists []. split; [|reflexivity].
  unfold runs, now. rewrite app_nil_r. now destruct w.
Qed.

Lemma quiet_get_fs (w : World) : quiet get_fs w (fs w).
Proof.
  exists []. split; [|reflexivity].
  unfold runs, get_fs. rewrite app_nil_r. now destruct w.
Qed.

Lemma quiet_lift {A} (r : Result A) (a : A) (w : World) :
  r = Ok a -> quiet (lift r) w a.
Proof. intros ->. exists []. split; [now apply runs_lift|reflexivity]. Qed.

Lemma quiet_bind {A B} (m : M A) (k : A -> M B) (w : World) a b :
  quiet m w a ->
  (forall w', fs w' = fs w -> quiet (k a) w' b) ->
  quiet (m ≫= k) w b.
Proof.
  intros (tr1 & Hm & Hc1) Hk.
  destruct (Hk (mkWorld (fs w) (trace w ++ tr1)) eq_refl) as (tr2 & Hk' & Hc2).
  exists (tr1 ++ tr2). split; [now apply runs_bind with a|].
  now rewrite calls_of_app, Hc1, Hc2.
Qed.

Lemma quiet_try_except {A} (body : M A) (handler : Exception -> M A) (w : World) a :
  quiet body w a -> quiet (try_except body handler) w a.
Proof. intros (tr & H & Hc). exists tr. split; [now apply runs_try_except|exact Hc]. Qed.

(** A loop all of whose turns are quiet is quiet, and returns the fold
    of what its turns return. *)
Lemma quiet_fold {A S} (step : S -> A -> M S) (f : S -> A -> S)
    (xs : list A) (acc : S) (w : World) :
  (forall acc x w', x ∈ xs -> fs w' = fs w -> quiet (step acc x) w' (f acc x)) ->
  quiet (for_each step acc xs) w (foldl f acc xs).
Proof.
  revert acc w. induction xs as [|x xs IH]; intros acc w Hstep; simpl.
  - apply quiet_ret.
  - eapply quiet_bind.
    + apply Hstep; [apply elem_of_cons; now left|reflexivity].
    + intros w' Hfs. apply IH. intros acc' y w'' Hy Hfs'.
      apply Hstep; [apply elem_of_cons; now right|congruence].
Qed.

Lemma quiet_between_days (day n_days : nat) (w : World) :
  quiet (between_days day n_days) w tt.
Proof.
  unfold between_days. destruct (_ <? _); [|apply quiet_ret].
  eapply quiet_bind; [apply quiet_log|]. intros w' _. apply quiet_sleep.
Qed.

(** A negative chunk size gives no chunk at all. *)
Lemma chunk_list_negative {A} (items : list A) (chunk_size : Z) :
  chunk_size < 0 -> chunk_list items chunk_size = Ok [].
Proof.
  intros Hneg. unfold chunk_list, Py.range, Py.range_len.
  destruct (Z.eqb_spec chunk_size 0) as [|_]; [lia|].
  destruct (Z.ltb_spec 0 chunk_size) as [|_]; [lia|]. simpl.
  destruct (Z.ltb_spec (Z.of_nat (length items)) 0) as [|_]; [lia|].
  now rewrite andb_false_r.
Qed.


End QuietFacts.

Section QuietFetcher.

Variable env : Env.

Lemma fetch_with_retry_cached
    (ticker : string) (q : Query) (data_dir : option string) (max_retries : Z)
    (w : World) :
  truthy data_dir = true ->
  is_cache_valid (fs w) (clock env (length (trace w))) ticker (default "" data_dir)
                 "ohlcv" MAX_AGE_DAYS = Ok true ->
  quiet (fetch_with_retry env ticker q data_dir max_retries false) w
        (load_ticker_data (fs w) ticker (default "" data_dir) None).
Proof.
  intros Hdir Hvalid. exists [Logged INFO "Using cached data for {ticker}"].
  split; [|reflexivity].
  unfold runs, fetch_with_retry, cache_check, now, get_fs, lift, log, emit,
    mbind, M_bind, mret, M_ret.
  simpl. now rewrite Hdir, Hvalid.
Qed.

Lemma update_ticker_data_nothing_stored
    (ticker data_dir : string) (end_date : option PyDatetime) (interval : string)
    (w : World) :
  get_latest_date (fs w) ticker data_dir "ohlcv" = None ->
  quiet (update_ticker_data env ticker data_dir end_date interval) w false.
Proof.
  intros Hnone.
  exists [ Logged INFO "Updating data for {ticker}";
           Logged WARNING "No existing data found for {ticker}, skipping update" ].
  split; [|reflexivity].
  unfold runs, update_ticker_data, get_fs, log, emit, mbind, M_bind, mret, M_ret.
  simpl. rewrite Hnone. simpl. now rewrite <- app_assoc.
Qed.

Lemma update_ticker_data_up_to_date
    (ticker data_dir : string) (end_date : option PyDatetime) (interval : string)
    (w : World) (latest : Z) :
  get_latest_date (fs w) ticker data_dir "ohlcv" = Some (Dt latest) ->
  (forall n, clock env n < latest + timedelta_days 1) ->
  quiet (update_ticker_data env ticker data_dir end_date interval) w true.
Proof.
  intros Hlatest Hclock.
  exists [ Logged INFO "Updating data for {ticker}";
           Logged INFO "Data for {ticker} is already up to date" ].
  split; [|reflexivity].
  unfold runs, update_ticker_data, get_fs, now, lift, log, emit, mbind, M_bind,
    mret, M_ret.
  simpl. rewrite Hlatest. simpl.
  destruct (Z.ltb_spec (clock env (length (trace w ++ [Logged INFO "Updating data for {ticker}"])))
                       (latest + timedelta_days 1)) as [_|Hge].
  - simpl. now rewrite <- app_assoc.
  - specialize (Hclock (length (trace w ++ [Logged INFO "Updating data for {ticker}"]))).
    lia.
Qed.

Lemma fetch_data_from_date_negative_limit
    (tickers : list string) (start_date : PyDatetime) (end_date : option PyDatetime)
    (interval : string) (prepost actions : bool) (data_dir : option string)
    (max_retries batch_size daily_limit : Z) (w : World) :
  daily_limit < 0 ->
  quiet (fetch_data_from_date env tickers start_date end_date interval prepost actions
                              data_dir max_retries batch_size daily_limit) w ∅.
Proof.
  intros Hneg.
  unfold quiet, runs, fetch_data_from_date, now, log, emit, lift, mbind, M_bind,
    mret, M_ret.
  destruct end_date as [d|]; simpl; destruct (1000 <? _); simpl;
    rewrite chunk_list_negative by exact Hneg; simpl;
    eexists; (split; [rewrite <- ?app_assoc; reflexivity|reflexivity]).
Qed.

Lemma fetch_data_for_tickers_negative_limit
    (tickers : list string) (q : Query) (data_dir : option string)
    (max_retries : Z) (force_refresh : bool) (batch_size daily_limit : Z) (w : World) :
  daily_limit < 0 ->
  prioritisation_answers env data_dir force_refresh (fs w) tickers ->
  quiet (fetch_data_for_tickers env tickers q data_dir max_retries force_refresh
                                batch_size daily_limit) w ∅.
Proof.
  intros Hneg Hans.
  unfold quiet, runs, fetch_data_for_tickers, now, get_fs, log, emit, lift, mbind,
    M_bind, mret, M_ret.
  destruct tickers as [|t ts]; simpl;
    [eexists; (split; [reflexivity|reflexivity])|].
  destruct (1000 <? _); simpl;
    destruct (truthy data_dir && negb force_refresh) eqn:Hon; simpl;
    try (match goal with
         | |- context [prioritize_tickers ?s (clock env ?n) ?ts ?d ?m] =>
             rewrite (prioritize_tickers_eq s (clock env n) d m ts (Hans Hon n))
         end; simpl);
    rewrite chunk_list_negative by exact Hneg; simpl;
    eexists; (split; [rewrite <- ?app_assoc; reflexivity|reflexivity]).
Qed.

(** With a daily limit of zero the split into daily chunks raises, before
    any request. *)
Lemma fetch_data_from_date_zero_limit
    (tickers : list string) (start_date : PyDatetime) (end_date : option PyDatetime)
    (interval : string) (prepost actions : bool) (data_dir : option string)
    (max_retries batch_size : Z) (w : World) :
  exists tr,
    fetch_data_from_date env tickers start_date end_date interval prepost actions
                         data_dir max_retries batch_size 0 w
    = (Raise ValueError_range_step, mkWorld (fs w) (trace w ++ tr))
    /\ calls_of tr = [].
Proof.
  unfold fetch_data_from_date, now, log, emit, lift, mbind, M_bind, mret, M_ret.
  destruct end_date as [d|]; simpl; destruct (1000 <? _); simpl;
    eexists; (split; [rewrite <- ?app_assoc; reflexivity|reflexivity]).
Qed.

Lemma fetch_data_for_tickers_zero_limit
    (tickers : list string) (q : Query) (data_dir : option string)
    (max_retries : Z) (force_refresh : bool) (batch_size : Z) (w : World) :
  tickers <> [] ->
  prioritisation_answers env data_dir force_refresh (fs w) tickers ->
  exists tr,
    fetch_data_for_tickers env tickers q data_dir max_retries force_refresh
                           batch_size 0 w
    = (Raise ValueError_range_step, mkWorld (fs w) (trace w ++ tr))
    /\ calls_of tr = [].
Proof.
  intros Hne Hans. destruct tickers as [|t ts]; [contradiction|].
  unfold fetch_data_for_tickers, now, get_fs, log, emit, lift, mbind, M_bind,
    mret, M_ret.
  destruct (1000 <? _); simpl;
    destruct (truthy data_dir && negb force_refresh) eqn:Hon; simpl;
    try (match goal with
         | |- context [prioritize_tickers ?s (clock env ?n) ?ts ?d ?m] =>
             rewrite (prioritize_tickers_eq s (clock env n) d m ts (Hans Hon n))
         end; simpl);
    first [ eexists; (split; [rewrite <- ?app_assoc; reflexivity|reflexivity])
          | exists []; (split; [rewrite app_nil_r; now destruct w|reflexivity]) ].
Qed.

End QuietFetcher.

(** X17.  A valid cache answers without the provider: when a data
    directory is given, no refresh is forced and the stored price table of
    the ticker is fresh, [fetch_with_retry] returns the stored tables, among
    them the price table, makes no request and leaves the store as it
    was. *)
Theorem fetch_with_retry_cache_hit
    (env : Env) (ticker : string) (q : Query) (data_dir : option string)
    (max_retries : Z) (w : World) :
  truthy data_dir = true ->
  is_cache_valid (fs w) (clock env (length (trace w))) ticker (default "" data_dir)
                 "ohlcv" MAX_AGE_DAYS = Ok true ->
  quiet (fetch_with_retry env ticker q data_dir max_retries false) w
        (load_ticker_data (fs w) ticker (default "" data_dir) None)
  /\ exists df,
       read_file (fs w) (path_join (default "" data_dir) ticker) "ohlcv" = Some (Parquet df)
       /\ load_ticker_data (fs w) ticker (default "" data_dir) None !! "ohlcv" = Some df.
Proof.
  intros Hdir Hvalid. split.
  - now apply fetch_with_retry_cached.
  - now apply valid_cache_loads in Hvalid.
Qed.

Lemma fetch_with_retry_cache_hit_witness :
  quiet (fetch_with_retry rate_limiting_env "AAPL" max_daily (Some "data") 3 false)
        cached_world
        (load_ticker_data (fs cached_world) "AAPL" (default "" (Some "data")) None).
Proof.
  pose proof (fetch_with_retry_cache_hit rate_limiting_env "AAPL" max_daily (Some "data")
                3 cached_world eq_refl eq_refl) as (Hquiet & _).
  exact Hquiet.
Defined.

(** X18.  An update that has nothing to do asks the provider nothing:
    with no stored price table (or one without temporal index)
    [update_ticker_data] returns [False], and with a latest stored date
    whose next day the clock has not reached it returns [True]; in both
    cases no request is made and the store is left as it was. *)
Theorem update_ticker_data_no_request
    (env : Env) (ticker data_dir : string) (end_date : option PyDatetime)
    (interval : string) (w : World) :
  (get_latest_date (fs w) ticker data_dir "ohlcv" = None ->
   quiet (update_ticker_data env ticker data_dir end_date interval) w false)
  /\ (forall latest,
        get_latest_date (fs w) ticker data_dir "ohlcv" = Some (Dt latest) ->
        (forall n, clock env n < latest + timedelta_days 1) ->
        quiet (update_ticker_data env ticker data_dir end_date interval) w true).
Proof.
  split.
  - apply update_ticker_data_nothing_stored.
  - intros latest. apply update_ticker_data_up_to_date.
Qed.

Lemma update_ticker_data_no_request_witness :
  quiet (update_ticker_data rate_limiting_env "MSFT" "data" None "1d") cached_world false
  /\ quiet (update_ticker_data rate_limiting_env "AAPL" "data" None "1d") cached_world true.
Proof.
  split.
  - pose proof (update_ticker_data_no_request rate_limiting_env "MSFT" "data" None "1d"
                  cached_world) as (Hnone & _).
    exact (Hnone eq_refl).
  - pose proof (update_ticker_data_no_request rate_limiting_env "AAPL" "data" None "1d"
                  cached_world) as (_ & Hfresh).
    apply (Hfresh (day_us 10)); [reflexivity|].
    intros n. vm_compute. reflexivity.
Defined.

(** X19.  The daily limit is not checked: with a negative limit
    [fetch_data_from_date] and [fetch_data_for_tickers] return an empty
    result for any list of tickers, without a request and without an
    error; with a limit of zero they raise the [ValueError] of [range]
    before any request ([fetch_data_for_tickers] only when the list is not
    empty).  The store is untouched in all cases.  For
    [fetch_data_for_tickers] this is what happens once the list is
    prioritised, that is when the freshness check, made before the limit
    is used, answers for every ticker. *)
Theorem daily_limit_not_positive
    (env : Env) (tickers : list string) (q : Query)
    (start_date : PyDatetime) (end_date : option PyDatetime) (interval : string)
    (prepost actions : bool) (data_dir : option string)
    (max_retries : Z) (force_refresh : bool) (batch_size daily_limit : Z) (w : World) :
  (daily_limit < 0 ->
   quiet (fetch_data_from_date env tickers start_date end_date interval prepost actions
                               data_dir max_retries batch_size daily_limit) w ∅
   /\ (prioritisation_answers env data_dir force_refresh (fs w) tickers ->
       quiet (fetch_data_for_tickers env tickers q data_dir max_retries force_refresh
                                     batch_size daily_limit) w ∅))
  /\ (daily_limit = 0 ->
      (exists tr,
         fetch_data_from_date env tickers start_date end_date interval prepost actions
                              data_dir max_retries batch_size daily_limit w
         = (Raise ValueError_range_step, mkWorld (fs w) (trace w ++ tr))
         /\ calls_of tr = [])
      /\ (tickers <> [] ->
          prioritisation_answers env data_dir force_refresh (fs w) tickers ->
          exists tr,
            fetch_data_for_tickers env tickers q data_dir max_retries force_refresh
                                   batch_size daily_limit w
            = (Raise ValueError_range_step, mkWorld (fs w) (trace w ++ tr))
            /\ calls_of tr = [])).
Proof.
  split.
  - intros Hneg. split.
    + now apply fetch_data_from_date_negative_limit.
    + now apply fetch_data_for_tickers_negative_limit.
  - intros ->. split.
    + apply fetch_data_from_date_zero_limit.
    + apply fetch_data_for_tickers_zero_limit.
Qed.

Lemma daily_limit_not_positive_witness :
  quiet (fetch_data_for_tickers overlapping_env ["AAPL"; "MSFT"] max_daily (Some "data")
                                3 false 50 (-1)) cached_world ∅.
Proof.
  pose proof (daily_limit_not_positive overlapping_env ["AAPL"; "MSFT"] max_daily
                (Dt (day_us 1)) None "1d" false true (Some "data") 3 false 50 (-1)
                cached_world) as (Hneg & _).
  assert (Hlt : -1 < 0) by reflexivity.
  apply (proj2 (Hneg Hlt)).
  intros _ n ticker Hin _.
  repeat (apply elem_of_cons in Hin as [->|Hin]; [eexists; vm_compute; reflexivity|]).
  now apply elem_of_nil in Hin.
Defined.


(** ** A run answered from the cache alone *)

Section Quietly.

Lemma quietly_of_quiet {A} (m : M A) (w : World) (a : A) (P : A -> Prop) :
  quiet m w a -> P a -> quietly m w P.
Proof. intros Hq HP. now exists a. Qed.

Lemma quietly_bind {A B} (m : M A) (k : A -> M B) (w : World)
    (P : A -> Prop) (Q : B -> Prop) :
  quietly m w P ->
  (forall a w', P a -> fs w' = fs w -> quietly (k a) w' Q) ->
  quietly (m ≫= k) w Q.
Proof.
  intros (a & (tr1 & Hm & Hc1) & HP) Hk.
  destruct (Hk a (mkWorld (fs w) (trace w ++ tr1)) HP eq_refl)
    as (b & (tr2 & Hk' & Hc2) & HQ).
  exists b. split; [|exact HQ].
  exists (tr1 ++ tr2). split; [now apply runs_bind with a|].
  now rewrite calls_of_app, Hc1, Hc2.
Qed.

(** A quiet step followed by a quiet run is a quiet run. *)
Lemma quiet_bind_quietly {A B} (m : M A) (k : A -> M B) (w : World) (a : A)
    (Q : B -> Prop) :
  quiet m w a ->
  (forall w', fs w' = fs w -> quietly (k a) w' Q) ->
  quietly (m ≫= k) w Q.
Proof.
  intros Hq Hk. apply quietly_bind with (P := fun x => x = a).
  - now apply quietly_of_quiet with a.
  - intros a' w' -> Hfs. now apply Hk.
Qed.

Lemma foldl_ext_in {A S} (f g : S -> A -> S) (l : list A) (acc : S) :
  (forall acc x, x ∈ l -> f acc x = g acc x) -> foldl f acc l = foldl g acc l.
Proof.
  revert acc. induction l as [|x l IH]; intros acc H; simpl; [reflexivity|].
  rewrite H by (apply elem_of_cons; now left).
  apply IH. intros acc' y Hy. apply H, elem_of_cons. now right.
Qed.

Lemma foldl_zip_snd {A S} (g : S -> A -> S) (xs : list A) (ks : list nat) (acc : S) :
  length ks = length xs ->
  foldl (fun acc (item : nat * A) => g acc (snd item)) acc (zip ks xs) = foldl g acc xs.
Proof.
  revert ks acc. induction xs as [|x xs IH]; intros [|k ks] acc Hlen;
    try discriminate; simpl; [reflexivity|].
  apply IH. simpl in Hlen. lia.
Qed.

Lemma foldl_enumerate {A S} (g : S -> A -> S) (xs : list A) (acc : S) :
  foldl (fun acc (item : nat * A) => g acc (snd item)) acc (enumerate xs)
  = foldl g acc xs.
Proof. unfold enumerate. apply foldl_zip_snd, length_seq. Qed.

Lemma foldl_concat {A S} (g : S -> A -> S) (xss : list (list A)) (acc : S) :
  foldl (foldl g) acc xss = foldl g acc (concat xss).
Proof.
  revert acc. induction xss as [|xs xss IH]; intros acc; simpl; [reflexivity|].
  now rewrite IH, foldl_app.
Qed.

Variables (store : FS) (data_dir : option string).

Lemma take_stored_lookup (tickers : list string)
    (acc : gmap string (gmap string DataFrame)) (t : string) :
  foldl (take_stored store data_dir) acc tickers !! t =
    if bool_decide (t ∈ tickers) then Some (stored_tables store data_dir t)
    else acc !! t.
Proof.
  revert acc. induction tickers as [|x xs IH]; intros acc; simpl; [reflexivity|].
  rewrite IH. unfold take_stored.
  destruct (decide (t = x)) as [->|Htx].
  - rewrite (bool_decide_eq_true_2 (x ∈ x :: xs)) by (apply elem_of_cons; now left).
    rewrite lookup_insert_eq. now destruct (bool_decide (x ∈ xs)).
  - rewrite lookup_insert_ne by congruence.
    destruct (decide (t ∈ xs)) as [Hin|Hnin].
    + rewrite !bool_decide_eq_true_2; [reflexivity|apply elem_of_cons; now right|exact Hin].
    + rewrite !bool_decide_eq_false_2; [reflexivity| |exact Hnin].
      intros [?|?]%elem_of_cons; contradiction.
Qed.

(** The result of the days: each day adds the tables of its tickers. *)
Lemma days_lookup (days : list (list string))
    (acc : gmap string (gmap string DataFrame)) (t : string) :
  foldl (fun acc day => foldl (take_stored store data_dir) ∅ day ∪ acc) acc days !! t =
    if bool_decide (t ∈ concat days) then Some (stored_tables store data_dir t)
    else acc !! t.
Proof.
  revert acc. induction days as [|d days IH]; intros acc; simpl; [reflexivity|].
  rewrite IH. rewrite lookup_union, take_stored_lookup, lookup_empty.
  destruct (decide (t ∈ d)) as [Hd|Hd].
  - rewrite (bool_decide_eq_true_2 (t ∈ d)) by exact Hd.
    rewrite (bool_decide_eq_true_2 (t ∈ d ++ concat days))
      by (apply elem_of_app; now left).
    destruct (bool_decide (t ∈ concat days)); [reflexivity|].
    now destruct (acc !! t).
  - rewrite (bool_decide_eq_false_2 (t ∈ d)) by exact Hd.
    destruct (decide (t ∈ concat days)) as [Hin|Hnin].
    + rewrite !bool_decide_eq_true_2; [reflexivity|apply elem_of_app; now right|exact Hin].
    + rewrite !bool_decide_eq_false_2; [now destruct (acc !! t)| |exact Hnin].
      intros [?|?]%elem_of_app; contradiction.
Qed.

(** A ticker with a valid cache has tables, so they count as a result. *)
Lemma keep_if_any_stored (now : Z) (max_age_days : Z) (ticker : string)
    (result : gmap string (gmap string DataFrame)) :
  is_cache_valid store now ticker (default "" data_dir) "ohlcv" max_age_days = Ok true ->
  keep_if_any ticker (load_ticker_data store ticker (default "" data_dir) None) result
  = take_stored store data_dir result ticker.
Proof.
  intros (df & _ & Hload)%valid_cache_loads. unfold keep_if_any, take_stored, stored_tables.
  assert (Htruthy : dict_truthy (load_ticker_data store ticker (default "" data_dir) None)
                    = true).
  { apply dict_truthy_nonempty. intros Hempty. rewrite Hempty in Hload.
    now rewrite lookup_empty in Hload. }
  now rewrite Htruthy.
Qed.

(** [all] over checks that all answer true. *)
Lemma all_of_true (check : string -> Result bool) (batch : list string) :
  (forall t, t ∈ batch -> check t = Ok true) -> all_of check batch = Ok true.
Proof.
  induction batch as [|t batch IH]; intros Hall; simpl; [reflexivity|].
  rewrite (Hall t) by (apply elem_of_cons; now left). simpl.
  apply IH. intros t' Ht'. apply Hall, elem_of_cons. now right.
Qed.

End Quietly.

Section FullyCached.

Variable env : Env.
Variables (q : Query) (data_dir : option string) (max_retries : Z).

Hypothesis with_directory : truthy data_dir = true.

Lemma process_batch_cached
    (batch_results : gmap string (gmap string DataFrame))
    (batch_idx : nat) (batch : list string) (w : World) :
  all_cached_in env data_dir (fs w) batch ->
  quiet (process_batch env q data_dir max_retries false batch_results (batch_idx, batch))
        w (foldl (take_stored (fs w) data_dir) batch_results batch).
Proof.
  intros Hvalid.
  exists [ Logged INFO
             "Processing batch {batch_idx+1}/{len(price_batches)}, {len(batch)} tickers";
           Logged INFO "Batch {batch_idx+1} entirely in cache, loading cached data" ].
  split; [|reflexivity].
  unfold runs, process_batch, batch_cache_check, now, get_fs, lift, log, emit,
    mbind, M_bind, mret, M_ret.
  simpl. rewrite with_directory. simpl.
  assert (Hall : all_of
                   (fun ticker =>
                      is_cache_valid (fs w)
                        (clock env
                           (length
                              (trace w ++
                               [Logged INFO
                                  "Processing batch {batch_idx+1}/{len(price_batches)}, {len(batch)} tickers"])))
                        ticker (default "" data_dir) "ohlcv" MAX_AGE_DAYS) batch
                 = Ok true).
  { apply all_of_true. intros t Ht. now apply Hvalid. }
  rewrite Hall. simpl. rewrite <- app_assoc. simpl. do 2 f_equal.
  apply foldl_ext_in. intros acc t Ht.
  apply keep_if_any_stored with (now := clock env 0) (max_age_days := MAX_AGE_DAYS).
  now apply Hvalid.
Qed.

Lemma process_day_cached
    (batch_size : Z) (n_days : nat) (result : gmap string (gmap string DataFrame))
    (day : nat) (daily_tickers : list string) (w : World) :
  0 < batch_size ->
  all_cached_in env data_dir (fs w) daily_tickers ->
  quiet (process_day env q data_dir max_retries false batch_size n_days result
                     (day, daily_tickers))
        w (foldl (take_stored (fs w) data_dir) ∅ daily_tickers ∪ result).
Proof.
  intros Hsize Hvalid. unfold process_day.
  destruct (chunk_list_ok daily_tickers batch_size Hsize) as (chunks & Hchunks & Hcat & _).
  eapply quiet_bind; [apply quiet_log|]. intros w1 Hfs1.
  eapply quiet_bind; [apply quiet_lift; exact Hchunks|]. intros w2 Hfs2.
  eapply quiet_bind.
  { apply (quiet_fold _ (fun acc (item : nat * list string) =>
                           foldl (take_stored (fs w) data_dir) acc (snd item))).
    intros acc [idx batch] w3 Hin Hfs3.
    assert (Hfs : fs w3 = fs w) by congruence.
    change (quiet (process_batch env q data_dir max_retries false acc (idx, batch)) w3
                  (foldl (take_stored (fs w) data_dir) acc batch)).
    rewrite <- Hfs. apply process_batch_cached.
    intros n t Ht. rewrite Hfs. apply Hvalid.
    rewrite <- Hcat. apply elem_of_concat with batch; [|exact Ht].
    now apply elem_of_enumerate in Hin. }
  intros w3 Hfs3.
  rewrite foldl_enumerate, foldl_concat, Hcat.
  eapply quiet_bind; [apply quiet_between_days|]. intros w4 Hfs4.
  apply quiet_ret.
Qed.

(** The days of a fully cached run, whatever list they are cut from. *)
Lemma days_cached
    (batch_size daily_limit : Z) (tickers : list string) (w : World) :
  0 < batch_size -> 0 < daily_limit ->
  all_cached_in env data_dir (fs w) tickers ->
  quietly
    (daily_chunks ← lift (chunk_list tickers daily_limit);
     log INFO "Split {len(tickers)} tickers into {len(daily_chunks)} daily chunks";;
     result ←
       for_each (process_day env q data_dir max_retries false batch_size
                             (length daily_chunks))
                ∅ (enumerate daily_chunks);
     log INFO "Total fetched: {len(result)}/{len(tickers)} tickers";;
     mret result)
    w
    (fun result =>
       forall t, result !! t =
                 if bool_decide (t ∈ tickers) then Some (stored_tables (fs w) data_dir t)
                 else None).
Proof.
  intros Hsize Hlimit Hvalid.
  destruct (chunk_list_ok tickers daily_limit Hlimit) as (days & Hdays & Hcat & _).
  eapply quietly_of_quiet.
  - eapply quiet_bind; [apply quiet_lift; exact Hdays|]. intros w1 Hfs1.
    eapply quiet_bind; [apply quiet_log|]. intros w2 Hfs2.
    eapply quiet_bind.
    { apply (quiet_fold _ (fun acc (item : nat * list string) =>
                             foldl (take_stored (fs w) data_dir) ∅ (snd item) ∪ acc)).
      intros acc [day daily] w3 Hin Hfs3.
      assert (Hfs : fs w3 = fs w) by congruence.
      change (quiet (process_day env q data_dir max_retries false batch_size
                                 (length days) acc (day, daily)) w3
                    (foldl (take_stored (fs w) data_dir) ∅ daily ∪ acc)).
      rewrite <- Hfs. apply process_day_cached; [exact Hsize|].
      intros n t Ht. rewrite Hfs. apply Hvalid.
      rewrite <- Hcat. apply elem_of_concat with daily; [|exact Ht].
      now apply elem_of_enumerate in Hin. }
    intros w3 Hfs3.
    eapply quiet_bind; [apply quiet_log|]. intros w4 Hfs4.
    apply quiet_ret.
  - intros t.
    rewrite (foldl_enumerate
               (fun acc day => foldl (take_stored (fs w) data_dir) ∅ day ∪ acc)).
    rewrite days_lookup, Hcat, lookup_empty. reflexivity.
Qed.

Lemma fetch_data_for_tickers_cached
    (tickers : list string) (batch_size daily_limit : Z) (w : World) :
  0 < batch_size -> 0 < daily_limit ->
  all_cached_in env data_dir (fs w) tickers ->
  quietly (fetch_data_for_tickers env tickers q data_dir max_retries false
                                  batch_size daily_limit)
          w
          (fun result =>
             forall t, result !! t =
                       if bool_decide (t ∈ tickers)
                       then Some (stored_tables (fs w) data_dir t)
                       else None).
Proof.
  intros Hsize Hlimit Hvalid. unfold fetch_data_for_tickers.
  destruct tickers as [|t0 ts] eqn:Hts.
  { eapply quietly_of_quiet.
    - eapply quiet_bind; [apply quiet_log|]. intros w1 _. apply quiet_ret.
    - intros t. now rewrite lookup_empty. }
  rewrite <- Hts in *. clear Hts.
  eapply quietly_bind with (P := fun _ => True).
  { destruct (1000 <? _); (eapply quietly_of_quiet; [|exact I]);
      [apply quiet_log|apply quiet_ret]. }
  intros [] w1 _ Hfs1.
  rewrite with_directory. simpl.
  eapply quietly_bind with (P := fun tickers' => tickers' ≡ₚ tickers).
  { eapply quiet_bind_quietly; [apply quiet_now|]. intros w2 Hfs2.
    eapply quiet_bind_quietly; [apply quiet_get_fs|]. intros w3 Hfs3.
    assert (Hans : forall n, freshness_answers (fs w2) (clock env n)
                               (default "" data_dir) MAX_AGE_DAYS tickers).
    { intros n t Ht _. exists true. rewrite Hfs2, Hfs1. now apply Hvalid. }
    pose proof (prioritize_tickers_eq _ _ _ _ _ (Hans (length (trace w1)))) as Horder.
    eapply quietly_of_quiet.
    - eapply quiet_bind; [apply quiet_lift; exact Horder|]. intros w4 Hfs4.
      eapply quiet_bind; [apply quiet_log|]. intros w5 Hfs5.
      apply quiet_ret.
    - now apply prioritize_tickers_perm in Horder. }
  intros tickers' w2 Hperm Hfs2.
  assert (Hfs : fs w2 = fs w) by congruence.
  assert (Hvalid' : all_cached_in env data_dir (fs w2) tickers').
  { intros n t Ht. rewrite Hfs. apply Hvalid. now rewrite <- Hperm. }
  destruct (days_cached batch_size daily_limit tickers' w2 Hsize Hlimit Hvalid')
    as (result & Hquiet & Hlookup).
  exists result. split.
  - destruct Hquiet as (tr & Hruns & Hcalls). exists tr. split; [|exact Hcalls].
    unfold runs in *. rewrite <- Hruns. reflexivity.
  - intros t. rewrite Hlookup, Hfs.
    destruct (decide (t ∈ tickers)) as [Hin|Hnin].
    + rewrite !bool_decide_eq_true_2; [reflexivity|exact Hin|now rewrite Hperm].
    + rewrite !bool_decide_eq_false_2; [reflexivity|exact Hnin|now rewrite Hperm].
Qed.

End FullyCached.

(** X20.  A fully cached run asks the provider nothing: when a data
    directory is given, no refresh is forced, the limits are positive and
    every ticker has a fresh price table, [fetch_data_for_tickers] returns,
    for exactly the tickers asked for, the tables the store holds for them,
    makes no request and leaves the store as it was. *)
Theorem fetch_data_for_tickers_fully_cached
    (env : Env) (tickers : list string) (q : Query) (data_dir : option string)
    (max_retries batch_size daily_limit : Z) (w : World) :
  truthy data_dir = true ->
  0 < batch_size -> 0 < daily_limit ->
  (forall n ticker, ticker ∈ tickers ->
     is_cache_valid (fs w) (clock env n) ticker (default "" data_dir) "ohlcv" MAX_AGE_DAYS
     = Ok true) ->
  quietly (fetch_data_for_tickers env tickers q data_dir max_retries false
                                  batch_size daily_limit)
          w
          (fun result =>
             forall ticker,
               result !! ticker =
                 if bool_decide (ticker ∈ tickers)
                 then Some (load_ticker_data (fs w) ticker (default "" data_dir) None)
                 else None).
Proof.
  intros Hdir Hsize Hlimit Hvalid.
  now apply fetch_data_for_tickers_cached.
Qed.

Lemma fetch_data_for_tickers_fully_cached_witness :
  quietly (fetch_data_for_tickers rate_limiting_env ["AAPL"] max_daily (Some "data")
                                  3 false 50 400)
          cached_world
          (fun result =>
             forall ticker,
               result !! ticker =
                 if bool_decide (ticker ∈ ["AAPL"])
                 then Some (load_ticker_data (fs cached_world) ticker
                                             (default "" (Some "data")) None)
                 else None).
Proof.
  assert (Hsize : 0 < 50) by reflexivity.
  assert (Hlimit : 0 < 400) by reflexivity.
  refine (fetch_data_for_tickers_fully_cached rate_limiting_env ["AAPL"] max_daily
            (Some "data") 3 50 400 cached_world eq_refl Hsize Hlimit _).
  intros n ticker Hin. apply list_elem_of_singleton in Hin. subst ticker.
  reflexivity.
Defined.


(** ** Updating several tickers *)

Section UpdateMany.

Variable env : Env.







End UpdateMany.



(** ** Empty answers of the provider *)

Section EmptyAnswers.

Variable env : Env.

Lemma fetch_with_retry_attempt_empty
    (ticker : string) (q : Query) (data_dir : option string) (attempt : nat)
    (w : World) (df : DataFrame) :
  history (remote env) (S (length (trace w))) ticker q = Ok df ->
  Pd.empty df = true ->
  runs (fetch_with_retry_attempt env ticker q data_dir attempt) w Next
       (empty_events ticker q attempt).
Proof.
  intros Hanswer Hempty. unfold runs, fetch_with_retry_attempt, try_except.
  unfold mbind, M_bind, log, pause, sleep, emit, yf_history, request. simpl.
  rewrite length_app, Nat.add_comm. simpl. rewrite Hanswer, Hempty. simpl.
  now rewrite <- !app_assoc.
Qed.

Lemma fetch_with_retry_empty
    (ticker : string) (q : Query) (data_dir : option string) (max_retries : Z)
    (force_refresh : bool) (w : World) :
  history_empty env ->
  cache_unused env data_dir force_refresh (fs w) ticker ->
  runs (fetch_with_retry env ticker q data_dir max_retries force_refresh) w ∅
       (flat_map (empty_events ticker q) (range_n max_retries)
        ++ [Logged ERROR "Failed to fetch {ticker} after {max_retries} retries"]).
Proof.
  intros Hempty Hcache. unfold runs, fetch_with_retry, now, get_fs.
  unfold lift, mbind at 1 2 3, M_bind. simpl. rewrite Hcache.
  unfold fetch_with_retry_loop. eapply runs_bind.
  - apply runs_attempts_next. intros attempt w' _.
    destruct (Hempty (S (length (trace w'))) ticker q) as (df & Hdf & He).
    now apply fetch_with_retry_attempt_empty with df.
  - simpl. eapply (runs_bind _ _ _ tt [_] ∅ []); [apply runs_emit|apply runs_ret].
Qed.

Lemma calls_of_empty (ticker : string) (q : Query) (attempts : list nat) :
  calls_of (flat_map (empty_events ticker q) attempts)
  = replicate (length attempts) (History ticker q).
Proof. induction attempts as [|a rest IH]; simpl; [reflexivity|]. now rewrite <- IH. Qed.

Lemma sleeps_of_empty (ticker : string) (q : Query) (attempts : list nat) :
  sleeps_of (flat_map (empty_events ticker q) attempts)
  = replicate (length attempts) (mkDuration REQUEST_DELAY 0).
Proof. induction attempts as [|a rest IH]; simpl; [reflexivity|]. now rewrite <- IH. Qed.

Lemma sleeps_of_app (tr1 tr2 : list Event) :
  sleeps_of (tr1 ++ tr2) = sleeps_of tr1 ++ sleeps_of tr2.
Proof. apply omap_app. Qed.

(** In the per-ticker fallback of the date-range fetch an empty answer
    ends the attempts for the ticker. *)
Lemma date_fallback_attempt_empty
    (ticker : string) (q : Query) (data_dir : option string)
    (result : gmap string (gmap string DataFrame)) (attempt : nat)
    (w : World) (df : DataFrame) :
  history (remote env) (length (trace w)) ticker q = Ok df ->
  Pd.empty df = true ->
  runs (date_fallback_attempt env ticker q data_dir result attempt) w Break
       [ Called (History ticker q);
         Logged WARNING "No data returned for {ticker}" ].
Proof.
  intros Hanswer Hempty. unfold runs, date_fallback_attempt, try_except.
  unfold mbind, M_bind, log, sleep, emit, yf_history, request. simpl.
  rewrite Hanswer, Hempty. simpl. now rewrite <- !app_assoc.
Qed.

End EmptyAnswers.

(** X22.  An empty answer is retried at a fixed pace and ends softly:
    when the provider answers every history request with an empty table
    (and the cache does not answer), [fetch_with_retry] asks [max_retries]
    times, sleeps [REQUEST_DELAY] seconds after each answer with no
    back-off, returns an empty dictionary without raising and leaves the
    store as it was; the per-ticker fallback of [fetch_data_from_date]
    gives the ticker up at its first empty answer. *)
Theorem empty_answers_are_retried
    (env : Env) (q : Query) (data_dir : option string) (max_retries : Z)
    (force_refresh : bool) :
  history_empty env ->
  (forall ticker w,
     cache_unused env data_dir force_refresh (fs w) ticker ->
     exists tr,
       runs (fetch_with_retry env ticker q data_dir max_retries force_refresh) w ∅ tr
       /\ calls_of tr = replicate (Z.to_nat max_retries) (History ticker q)
       /\ sleeps_of tr = replicate (Z.to_nat max_retries) (mkDuration REQUEST_DELAY 0))
  /\ (forall ticker result attempt rest w,
        runs (attempts_loop (date_fallback_attempt env ticker q data_dir result)
                            (attempt :: rest))
             w None
             [ Called (History ticker q);
               Logged WARNING "No data returned for {ticker}" ]).
Proof.
  intros Hempty. split.
  - intros ticker w Hcache. eexists. split; [now apply fetch_with_retry_empty|].
    rewrite calls_of_app, sleeps_of_app, calls_of_empty, sleeps_of_empty. simpl.
    unfold range_n. now rewrite !app_nil_r, length_seq.
  - intros ticker result attempt rest w. apply attempts_loop_break.
    destruct (Hempty (length (trace w)) ticker q) as (df & Hdf & He).
    now apply date_fallback_attempt_empty with df.
Qed.

Lemma empty_answers_are_retried_witness :
  exists tr,
    runs (fetch_with_retry silent_env "AAPL" max_daily None 3 false) empty_world ∅ tr
    /\ calls_of tr = replicate (Z.to_nat 3) (History "AAPL" max_daily)
    /\ sleeps_of tr = replicate (Z.to_nat 3) (mkDuration REQUEST_DELAY 0).
Proof.
  assert (Hsilent : history_empty silent_env).
  { intros n ticker q. exists (prices [] 0). split; reflexivity. }
  pose proof (empty_answers_are_retried silent_env max_daily None 3 false Hsilent)
    as (Hretry & _).
  apply (Hretry "AAPL" empty_world). intros n. reflexivity.
Defined.


(** ** What a fetch can return *)

Section Returns.

Lemma returns_ret {A} (a : A) (P : A -> Prop) : P a -> returns (mret a) P.
Proof. intros HP w a' w' H. unfold mret, M_ret in H. now inversion H; subst. Qed.

Lemma returns_bind {A B} (m : M A) (k : A -> M B) (P : A -> Prop) (Q : B -> Prop) :
  returns m P -> (forall a, P a -> returns (k a) Q) -> returns (m ≫= k) Q.
Proof.
  intros Hm Hk w b w' H. unfold mbind, M_bind in H.
  destruct (m w) as [[a|e] w1] eqn:Hmw; [|discriminate].
  eapply Hk; [eapply Hm; exact Hmw|exact H].
Qed.

Lemma returns_any {A} (m : M A) : returns m (fun _ => True).
Proof. intros w a w' _. exact I. Qed.

Lemma returns_then {A B} (m : M A) (k : A -> M B) (Q : B -> Prop) :
  (forall a, returns (k a) Q) -> returns (m ≫= k) Q.
Proof.
  intros Hk. apply returns_bind with (P := fun _ => True); [apply returns_any|].
  intros a _. apply Hk.
Qed.

Lemma returns_try_except {A} (body : M A) (handler : Exception -> M A) (Q : A -> Prop) :
  returns body Q -> (forall e, returns (handler e) Q) ->
  returns (try_except body handler) Q.
Proof.
  intros Hb Hh w a w' H. unfold try_except in H.
  destruct (body w) as [[a0|e] w1] eqn:Hbw.
  - inversion H; subst. eapply Hb; exact Hbw.
  - eapply Hh; exact H.
Qed.

Lemma returns_lift {A} (r : Result A) (P : A -> Prop) :
  (forall a, r = Ok a -> P a) -> returns (lift r) P.
Proof. intros H w a w' Hrun. unfold lift in Hrun. inversion Hrun; subst. now apply H. Qed.


Lemma returns_attempts_loop {A} (body : nat -> M (Flow A)) (attempts : list nat)
    (Q : option A -> Prop) :
  Q None ->
  (forall attempt,
     returns (body attempt)
             (fun f => match f with Return a => Q (Some a) | _ => True end)) ->
  returns (attempts_loop body attempts) Q.
Proof.
  intros Hnone Hbody. induction attempts as [|a rest IH]; simpl.
  - now apply returns_ret.
  - eapply returns_bind; [apply Hbody|]. intros [| |r] Hr.
    + exact IH.
    + now apply returns_ret.
    + now apply returns_ret.
Qed.

Lemma always_returns_intro {A} (m : M A) (P : A -> Prop) :
  never_raises m -> returns m P -> always_returns m P.
Proof.
  intros Hsafe Hret w. destruct (Hsafe w) as (a & w' & Hrun).
  exists a, w'. split; [exact Hrun|]. now apply Hret with w w'.
Qed.

Lemma foldl_invariant {A S} (f : S -> A -> S) (I : S -> Prop) (l : list A) (acc : S) :
  I acc -> (forall acc x, x ∈ l -> I acc -> I (f acc x)) -> I (foldl f acc l).
Proof.
  revert acc. induction l as [|x l IH]; intros acc Hacc Hstep; simpl; [exact Hacc|].
  apply IH.
  - apply Hstep; [apply elem_of_cons; now left|exact Hacc].
  - intros acc' y Hy. apply Hstep, elem_of_cons. now right.
Qed.


Lemma price_tables_ohlcv (hist : DataFrame) : price_tables hist !! "ohlcv" = Some hist.
Proof.
  unfold price_tables.
  destruct (Pd.has_column hist (Name "Stock Splits") && Pd.any hist (Name "Stock Splits")),
           (Pd.has_column hist (Name "Dividends") && Pd.any hist (Name "Dividends"));
    rewrite ?(lookup_insert_ne _ "splits" "ohlcv"),
            ?(lookup_insert_ne _ "dividends" "ohlcv") by discriminate;
    apply lookup_singleton_eq.
Qed.

End Returns.

(** A step whose value does not matter. *)
Ltac returns_skip := apply returns_then; intros ?.

Section ResultShape.

Variable tickers : list string.







End ResultShape.

Section DateRangeShape.

Variable env : Env.
Variables (q : Query) (data_dir : option string) (max_retries : Z).
Variable tickers : list string.






End DateRangeShape.

Section DateRangeRun.

Variable env : Env.


End DateRangeRun.

(** One of the five optional requests: whatever it adds, it adds beside
    the price table. *)
Ltac fundamentals_step :=
  apply returns_try_except;
  [ apply returns_then; intros ?; cbv zeta; returns_skip; apply returns_ret;
    match goal with
    | |- context [if ?b then _ else _] => destruct b
    end;
    rewrite ?lookup_insert_ne by discriminate; reflexivity
  | intros ?; returns_skip; now apply returns_ret ].

Section TickerListShape.

Variable env : Env.
Variables (q : Query) (data_dir : option string) (max_retries : Z) (force_refresh : bool).
Variable tickers : list string.

(** The fundamentals are added beside the price table. *)
Lemma fetch_fundamentals_keeps_prices (ticker : string) (result : gmap string DataFrame) :
  returns (fetch_fundamentals env ticker result)
          (fun result' => result' !! "ohlcv" = result !! "ohlcv").
Proof.
  unfold fetch_fundamentals.
  apply returns_bind with (P := fun r => r !! "ohlcv" = result !! "ohlcv");
    [unfold fetch_info; fundamentals_step|]. intros r1 <-.
  apply returns_bind with (P := fun r => r !! "ohlcv" = r1 !! "ohlcv");
    [unfold fetch_financials; fundamentals_step|]. intros r2 <-.
  apply returns_bind with (P := fun r => r !! "ohlcv" = r2 !! "ohlcv");
    [unfold fetch_balance_sheet; fundamentals_step|]. intros r3 <-.
  apply returns_bind with (P := fun r => r !! "ohlcv" = r3 !! "ohlcv");
    [unfold fetch_cashflow; fundamentals_step|]. intros r4 <-.
  unfold fetch_earnings; fundamentals_step.
Qed.

Lemma stored_priced_if_valid (store : FS) (t : Z) (ticker : string) :
  is_cache_valid store t ticker (default "" data_dir) "ohlcv" MAX_AGE_DAYS = Ok true ->
  priced_if_any (load_ticker_data store ticker (default "" data_dir) None).
Proof. intros (df & _ & Hload)%valid_cache_loads _. now rewrite Hload. Qed.

(** The check answers true only when the freshness check does. *)
Lemma cache_check_true (store : FS) (t : Z) (ticker : string) :
  cache_check data_dir force_refresh store t ticker = Ok true ->
  is_cache_valid store t ticker (default "" data_dir) "ohlcv" MAX_AGE_DAYS = Ok true.
Proof.
  unfold cache_check. now destruct (truthy data_dir && negb force_refresh).
Qed.



Lemma priced_if_any_empty : priced_if_any ∅.
Proof. intros H. discriminate H. Qed.

Lemma fetch_with_retry_loop_priced (ticker : string) :
  returns (fetch_with_retry_loop env ticker q data_dir max_retries) priced_if_any.
Proof.
  unfold fetch_with_retry_loop.
  apply returns_bind with (P := fun r => priced_if_any (default ∅ r)).
  - apply returns_attempts_loop; [apply priced_if_any_empty|].
    intros attempt. unfold fetch_with_retry_attempt. apply returns_try_except.
    + returns_skip. apply returns_then. intros hist_data.
      destruct (Pd.empty hist_data).
      * returns_skip. returns_skip. now apply returns_ret.
      * eapply returns_bind; [apply fetch_fundamentals_keeps_prices|].
        intros result Hres. returns_skip. apply returns_ret. simpl. intros _.
        rewrite Hres, price_tables_ohlcv. eauto.
    + intros e. destruct (is_rate_limited e);
        returns_skip; returns_skip; now apply returns_ret.
  - intros [result|] Hr; [now apply returns_ret|].
    returns_skip. apply returns_ret. apply priced_if_any_empty.
Qed.

Lemma fetch_with_retry_priced (ticker : string) :
  returns (fetch_with_retry env ticker q data_dir max_retries force_refresh) priced_if_any.
Proof.
  unfold fetch_with_retry. apply returns_then. intros t. apply returns_then. intros store.
  apply returns_bind
    with (P := fun valid : bool =>
                 cache_check data_dir force_refresh store t ticker = Ok valid).
  { now apply returns_lift. }
  intros [|] Hvalid; [|apply fetch_with_retry_loop_priced].
  returns_skip. apply returns_ret.
  apply stored_priced_if_valid with t. now apply cache_check_true.
Qed.






End TickerListShape.

Section TickerListRun.

Variable env : Env.


(** The bulk request gives tables of requested tickers only, none empty. *)
Lemma split_loop_usable (data : DataFrame) (tickers batch : list string)
    (acc : gmap string DataFrame) :
  (forall t, t ∈ batch -> t ∈ tickers) ->
  (forall t df, acc !! t = Some df -> t ∈ tickers /\ Pd.empty df = false) ->
  forall t df,
    foldl (fun result ticker =>
             if Pd.in_level0 data ticker then
               let ticker_data := Pd.sub_frame data ticker in
               if negb (Pd.empty ticker_data)
               then <[ ticker := ticker_data ]> result
               else result
             else result) acc batch !! t = Some df ->
    t ∈ tickers /\ Pd.empty df = false.
Proof.
  intros Hsub Hacc.
  apply (foldl_invariant _
           (fun r : gmap string DataFrame =>
              forall t df, r !! t = Some df -> t ∈ tickers /\ Pd.empty df = false)
           batch acc); [exact Hacc|].
  intros r x Hx Hr t df. cbv zeta.
  destruct (Pd.in_level0 data x); [|apply Hr].
  destruct (Pd.empty (Pd.sub_frame data x)) eqn:Hempty; simpl; [apply Hr|].
  destruct (decide (x = t)) as [->|Hneq].
  - rewrite lookup_insert_eq. intros [= <-]. split; [now apply Hsub|exact Hempty].
  - rewrite lookup_insert_ne by exact Hneq. apply Hr.
Qed.

Lemma split_batch_usable (tickers : list string) (data : DataFrame)
    (result : gmap string DataFrame) :
  Pd.empty data = false -> split_batch tickers data = Ok result ->
  forall ticker df, result !! ticker = Some df ->
    ticker ∈ tickers /\ Pd.empty df = false.
Proof.
  intros Hne Hsplit.
  destruct tickers as [|t1 [|t2 ts]].
  - injection Hsplit as <-. intros t df H. now rewrite lookup_empty in H.
  - injection Hsplit as <-. intros t df [<- <-]%lookup_singleton_Some.
    split; [apply elem_of_cons; now left|exact Hne].
  - unfold split_batch in Hsplit.
    destruct (columns_type data); try discriminate.
    injection Hsplit as <-.
    refine (split_loop_usable data (t1 :: t2 :: ts) (t1 :: t2 :: ts) ∅ (fun _ H => H) _).
    intros t df H. now rewrite lookup_empty in H.
Qed.

Lemma fetch_batch_price_data_usable
    (tickers : list string) (q : Query) (max_retries : Z) :
  returns (fetch_batch_price_data env tickers q max_retries)
          (fun result => forall ticker df, result !! ticker = Some df ->
                           ticker ∈ tickers /\ Pd.empty df = false).
Proof.
  assert (Hempty : forall ticker (df : DataFrame),
             (∅ : gmap string DataFrame) !! ticker = Some df ->
             ticker ∈ tickers /\ Pd.empty df = false).
  { intros t df H. now rewrite lookup_empty in H. }
  unfold fetch_batch_price_data. destruct tickers as [|t0 ts]; [now apply returns_ret|].
  apply returns_bind
    with (P := fun r : option (gmap string DataFrame) =>
                 forall ticker df, default ∅ r !! ticker = Some df ->
                   ticker ∈ t0 :: ts /\ Pd.empty df = false).
  - apply returns_attempts_loop; [exact Hempty|].
    intros attempt. unfold fetch_batch_attempt. apply returns_try_except.
    + returns_skip. apply returns_then. intros data.
      destruct (Pd.empty data) eqn:Hne.
      * returns_skip. returns_skip. now apply returns_ret.
      * apply returns_bind
          with (P := fun r : gmap string DataFrame =>
                       forall ticker df, r !! ticker = Some df ->
                         ticker ∈ t0 :: ts /\ Pd.empty df = false).
        -- apply returns_lift. intros r Hr. now apply split_batch_usable with data.
        -- intros r Hr. returns_skip. now apply returns_ret.
    + intros e. destruct (is_rate_limited e);
        returns_skip; returns_skip; now apply returns_ret.
  - intros [result|] Hr; [now apply returns_ret|].
    returns_skip. now apply returns_ret.
Qed.

End TickerListRun.



(** X24.  What the two requests return.  The result of
    [fetch_with_retry], whenever it returns, is either an empty dictionary
    or holds a price table under ['ohlcv'], whether it comes from the cache
    or from the provider; it returns exactly when its freshness check, made
    outside the [try], answers, and raises what the check raises
    otherwise, before any request.  [fetch_batch_price_data] always
    returns, and every table of its result belongs to a requested ticker
    and is not empty. *)
Theorem request_results_have_prices
    (env : Env) (q : Query) (data_dir : option string) (max_retries : Z)
    (force_refresh : bool) :
  (forall ticker,
     returns (fetch_with_retry env ticker q data_dir max_retries force_refresh)
             (fun tables => tables = ∅ \/ is_Some (tables !! "ohlcv")))
  /\ (forall ticker w,
        match cache_check data_dir force_refresh (fs w) (clock env (length (trace w)))
                          ticker with
        | Ok _ =>
            exists tables w',
              fetch_with_retry env ticker q data_dir max_retries force_refresh w
              = (Ok tables, w')
        | Raise e =>
            fetch_with_retry env ticker q data_dir max_retries force_refresh w
            = (Raise e, w)
        end)
  /\ (forall tickers,
        always_returns (fetch_batch_price_data env tickers q max_retries)
                       (fun result => forall ticker df,
                          result !! ticker = Some df ->
                          ticker ∈ tickers /\ Pd.empty df = false)).
Proof.
  split; [|split].
  - intros ticker w tables w' Hrun.
    pose proof (fetch_with_retry_priced env q data_dir max_retries force_refresh
                  ticker w tables w' Hrun) as Hpriced.
    destruct (dict_truthy tables) eqn:Htruthy; [right; now apply Hpriced|left].
    destruct (decide (tables = ∅)) as [Heq|Hne]; [exact Heq|].
    apply dict_truthy_nonempty in Hne. congruence.
  - intros ticker w.
    destruct (cache_check _ _ _ _ _) as [[|]|e] eqn:Hcheck;
      unfold fetch_with_retry, now, get_fs, lift; unfold mbind at 1 2 3, M_bind; simpl;
      rewrite Hcheck.
    + now eexists _, _.
    + apply safe_fetch_with_retry_loop.
    + reflexivity.
  - intros tickers. apply always_returns_intro; [apply safe_fetch_batch_price_data|].
    apply fetch_batch_price_data_usable.
Qed.


(** ** A stored index with a time zone *)

Section ZonedIndex.

Variables (store : FS) (data_dir : string).

(** With a cutoff that is a datetime the freshness check raises nothing
    but the [TypeError] of the comparison. *)
Lemma is_cache_valid_raises_only (now max_age_days : Z) (ticker : string)
    (e : Exception) :
  cutoff_is_datetime now max_age_days ->
  is_cache_valid store now ticker data_dir "ohlcv" max_age_days = Raise e ->
  e = TypeError_naive_aware.
Proof.
  intros Hcut. rewrite is_cache_valid_read.
  destruct (read_file _ _ _) as [[df|]|]; try discriminate.
  destruct (index_type df); try discriminate.
  rewrite (cutoff_date_ok _ _ Hcut). simpl.
  destruct (to_pydatetime _ _); simpl; congruence.
Qed.

Variables (ticker : string) (df : DataFrame) (latest : Z).

Hypothesis stored : read_file store (path_join data_dir ticker) "ohlcv" = Some (Parquet df).
Hypothesis temporal : index_type df = DatetimeIndex.
Hypothesis zoned : index_tz df = true.
Hypothesis has_rows : Pd.index_max df = Some latest.

Lemma is_cache_valid_zoned (now max_age_days : Z) :
  cutoff_is_datetime now max_age_days ->
  is_cache_valid store now ticker data_dir "ohlcv" max_age_days
  = Raise TypeError_naive_aware.
Proof.
  intros Hcut.
  now rewrite is_cache_valid_read, stored, temporal, (cutoff_date_ok _ _ Hcut),
    zoned, has_rows.
Qed.

Lemma stored_dir_exists : dir_exists store (path_join data_dir ticker) = true.
Proof.
  unfold dir_exists. unfold read_file in stored.
  destruct (store !! path_join data_dir ticker); [|discriminate].
  now rewrite bool_decide_eq_true_2 by eauto.
Qed.

(** The loop of [prioritize_tickers] ends at the first ticker whose
    check raises. *)
Lemma prioritize_loop_zoned (now max_age_days : Z) (tickers : list string) (b : Buckets) :
  cutoff_is_datetime now max_age_days ->
  ticker ∈ tickers ->
  fold_result (prioritize_step store now data_dir max_age_days) b tickers
  = Raise TypeError_naive_aware.
Proof.
  intros Hcut. revert b. induction tickers as [|x xs IH]; intros b Hin;
    [now apply elem_of_nil in Hin|].
  simpl.
  destruct (prioritize_step store now data_dir max_age_days b x) as [b'|e] eqn:Hstep;
    simpl; unfold prioritize_step in Hstep.
  - apply elem_of_cons in Hin as [Heq|Hin]; [subst x|now apply IH].
    rewrite stored_dir_exists, is_cache_valid_zoned in Hstep by exact Hcut.
    discriminate.
  - destruct (dir_exists store (path_join data_dir x)); simpl in Hstep; [|discriminate].
    destruct (is_cache_valid store now x data_dir "ohlcv" max_age_days)
      as [valid|e'] eqn:Hvalid; simpl in Hstep.
    + destruct valid; discriminate.
    + injection Hstep as <-.
      now rewrite (is_cache_valid_raises_only _ _ _ _ Hcut Hvalid).
Qed.

Lemma prioritize_tickers_zoned (now max_age_days : Z) (tickers : list string) :
  cutoff_is_datetime now max_age_days ->
  ticker ∈ tickers ->
  prioritize_tickers store now tickers data_dir max_age_days
  = Raise TypeError_naive_aware.
Proof.
  intros Hcut Hin. unfold prioritize_tickers.
  now rewrite prioritize_loop_zoned.
Qed.

End ZonedIndex.

(** X25.  A stored price table whose index carries a time zone stops the
    runs that read its date: its latest date does not compare with
    [datetime.now()], and the comparisons are outside any [try].  With a
    data directory and without forced refresh, [fetch_with_retry] raises
    the [TypeError] for the ticker, and [fetch_data_for_tickers] raises it
    for any list that holds the ticker; [update_ticker_data] raises it
    too.  All three raise before any request, and leave the store as it
    was.  (The clock is such that the cutoff of the freshness check is a
    datetime.) *)
Theorem zoned_index_stops_the_run
    (env : Env) (ticker data_dir : string) (df : DataFrame) (latest : Z) (w : World) :
  read_file (fs w) (path_join data_dir ticker) "ohlcv" = Some (Parquet df) ->
  index_type df = DatetimeIndex ->
  index_tz df = true ->
  Pd.index_max df = Some latest ->
  (forall n, cutoff_is_datetime (clock env n) MAX_AGE_DAYS) ->
  truthy (Some data_dir) = true ->
  (forall q max_retries,
     fetch_with_retry env ticker q (Some data_dir) max_retries false w
     = (Raise TypeError_naive_aware, w))
  /\ (forall tickers q max_retries batch_size daily_limit,
        ticker ∈ tickers ->
        exists tr,
          fetch_data_for_tickers env tickers q (Some data_dir) max_retries false
                                 batch_size daily_limit w
          = (Raise TypeError_naive_aware, mkWorld (fs w) (trace w ++ tr))
          /\ calls_of tr = [])
  /\ (forall end_date interval,
        exists tr,
          update_ticker_data env ticker data_dir end_date interval w
          = (Raise TypeError_naive_aware, mkWorld (fs w) (trace w ++ tr))
          /\ calls_of tr = []).
Proof.
  intros Hread Hidx Htz Hmax Hclock Hdir. split; [|split].
  - intros q max_retries.
    unfold fetch_with_retry, cache_check, now, get_fs, lift.
    unfold mbind at 1 2 3, M_bind. rewrite Hdir. simpl.
    rewrite (is_cache_valid_zoned _ _ _ _ _ Hread Hidx Htz Hmax) by apply Hclock.
    reflexivity.
  - intros tickers q max_retries batch_size daily_limit Hin.
    unfold fetch_data_for_tickers, now, get_fs, log, emit, lift, mbind, M_bind,
      mret, M_ret.
    destruct tickers as [|t ts] eqn:Hts; [now apply elem_of_nil in Hin|].
    rewrite <- Hts in *. rewrite Hdir.
    destruct (1000 <? _); simpl;
      rewrite (prioritize_tickers_zoned _ _ _ _ _ Hread Hidx Htz Hmax)
        by (try apply Hclock; exact Hin).
    + eexists. split; reflexivity.
    + exists []. rewrite app_nil_r. split; [now destruct w|reflexivity].
  - intros end_date interval.
    unfold update_ticker_data, log, emit, get_fs, now, lift, mbind, M_bind, mret, M_ret.
    simpl. rewrite get_latest_date_spec, Hread, Hidx, Htz, Hmax. simpl.
    eexists. split; reflexivity.
Qed.

Lemma zoned_index_stops_the_run_witness :
  fetch_with_retry rate_limiting_env "AAPL" max_daily (Some "data") 3 false zoned_world
  = (Raise TypeError_naive_aware, zoned_world).
Proof.
  assert (Hclock : forall n, cutoff_is_datetime (clock rate_limiting_env n) MAX_AGE_DAYS).
  { intros n. vm_compute. intuition discriminate. }
  exact (proj1 (zoned_index_stops_the_run rate_limiting_env "AAPL" "data"
                  (zoned_closes [8; 9; 10] 100) (day_us 10) zoned_world
                  eq_refl eq_refl eq_refl eq_refl Hclock eq_refl)
               max_daily 3).
Defined.
